(** * A shallow embedding of the Monopoly rules engine

    The engine lives in two React components: the context provider
    ([GameContext.jsx]: players, ownership, mortgages, houses, bankruptcies)
    and the game page ([GamePage]: dice, movement, landing resolution, buying,
    trading, chance cards, turn order).

    React state is modelled by explicit state passing.  A handler is a closure
    over the values of the render in which it was created (the _snapshot_) and
    it queues updates; a functional update [setX(prev => ...)] reads the value
    left by the updates queued before it.  Every function below therefore
    takes the snapshot [snap] it closes over and the state [st] built so far,
    and returns the state after its own updates.  A command issued on a
    freshly rendered state [s] is the handler run with [snap = st = s]. *)

From Stdlib Require Import ZArith Lia Bool.
From stdpp Require Import gmap list strings.

Local Open Scope Z_scope.

(** ** JavaScript numbers used as positions

    A position is an integer, or [NaN] once arithmetic met [undefined]. *)

Inductive jsnum : Type :=
  | Num (z : Z)
  | NaN.

#[global] Instance jsnum_eq_dec : EqDecision jsnum.
Proof. solve_decision. Defined.

Definition jadd (a : jsnum) (k : Z) : jsnum :=
  match a with Num z => Num (z + k) | NaN => NaN end.

(** JavaScript [%] truncates towards zero: it is [Z.rem], not [Z.modulo]. *)
Definition jrem (a : jsnum) (k : Z) : jsnum :=
  match a with Num z => Num (Z.rem z k) | NaN => NaN end.

(** [a < b]; any comparison with [NaN] is false. *)
Definition jlt (a b : jsnum) : bool :=
  match a, b with Num x, Num y => x <? y | _, _ => false end.

(** [a === k] for an integer literal [k]. *)
Definition jeqz (a : jsnum) (k : Z) : bool :=
  match a with Num x => x =? k | NaN => false end.

(** [arr[i]] : [undefined] for a negative index, past the end, or [NaN]. *)
Definition js_index {A} (l : list A) (i : Z) : option A :=
  if i <? 0 then None else l !! Z.to_nat i.

Definition js_index_num {A} (l : list A) (i : jsnum) : option A :=
  match i with Num z => js_index l z | NaN => None end.

(** ** Data model *)

Inductive PlayerType := human | ai.

#[global] Instance PlayerType_eq_dec : EqDecision PlayerType.
Proof. solve_decision. Defined.

Record Player := mkPlayer {
  name : string;
  ptype : PlayerType;
  money : Z;
  position : jsnum;
  inJail : bool;
  jailTurnsLeft : Z;
  jailFreeCard : bool
}.

Inductive CellType :=
  | property | railroad | utility | tax | chance | goto_jail | corner.

#[global] Instance CellType_eq_dec : EqDecision CellType.
Proof. solve_decision. Defined.

(** A board cell of [boardData.js].  The board is a table the engine only
    reads, and it is a parameter of everything below; the fields are the
    ones the engine reads ([cell.id], [cell.type], [cell.color],
    [cell.price], [cell.rent], [cell.rentMultiplier.one/.two],
    [cell.houseCost], [cell.mortgage], [cell.amount]), and the two only the
    executor of automated actions reads ([cell.mortgageValue],
    [cell.unmortgageCost]; [None] when the board does not define them). *)
Record Cell := mkCell {
  cell_id : nat;
  cell_type : CellType;
  cell_color : option string;
  cell_price : Z;
  cell_rent : list Z;
  cell_mult_one : Z;
  cell_mult_two : Z;
  cell_houseCost : Z;
  cell_mortgage : Z;
  cell_amount : Z;
  cell_mortgageValue : option Z;
  cell_unmortgageCost : option Z
}.

#[global] Instance Cell_eq_dec : EqDecision Cell.
Proof. solve_decision. Defined.

Inductive Effect :=
  | EMoney (amount : Z)
  | EMove (steps : Z)
  | EGoto (pos : Z)
  | EJail
  | EJailFree
  | ECollectFromAll (amount : Z)
  | EPayAll (amount : Z)
  | EPayPerHouse (amount : Z).

Record Card := mkCard { text : string; effect : Effect }.

Record Offer := mkOffer {
  giveProperties : list nat;
  giveMoney : Z;
  takeProperties : list nat;
  takeMoney : Z
}.

Record Trade := mkTrade { from : nat; to : nat; offer : Offer }.

(** The live state: the six context states followed by the page states. *)
Record GameState := mkState {
  players : list Player;
  currentPlayer : nat;
  ownership : gmap nat nat;
  mortgaged : gmap nat bool;
  houses : gmap nat Z;
  bankruptPlayers : list nat;
  dice : Z * Z;
  rolling : bool;
  hasRolled : bool;
  displayPositions : list jsnum;
  activeCell : option Cell;
  pendingTrade : option Trade;
  tradeWith : option nat;
  tradeOffer : Offer;
  chanceIndex : nat;
  chanceCard : option Card;
  isAITurn : bool
}.

(** *** State setters ([useState] pairs) *)

Definition setPlayers (v : list Player) (s : GameState) : GameState :=
  mkState v (currentPlayer s) (ownership s) (mortgaged s) (houses s)
    (bankruptPlayers s) (dice s) (rolling s) (hasRolled s)
    (displayPositions s) (activeCell s) (pendingTrade s) (tradeWith s)
    (tradeOffer s) (chanceIndex s) (chanceCard s) (isAITurn s).

Definition setCurrentPlayer (v : nat) (s : GameState) : GameState :=
  mkState (players s) v (ownership s) (mortgaged s) (houses s)
    (bankruptPlayers s) (dice s) (rolling s) (hasRolled s)
    (displayPositions s) (activeCell s) (pendingTrade s) (tradeWith s)
    (tradeOffer s) (chanceIndex s) (chanceCard s) (isAITurn s).

Definition setOwnership (v : gmap nat nat) (s : GameState) : GameState :=
  mkState (players s) (currentPlayer s) v (mortgaged s) (houses s)
    (bankruptPlayers s) (dice s) (rolling s) (hasRolled s)
    (displayPositions s) (activeCell s) (pendingTrade s) (tradeWith s)
    (tradeOffer s) (chanceIndex s) (chanceCard s) (isAITurn s).

Definition setMortgaged (v : gmap nat bool) (s : GameState) : GameState :=
  mkState (players s) (currentPlayer s) (ownership s) v (houses s)
    (bankruptPlayers s) (dice s) (rolling s) (hasRolled s)
    (displayPositions s) (activeCell s) (pendingTrade s) (tradeWith s)
    (tradeOffer s) (chanceIndex s) (chanceCard s) (isAITurn s).

Definition setHouses (v : gmap nat Z) (s : GameState) : GameState :=
  mkState (players s) (currentPlayer s) (ownership s) (mortgaged s) v
    (bankruptPlayers s) (dice s) (rolling s) (hasRolled s)
    (displayPositions s) (activeCell s) (pendingTrade s) (tradeWith s)
    (tradeOffer s) (chanceIndex s) (chanceCard s) (isAITurn s).

Definition setBankruptPlayers (v : list nat) (s : GameState) : GameState :=
  mkState (players s) (currentPlayer s) (ownership s) (mortgaged s) (houses s)
    v (dice s) (rolling s) (hasRolled s)
    (displayPositions s) (activeCell s) (pendingTrade s) (tradeWith s)
    (tradeOffer s) (chanceIndex s) (chanceCard s) (isAITurn s).

Definition setDice (v : Z * Z) (s : GameState) : GameState :=
  mkState (players s) (currentPlayer s) (ownership s) (mortgaged s) (houses s)
    (bankruptPlayers s) v (rolling s) (hasRolled s)
    (displayPositions s) (activeCell s) (pendingTrade s) (tradeWith s)
    (tradeOffer s) (chanceIndex s) (chanceCard s) (isAITurn s).

Definition setRolling (v : bool) (s : GameState) : GameState :=
  mkState (players s) (currentPlayer s) (ownership s) (mortgaged s) (houses s)
    (bankruptPlayers s) (dice s) v (hasRolled s)
    (displayPositions s) (activeCell s) (pendingTrade s) (tradeWith s)
    (tradeOffer s) (chanceIndex s) (chanceCard s) (isAITurn s).

Definition setHasRolled (v : bool) (s : GameState) : GameState :=
  mkState (players s) (currentPlayer s) (ownership s) (mortgaged s) (houses s)
    (bankruptPlayers s) (dice s) (rolling s) v
    (displayPositions s) (activeCell s) (pendingTrade s) (tradeWith s)
    (tradeOffer s) (chanceIndex s) (chanceCard s) (isAITurn s).

Definition setDisplayPositions (v : list jsnum) (s : GameState) : GameState :=
  mkState (players s) (currentPlayer s) (ownership s) (mortgaged s) (houses s)
    (bankruptPlayers s) (dice s) (rolling s) (hasRolled s)
    v (activeCell s) (pendingTrade s) (tradeWith s)
    (tradeOffer s) (chanceIndex s) (chanceCard s) (isAITurn s).

Definition setActiveCell (v : option Cell) (s : GameState) : GameState :=
  mkState (players s) (currentPlayer s) (ownership s) (mortgaged s) (houses s)
    (bankruptPlayers s) (dice s) (rolling s) (hasRolled s)
    (displayPositions s) v (pendingTrade s) (tradeWith s)
    (tradeOffer s) (chanceIndex s) (chanceCard s) (isAITurn s).

Definition setPendingTrade (v : option Trade) (s : GameState) : GameState :=
  mkState (players s) (currentPlayer s) (ownership s) (mortgaged s) (houses s)
    (bankruptPlayers s) (dice s) (rolling s) (hasRolled s)
    (displayPositions s) (activeCell s) v (tradeWith s)
    (tradeOffer s) (chanceIndex s) (chanceCard s) (isAITurn s).

Definition setTradeWith (v : option nat) (s : GameState) : GameState :=
  mkState (players s) (currentPlayer s) (ownership s) (mortgaged s) (houses s)
    (bankruptPlayers s) (dice s) (rolling s) (hasRolled s)
    (displayPositions s) (activeCell s) (pendingTrade s) v
    (tradeOffer s) (chanceIndex s) (chanceCard s) (isAITurn s).

Definition setTradeOffer (v : Offer) (s : GameState) : GameState :=
  mkState (players s) (currentPlayer s) (ownership s) (mortgaged s) (houses s)
    (bankruptPlayers s) (dice s) (rolling s) (hasRolled s)
    (displayPositions s) (activeCell s) (pendingTrade s) (tradeWith s)
    v (chanceIndex s) (chanceCard s) (isAITurn s).

Definition setChanceIndex (v : nat) (s : GameState) : GameState :=
  mkState (players s) (currentPlayer s) (ownership s) (mortgaged s) (houses s)
    (bankruptPlayers s) (dice s) (rolling s) (hasRolled s)
    (displayPositions s) (activeCell s) (pendingTrade s) (tradeWith s)
    (tradeOffer s) v (chanceCard s) (isAITurn s).

Definition setChanceCard (v : option Card) (s : GameState) : GameState :=
  mkState (players s) (currentPlayer s) (ownership s) (mortgaged s) (houses s)
    (bankruptPlayers s) (dice s) (rolling s) (hasRolled s)
    (displayPositions s) (activeCell s) (pendingTrade s) (tradeWith s)
    (tradeOffer s) (chanceIndex s) v (isAITurn s).

(** *** Player field updates ([{ ...p, field: v }]) *)

Definition withMoney (m : Z) (p : Player) : Player :=
  mkPlayer (name p) (ptype p) m (position p) (inJail p) (jailTurnsLeft p)
    (jailFreeCard p).

Definition withMove (pos : jsnum) (m : Z) (p : Player) : Player :=
  mkPlayer (name p) (ptype p) m pos (inJail p) (jailTurnsLeft p)
    (jailFreeCard p).

Definition withJail (pos : jsnum) (j : bool) (t : Z) (p : Player) : Player :=
  mkPlayer (name p) (ptype p) (money p) pos j t (jailFreeCard p).

Definition withJailFreeCard (c : bool) (p : Player) : Player :=
  mkPlayer (name p) (ptype p) (money p) (position p) (inJail p)
    (jailTurnsLeft p) c.

(** [prev.map((p, idx) => idx === who ? f(p) : p)] *)
Definition mapPlayer (who : nat) (f : Player -> Player) (l : list Player)
  : list Player :=
  imap (fun idx p => if decide (idx = who) then f p else p) l.

(** [obj[k] || 0] on a house-count map. *)
Definition houseCountIn (h : gmap nat Z) (cellId : nat) : Z :=
  default 0 (h !! cellId).

(** [mortgaged[k]] used as a condition: truthy only for [true]. *)
Definition isMortgagedIn (m : gmap nat bool) (cellId : nat) : bool :=
  default false (m !! cellId).

(** ** GameContext.jsx *)

(** [updateMoney(playerId, amount)] *)
Definition updateMoney (playerId : nat) (amount : Z) (st : GameState)
  : GameState :=
  setPlayers
    (mapPlayer playerId (fun p => withMoney (money p + amount) p) (players st))
    st.

(** [buildHouse(cellId, playerId, cost)]: the updater of [setHouses] reads the
    queued house map but the player's money of the snapshot, and queues the
    debit itself; it is taken to run once, as in a production build. *)
Definition buildHouse (snap : GameState) (cellId playerId : nat) (cost : Z)
    (st : GameState) : GameState :=
  let current := houseCountIn (houses st) cellId in
  if 5 <=? current then st
  else
    let playerMoney :=
      match players snap !! playerId with Some p => money p | None => 0 end in
    if playerMoney <? cost then st
    else
      updateMoney playerId (- cost)
        (setHouses (<[cellId := current + 1]> (houses st)) st).

(** [sellHouse(cellId, playerId, refund)] *)
Definition sellHouse (snap : GameState) (cellId playerId : nat) (refund : Z)
    (st : GameState) : GameState :=
  if decide (ownership snap !! cellId = Some playerId) then
    let count := houseCountIn (houses st) cellId in
    let st1 :=
      if count <=? 0 then st
      else setHouses (<[cellId := count - 1]> (houses st)) st in
    updateMoney playerId refund st1
  else st.

(** [declareBankruptcy(playerId)]: ownership is filtered on its queued value,
    mortgages and houses on the ownership of the snapshot. *)
Definition declareBankruptcy (snap : GameState) (playerId : nat)
    (st : GameState) : GameState :=
  let st1 :=
    setOwnership
      (filter (fun kv : nat * nat => kv.2 <> playerId) (ownership st)) st in
  let st2 :=
    setMortgaged
      (filter (fun kv : nat * bool => ownership snap !! kv.1 <> Some playerId)
         (mortgaged st1)) st1 in
  let st3 :=
    setHouses
      (filter (fun kv : nat * Z => ownership snap !! kv.1 <> Some playerId)
         (houses st2)) st2 in
  setBankruptPlayers
    (if decide (playerId ∈ bankruptPlayers st3) then bankruptPlayers st3
     else bankruptPlayers st3 ++ [playerId]) st3.

(** [mortgageProperty(cellId, playerId, value)] *)
Definition mortgageProperty (snap : GameState) (cellId playerId : nat)
    (value : Z) (st : GameState) : GameState :=
  if 0 <? houseCountIn (houses snap) cellId then st
  else updateMoney playerId value
         (setMortgaged (<[cellId := true]> (mortgaged st)) st).

(** [unmortgageProperty(cellId, playerId, cost)] *)
Definition unmortgageProperty (cellId playerId : nat) (cost : Z)
    (st : GameState) : GameState :=
  let st1 :=
    setPlayers
      (imap (fun idx p =>
               if bool_decide (idx = playerId) && (cost <=? money p)
               then withMoney (money p - cost) p else p) (players st)) st in
  setMortgaged (<[cellId := false]> (mortgaged st1)) st1.

(** [sendToJail(playerId, jailPosition = 10)] *)
Definition sendToJail (playerId : nat) (st : GameState) : GameState :=
  setPlayers (mapPlayer playerId (withJail (Num 10) true 3) (players st)) st.

(** [releaseFromJail(playerId)] *)
Definition releaseFromJail (playerId : nat) (st : GameState) : GameState :=
  setPlayers
    (mapPlayer playerId (fun p => withJail (position p) false 0 p)
       (players st)) st.

(** [decrementJailTurn(playerId)] *)
Definition decrementJailTurn (playerId : nat) (st : GameState) : GameState :=
  setPlayers
    (mapPlayer playerId
       (fun p => withJail (position p) (inJail p) (jailTurnsLeft p - 1) p)
       (players st)) st.

(** ** Outcomes of a handler

    A handler either runs to its end, or stops at a [TypeError] raised by
    reading a property of [undefined] (the updates queued before the throw are
    kept by React), or does not return within the given fuel. *)

Inductive outcome : Type :=
  | Done (st : GameState)
  | TypeError (st : GameState)
  | OutOfFuel.

Definition obind (o : outcome) (k : GameState -> outcome) : outcome :=
  match o with
  | Done st => k st
  | TypeError st => TypeError st
  | OutOfFuel => OutOfFuel
  end.

Definition omap (f : GameState -> GameState) (o : outcome) : outcome :=
  obind o (fun st => Done (f st)).

(** [players[i].field] without optional chaining. *)
Definition derefPlayer (snap : GameState) (i : nat) (st : GameState)
    (k : Player -> outcome) : outcome :=
  match players snap !! i with
  | Some p => k p
  | None => TypeError st
  end.

(** The [position] entry of the [options] argument, or the [basePosition]
    argument: [null], absent, or a number. *)
Inductive optnum : Type :=
  | ONull
  | OUndefined
  | ONum (n : jsnum).

(** [arr[i] = v] on a copy: in range it overwrites, past the end the array
    grows and the skipped slots are holes (read back as [NaN] by arithmetic). *)
Definition js_set (l : list jsnum) (i : nat) (v : jsnum) : list jsnum :=
  if decide (i < length l)%nat then <[i := v]> l
  else l ++ replicate (i - length l) NaN ++ [v].

(** ** chanceCards.js *)

Definition chanceCards : list Card :=
  [ mkCard "Advance 3 spaces." (EMove 3);
    mkCard "You found hidden gold while traveling." (EMoney 200);
    mkCard "You receive 20 Gold from each player." (ECollectFromAll 20);
    mkCard "Go to Jail. Do not pass Start." EJail;
    mkCard "Bank error in your favor. Collect 100 Gold." (EMoney 100);
    mkCard "Go back 2 spaces." (EMove (-2));
    mkCard "You treat everyone. Pay 10 Gold to each player." (EPayAll 10);
    mkCard "Property repairs! Pay 25 Gold per house you own." (EPayPerHouse 25);
    mkCard "Your investments paid off." (EMoney 150);
    mkCard "Get Out of Jail Free." EJailFree;
    mkCard "Go directly to Start." (EGoto 0);
    mkCard "Unexpected repairs drained your funds." (EMoney (-150));
    mkCard "Property repairs! Pay 25 Gold per house you own." (EPayPerHouse 25);
    mkCard "Charity donation. Lose 50 Gold." (EMoney (-50));
    mkCard "You paid a city fine." (EMoney (-100)) ].

(** ** GamePage *)

Section Board.

(** The 40-cell board of [boardData.js], indexed by position. *)
Variable boardCells : list Cell.

(** *** Rent *)

(** [Object.entries(ownership).filter(...).length]: the cells of kind [ty]
    that [owner] holds unmortgaged. *)
Definition countOwned (snap : GameState) (owner : nat) (ty : CellType) : nat :=
  size (filter
          (fun kv : nat * nat =>
             kv.2 = owner /\
             cell_type <$> boardCells !! kv.1 = Some ty /\
             isMortgagedIn (mortgaged snap) kv.1 = false)
          (ownership snap)).

(** The [rent] variable of [handleCellAction] after the three type cases;
    [None] is [undefined] (a table read out of range). *)
Definition rentOf (snap : GameState) (cell : Cell) (owner : nat) : option Z :=
  match cell_type cell with
  | property =>
      let houseCount := houseCountIn (houses snap) (cell_id cell) in
      let rentIndex :=
        Z.min houseCount (Z.of_nat (length (cell_rent cell)) - 1) in
      js_index (cell_rent cell) rentIndex
  | railroad =>
      let ownedRails := countOwned snap owner railroad in
      if (0 <? ownedRails)%nat
      then js_index (cell_rent cell) (Z.of_nat ownedRails - 1)
      else Some 0
  | utility =>
      let ownedUtilities := countOwned snap owner utility in
      let diceTotal := (dice snap).1 + (dice snap).2 in
      let multiplier :=
        if (ownedUtilities =? 2)%nat then cell_mult_two cell
        else cell_mult_one cell in
      Some (diceTotal * multiplier)
  | _ => Some 0
  end.

Definition isBuyable (ty : CellType) : bool :=
  match ty with property | railroad | utility => true | _ => false end.

(** *** Chance effects, movement and landing

    [handleCellAction], [applyChance] and [movePlayerTo] call each other;
    the two latter are written over the landing function [hca] they call and
    the knot is tied by fuel in [handleCellAction]. *)

Definition landing : Type := option Cell -> bool -> optnum -> GameState -> outcome.

(** [movePlayerTo(targetPosition, options = { awardStart: true })] *)
Definition movePlayerTo_with (hca : landing) (snap : GameState)
    (targetPosition : jsnum) (awardStart : bool) (st : GameState) : outcome :=
  derefPlayer snap (currentPlayer snap) st (fun p =>
    let currentPos := position p in
    let passedStart := awardStart && jlt targetPosition currentPos in
    let st1 :=
      setPlayers
        (mapPlayer (currentPlayer snap)
           (fun q => withMove targetPosition
                       (money q + (if passedStart then 200 else 0)) q)
           (players st)) st in
    hca (js_index_num boardCells targetPosition)
        (bool_decide (ptype p = ai)) OUndefined st1).

(** The [forEach] of [collectFromAll] ([sign = 1]) and [payAll]
    ([sign = -1]) over the indices [i, i+1, ...] of the snapshot's players. *)
Fixpoint transferAll (snap : GameState) (sign amount : Z) (i n : nat)
    (st : GameState) : GameState :=
  match n with
  | O => st
  | S n' =>
      let st1 :=
        if bool_decide (i <> currentPlayer snap)
           && bool_decide (i ∉ bankruptPlayers snap)
        then updateMoney (currentPlayer snap) (sign * amount)
               (updateMoney i (- (sign * amount)) st)
        else st in
      transferAll snap sign amount (S i) n' st1
  end.

(** [Object.entries(houses).reduce(...)]: houses on the cells the current
    player owns. *)
Definition totalHousesOf (snap : GameState) : Z :=
  map_fold
    (fun (cellId : nat) (count : Z) (sum : Z) =>
       if decide (ownership snap !! cellId = Some (currentPlayer snap))
       then sum + count else sum)
    0 (houses snap).

(** [applyChance(card, basePosition = null)]: the default value stands in
    for an argument that is [undefined] as well as for a missing one, so
    [basePosition !== null] only holds of a number that was passed. *)
Definition applyChance_with (hca : landing) (snap : GameState) (card : Card)
    (basePosition : optnum) (st : GameState) : outcome :=
  derefPlayer snap (currentPlayer snap) st (fun p =>
    let cur := currentPlayer snap in
    match effect card with
    | EMoney amount =>
        Done (setChanceCard None (updateMoney cur amount st))
    | EMove steps =>
        let currentPos :=
          match basePosition with
          | ONull | OUndefined => position p
          | ONum n => n
          end in
        let newPos := jrem (jadd (jadd currentPos steps) 40) 40 in
        omap (setChanceCard None)
          (movePlayerTo_with hca snap newPos true st)
    | EGoto pos =>
        omap (setChanceCard None)
          (movePlayerTo_with hca snap (Num pos) false st)
    | EJail =>
        Done (setHasRolled true (setChanceCard None (sendToJail cur st)))
    | EJailFree =>
        Done (setChanceCard None
                (setPlayers
                   (mapPlayer cur (withJailFreeCard true) (players st)) st))
    | ECollectFromAll amount =>
        Done (setChanceCard None
                (transferAll snap 1 amount 0 (length (players snap)) st))
    | EPayAll amount =>
        Done (setChanceCard None
                (transferAll snap (-1) amount 0 (length (players snap)) st))
    | EPayPerHouse amount =>
        let total := totalHousesOf snap * amount in
        Done (setChanceCard None
                (if 0 <? total then updateMoney cur (- total) st else st))
    end).

(** [handleCellAction(cell, options = { silent: false, position: null })] *)
Fixpoint handleCellAction (fuel : nat) (snap : GameState) (cell : option Cell)
    (silent : bool) (optPosition : optnum) (st : GameState) : outcome :=
  match fuel with
  | O => OutOfFuel
  | S fuel' =>
    match cell with
    | None => Done st
    | Some cell =>
      let cur := currentPlayer snap in
      let owner := ownership snap !! cell_id cell in
      match cell_type cell with
      | goto_jail =>
          let st1 := sendToJail cur st in
          derefPlayer snap cur st1 (fun _ => Done st1)
      | property | railroad | utility =>
          match owner with
          | None => Done (if silent then st else setActiveCell (Some cell) st)
          | Some owner =>
              if isMortgagedIn (mortgaged snap) (cell_id cell) then Done st
              else if decide (owner = cur) then Done st
              else
                match rentOf snap cell owner with
                | Some rent =>
                    if 0 <? rent then
                      let st1 :=
                        updateMoney owner rent (updateMoney cur (- rent) st) in
                      derefPlayer snap cur st1 (fun _ =>
                      derefPlayer snap owner st1 (fun _ => Done st1))
                    else Done st
                | None => Done st
                end
          end
      | chance =>
          let st1 :=
            setChanceIndex
              ((chanceIndex st + 1) mod length chanceCards)%nat st in
          match chanceCards !! chanceIndex snap with
          | Some card =>
              if silent
              then applyChance_with (handleCellAction fuel' snap) snap card
                     optPosition st1
              else Done (setChanceCard (Some card) st1)
          | None =>
              if silent then TypeError st1 else Done (setChanceCard None st1)
          end
      | tax =>
          let st1 := updateMoney cur (- cell_amount cell) st in
          derefPlayer snap cur st1 (fun _ => Done st1)
      | corner => Done st
      end
    end
  end.

Definition applyChance (fuel : nat) (snap : GameState) :=
  applyChance_with (handleCellAction fuel snap) snap.

Definition movePlayerTo (fuel : nat) (snap : GameState) :=
  movePlayerTo_with (handleCellAction fuel snap) snap.

(** *** Dice and movement *)

(** The interval callback of [rollDice], run [n] times: one cell forward,
    note a visit of cell 0, show the token there. *)
Fixpoint walk (n : nat) (who : nat) (currentPos : jsnum) (passedStart : bool)
    (disp : list jsnum) : jsnum * bool * list jsnum :=
  match n with
  | O => (currentPos, passedStart, disp)
  | S n' =>
      let currentPos' := jrem (jadd currentPos 1) 40 in
      walk n' who currentPos' (passedStart || jeqz currentPos' 0)
        (js_set disp who currentPos')
  end.

(** The callback stops once [stepCount >= steps], after at least one run. *)
Definition ticks (steps : Z) : nat := Z.to_nat (Z.max 1 steps).

(** [rollDice()], with the two random draws [d1], [d2] as arguments. *)
Definition rollDice (fuel : nat) (snap : GameState) (d1 d2 : Z)
    (st : GameState) : outcome :=
  let cur := currentPlayer snap in
  let player := players snap !! cur in
  if isAITurn snap then Done st
  else if bool_decide (ptype <$> player = Some ai) then Done st
  else if bool_decide (inJail <$> player = Some true) then Done st
  else if rolling snap || hasRolled snap
          || bool_decide (length (players snap) = 0%nat) then Done st
  else
    let steps := d1 + d2 in
    let st1 := setDice (d1, d2) (setRolling true st) in
    derefPlayer snap cur st1 (fun _ =>
      let start := default NaN (displayPositions snap !! cur) in
      let '(currentPos, passedStart, disp) :=
        walk (ticks steps) cur start false (displayPositions st1) in
      let st2 := setDisplayPositions disp st1 in
      let updatedPlayers :=
        mapPlayer cur
          (fun p => withMove currentPos
                      (money p + (if passedStart then 200 else 0)) p)
          (players snap) in
      let st3 := setPlayers updatedPlayers st2 in
      match js_index_num boardCells currentPos with
      | None => TypeError st3
      | Some landedCell =>
          omap (fun s => setHasRolled true (setRolling false s))
            (handleCellAction fuel snap (Some landedCell) false ONull st3)
      end).

(** *** Buying *)

(** [buyProperty()] *)
Definition buyProperty (snap : GameState) (st : GameState) : outcome :=
  match activeCell snap with
  | None => Done st
  | Some c =>
      let cur := currentPlayer snap in
      derefPlayer snap cur st (fun _ =>
        Done (setActiveCell None
                (updateMoney cur (- cell_price c)
                   (setOwnership (<[cell_id c := cur]> (ownership st)) st))))
  end.

(** [skipProperty()] *)
Definition skipProperty (st : GameState) : GameState := setActiveCell None st.

(** *** Turn order *)

(** [do { next = (next + 1) % n } while (bankrupt.includes(next))], at most
    [fuel] rounds. *)
Fixpoint nextActive (fuel : nat) (n : nat) (bankrupt : list nat) (next : nat)
    : option nat :=
  match fuel with
  | O => None
  | S fuel' =>
      let next' := ((next + 1) mod n)%nat in
      if decide (next' ∈ bankrupt) then nextActive fuel' n bankrupt next'
      else Some next'
  end.

(** [endTurn()] *)
Definition endTurn (fuel : nat) (snap : GameState) (st : GameState) : outcome :=
  if negb (hasRolled snap) then Done st
  else
    derefPlayer snap (currentPlayer snap) st (fun _ =>
      match nextActive fuel (length (players snap)) (bankruptPlayers snap)
              (currentPlayer snap) with
      | None => OutOfFuel
      | Some next => Done (setCurrentPlayer next (setHasRolled false st))
      end).

(** The [Stay in Jail] button. *)
Definition stayInJail (fuel : nat) (snap : GameState) (st : GameState)
    : outcome :=
  let st1 :=
    setPlayers
      (mapPlayer (currentPlayer snap)
         (fun p =>
            let nextTurns := jailTurnsLeft p - 1 in
            withJail (position p) (0 <? nextTurns) nextTurns p)
         (players st)) st in
  endTurn fuel snap (setHasRolled true st1).

(** The [onConfirm] of the bankruptcy dialog. *)
Definition confirmBankruptcy (fuel : nat) (snap : GameState) (st : GameState)
    : outcome :=
  let st1 := setHasRolled false (declareBankruptcy snap (currentPlayer snap) st) in
  match nextActive fuel (length (players snap)) (bankruptPlayers snap)
          (currentPlayer snap) with
  | None => OutOfFuel
  | Some next => Done (setCurrentPlayer next st1)
  end.

(** *** Building and selling houses *)

(** A colour is usable when it is a non-empty string ([!cell.color]). *)
Definition colorTruthy (c : option string) : bool :=
  match c with
  | Some col => negb (bool_decide (col = EmptyString))
  | None => false
  end.

(** [boardCells.filter(c => c.color === cell.color && c.type === "property")] *)
Definition sameColorCells (cell : Cell) : list Cell :=
  filter (fun c => cell_color c = cell_color cell /\ cell_type c = property)
    boardCells.

(** [ownsFullColorSet(cell)] *)
Definition ownsFullColorSet (snap : GameState) (cell : Cell) : bool :=
  if negb (colorTruthy (cell_color cell)) then false
  else
    forallb
      (fun c => bool_decide (ownership snap !! cell_id c = Some (currentPlayer snap)))
      (sameColorCells cell).

(** [Math.min(...counts)] and [Math.max(...counts)]; [None] stands for the
    infinite value returned on an empty list, which no count equals. *)
Definition list_min (l : list Z) : option Z :=
  match l with [] => None | x :: xs => Some (foldr Z.min x xs) end.

Definition list_max (l : list Z) : option Z :=
  match l with [] => None | x :: xs => Some (foldr Z.max x xs) end.

Definition groupCounts (snap : GameState) (cell : Cell) : list Z :=
  map (fun c => houseCountIn (houses snap) (cell_id c)) (sameColorCells cell).

(** [canBuildHere(cell)] *)
Definition canBuildHere (snap : GameState) (cell : Cell) : bool :=
  if negb (ownsFullColorSet snap cell) then false
  else
    match list_min (groupCounts snap cell) with
    | Some min => houseCountIn (houses snap) (cell_id cell) =? min
    | None => false
    end.

(** [canSellHere(cell)] *)
Definition canSellHere (snap : GameState) (cell : Cell) : bool :=
  if negb (ownsFullColorSet snap cell) then false
  else
    match list_max (groupCounts snap cell) with
    | Some max =>
        (houseCountIn (houses snap) (cell_id cell) =? max) && (0 <? max)
    | None => false
    end.

(** The [onBuildHouse] handler given to the asset dialog. *)
Definition onBuildHouse (snap : GameState) (cellId : nat) (st : GameState)
    : outcome :=
  match boardCells !! cellId with
  | None => TypeError st
  | Some cell =>
      if negb (canBuildHere snap cell) then Done st
      else Done (buildHouse snap cellId (currentPlayer snap)
                   (cell_houseCost cell) st)
  end.

(** The [onSellHouse] handler given to the asset dialog. *)
Definition onSellHouse (snap : GameState) (cellId : nat) (st : GameState)
    : outcome :=
  match boardCells !! cellId with
  | None => TypeError st
  | Some cell =>
      if negb (canSellHere snap cell) then Done st
      else Done (sellHouse snap cellId (currentPlayer snap)
                   (cell_houseCost cell / 2) st)
  end.

(** *** The asset dialog (MortgageModal)

    The dialog lists [boardCells[k]] for every ownership entry [k] whose
    owner is [player.id]; players are created with [id] equal to their index
    and the dialog is given [players[currentPlayer]]. *)

(** [ownsFullColorSet(color)] of the dialog, on the key of a colour group. *)
Definition modalFullSet (snap : GameState) (cell : Cell) : bool :=
  let color := default "undefined"%string (cell_color cell) in
  forallb
    (fun c => bool_decide (ownership snap !! cell_id c = Some (currentPlayer snap)))
    (filter (fun c => cell_type c = property /\ cell_color c = Some color)
       boardCells).

(** [Math.floor(cell.mortgage * 1.1)]; on the integers of a board the
    floating-point product floors to the same value as [11 * m / 10]. *)
Definition unmortgageCost (cell : Cell) : Z := (11 * cell_mortgage cell) / 10.

(** The [+ Build] button of entry [k] is rendered and enabled. *)
Definition buildButtonEnabled (snap : GameState) (k : nat) : bool :=
  match players snap !! currentPlayer snap, boardCells !! k with
  | Some player, Some cell =>
      bool_decide (ownership snap !! k = Some (currentPlayer snap))
      && bool_decide (cell_type cell = property)
      && modalFullSet snap cell
      && negb (isMortgagedIn (mortgaged snap) (cell_id cell))
      && negb ((money player <? cell_houseCost cell)
               || (5 <=? houseCountIn (houses snap) (cell_id cell)))
  | _, _ => false
  end.

(** A click on the [+ Build] button of entry [k] (nothing happens when the
    button is absent or disabled). *)
Definition clickBuild (snap : GameState) (k : nat) (st : GameState) : outcome :=
  match boardCells !! k with
  | Some cell =>
      if buildButtonEnabled snap k then onBuildHouse snap (cell_id cell) st
      else Done st
  | None => Done st
  end.

(** The [Unmortgage] button of entry [k] is rendered and enabled. *)
Definition unmortgageButtonEnabled (snap : GameState) (k : nat) : bool :=
  match players snap !! currentPlayer snap, boardCells !! k with
  | Some player, Some cell =>
      bool_decide (ownership snap !! k = Some (currentPlayer snap))
      && isMortgagedIn (mortgaged snap) (cell_id cell)
      && negb (money player <? unmortgageCost cell)
  | _, _ => false
  end.

(** A click on the [Unmortgage] button of entry [k]. *)
Definition clickUnmortgage (snap : GameState) (k : nat) (st : GameState)
    : GameState :=
  match boardCells !! k with
  | Some cell =>
      if unmortgageButtonEnabled snap k
      then unmortgageProperty (cell_id cell) (currentPlayer snap)
             (unmortgageCost cell) st
      else st
  | None => st
  end.

(** *** Trading *)

Definition emptyOffer : Offer := mkOffer [] 0 [] 0.

(** [handleConfirmTrade()] *)
Definition handleConfirmTrade (snap : GameState) (st : GameState) : GameState :=
  match tradeWith snap with
  | None => st
  | Some w =>
      setPendingTrade
        (Some (mkTrade (currentPlayer snap) w (tradeOffer snap))) st
  end.

(** The ownership updater of [applyTrade]: the two [forEach] loops. *)
Definition tradeOwnership (trade : Trade) (prev : gmap nat nat) : gmap nat nat :=
  let updated :=
    foldl (fun m cellId => <[cellId := to trade]> m) prev
      (giveProperties (offer trade)) in
  foldl (fun m cellId => <[cellId := from trade]> m) updated
    (takeProperties (offer trade)).

(** [applyTrade(trade)] *)
Definition applyTrade (trade : Trade) (st : GameState) : GameState :=
  let o := offer trade in
  let st1 := setOwnership (tradeOwnership trade (ownership st)) st in
  let st2 :=
    if 0 <? giveMoney o
    then updateMoney (to trade) (giveMoney o)
           (updateMoney (from trade) (- giveMoney o) st1)
    else st1 in
  let st3 :=
    if 0 <? takeMoney o
    then updateMoney (from trade) (takeMoney o)
           (updateMoney (to trade) (- takeMoney o) st2)
    else st2 in
  setTradeOffer emptyOffer (setTradeWith None (setPendingTrade None st3)).

(** [Accept Trade] in the review dialog: [applyTrade(pendingTrade)]. *)
Definition acceptTrade (snap : GameState) (st : GameState) : GameState :=
  match pendingTrade snap with
  | Some trade => applyTrade trade st
  | None => st
  end.

(** [Reject] in the review dialog: [setPendingTrade(null)]. *)
Definition rejectTrade (st : GameState) : GameState := setPendingTrade None st.

(** *** The executor of an automated player's actions (aiExecutor.js) *)

Inductive Action :=
  | ABuild (cellId : nat)
  | ASell (cellId : nat)
  | AMortgage (cellId : nat)
  | AUnmortgage (cellId : nat)
  | ABuy (cellId : nat)
  | AJailPay
  | AJailUseCard
  | AJailStay
  | AEndTurn
  | AOther.

(** [executeAIAction({ action, currentPlayer, ... })] with the handlers of
    the render that started the automated turn.  An absent
    [cell.mortgageValue] credits [Number(undefined || 0) = 0]; an absent
    [cell.unmortgageCost] makes [p.money >= cost] false, so nothing is
    debited. *)
Definition executeAIAction (fuel : nat) (snap : GameState) (action : Action)
    (st : GameState) : outcome :=
  let cur := currentPlayer snap in
  match action with
  | ABuild cellId =>
      match boardCells !! cellId with
      | None => TypeError st
      | Some cell => Done (buildHouse snap cellId cur (cell_houseCost cell) st)
      end
  | ASell cellId =>
      match boardCells !! cellId with
      | None => TypeError st
      | Some cell => Done (sellHouse snap cellId cur (cell_houseCost cell / 2) st)
      end
  | AMortgage cellId =>
      match boardCells !! cellId with
      | None => TypeError st
      | Some cell =>
          Done (mortgageProperty snap cellId cur
                  (default 0 (cell_mortgageValue cell)) st)
      end
  | AUnmortgage cellId =>
      match boardCells !! cellId with
      | None => TypeError st
      | Some cell =>
          match cell_unmortgageCost cell with
          | Some cost => Done (unmortgageProperty cellId cur cost st)
          | None => Done (setMortgaged (<[cellId := false]> (mortgaged st)) st)
          end
      end
  | ABuy cellId =>
      let st1 := setOwnership (<[cellId := cur]> (ownership st)) st in
      match boardCells !! cellId with
      | None => TypeError st1
      | Some cell => Done (updateMoney cur (- cell_price cell) st1)
      end
  | AJailPay => Done (releaseFromJail cur (updateMoney cur (-100) st))
  | AJailUseCard => Done (releaseFromJail cur st)
  | AJailStay => Done (decrementJailTurn cur st)
  | AEndTurn => endTurn fuel snap st
  | AOther => Done st
  end.

(** *** The automated player's roll and turn *)

Definition setIsAITurn (v : bool) (s : GameState) : GameState :=
  mkState (players s) (currentPlayer s) (ownership s) (mortgaged s) (houses s)
    (bankruptPlayers s) (dice s) (rolling s) (hasRolled s)
    (displayPositions s) (activeCell s) (pendingTrade s) (tradeWith s)
    (tradeOffer s) (chanceIndex s) (chanceCard s) v.

(** [rollDiceFromBackend(d1, d2)]: no guard (the jail test is commented
    out), the walk starts from the player's position of the snapshot, the
    players are updated on their queued value and landing is [silent]. *)
Definition rollDiceFromBackend (fuel : nat) (snap : GameState) (d1 d2 : Z)
    (st : GameState) : outcome :=
  let cur := currentPlayer snap in
  let st1 := setDice (d1, d2) (setRolling true st) in
  derefPlayer snap cur st1 (fun p =>
    let steps := d1 + d2 in
    let '(currentPos, passedStart, disp) :=
      walk (ticks steps) cur (position p) false (displayPositions st1) in
    let st2 := setDisplayPositions disp st1 in
    let st3 :=
      setPlayers
        (mapPlayer cur
           (fun q => withMove currentPos
                       (money q + (if passedStart then 200 else 0)) q)
           (players st2)) st2 in
    match js_index_num boardCells currentPos with
    | None => TypeError st3
    | Some landedCell =>
        omap (fun s => setHasRolled true (setRolling false s))
          (handleCellAction fuel snap (Some landedCell) true
             (ONum currentPos) st3)
    end).

(** The decision payload of the automated player's service. *)
Record AIResponse := mkResponse {
  preRollActions : list Action;
  roll : option (Z * Z);
  postRollActions : list Action
}.

(** [for (const action of actions) await executeAIAction(...)]: every
    action runs with the handlers of the same render; a throw leaves the
    loop. *)
Fixpoint runActions (fuel : nat) (snap : GameState) (actions : list Action)
    (st : GameState) : outcome :=
  match actions with
  | [] => Done st
  | action :: rest =>
      obind (executeAIAction fuel snap action st) (runActions fuel snap rest)
  end.

(** The [catch] and the final [setIsAITurn(false)] of [runAITurn]. *)
Definition endAITurn (o : outcome) : outcome :=
  match o with
  | Done st => Done (setIsAITurn false st)
  | TypeError st => Done (setIsAITurn false st)
  | OutOfFuel => OutOfFuel
  end.

(** [runAITurn()], with the service's answer as an argument.  A throw in an
    action or at the start of the roll is caught; a throw in the timer
    callback of the roll is not, and the awaited promise is then never
    resolved: the function does not come back ([TypeError]). *)
Definition runAITurn (fuel : nat) (snap : GameState) (resp : AIResponse)
    (st : GameState) : outcome :=
  if isAITurn snap then Done st
  else
    let st0 := setIsAITurn true st in
    match runActions fuel snap (preRollActions resp) st0 with
    | Done st1 =>
        match roll resp with
        | None => endAITurn (runActions fuel snap (postRollActions resp) st1)
        | Some (d1, d2) =>
            match players snap !! currentPlayer snap,
                  rollDiceFromBackend fuel snap d1 d2 st1 with
            | _, Done st2 =>
                endAITurn (runActions fuel snap (postRollActions resp) st2)
            | None, TypeError st2 => Done (setIsAITurn false st2)
            | Some _, TypeError st2 => TypeError st2
            | _, OutOfFuel => OutOfFuel
            end
        end
    | TypeError st1 => Done (setIsAITurn false st1)
    | OutOfFuel => OutOfFuel
    end.

(** *** The jail panel of a human player *)

(** The panel is rendered for a jailed player who is not automated. *)
Definition jailPanelShown (p : Player) : bool :=
  inJail p && negb (bool_decide (ptype p = ai)).

(** The [Pay 100 Gold] button, disabled below 100. *)
Definition payBail (snap : GameState) (st : GameState) : GameState :=
  let cur := currentPlayer snap in
  match players snap !! cur with
  | Some p =>
      if jailPanelShown p && (100 <=? money p)
      then releaseFromJail cur (updateMoney cur (-100) st)
      else st
  | None => st
  end.

(** The [Use Jail-Free Card] button, disabled without a card. *)
Definition useJailFreeCard (snap : GameState) (st : GameState) : GameState :=
  let cur := currentPlayer snap in
  match players snap !! cur with
  | Some p =>
      if jailPanelShown p && jailFreeCard p
      then setPlayers
             (mapPlayer cur (withJailFreeCard false)
                (players (releaseFromJail cur st)))
             (releaseFromJail cur st)
      else st
  | None => st
  end.

(** *** The winner *)

(** [players.map((_, idx) => idx).filter(idx => !bankruptPlayers.includes(idx))] *)
Definition activePlayerIndexes (s : GameState) : list nat :=
  filter (fun idx => idx ∉ bankruptPlayers s) (seq 0 (length (players s))).

(** [winner]: the player left when exactly one is not bankrupt. *)
Definition winner (s : GameState) : option Player :=
  match activePlayerIndexes s with
  | [idx] => players s !! idx
  | _ => None
  end.

(** *** Mortgaging through the asset dialog *)

(** The [Mortgage] button of entry [k] is rendered and enabled: the cell is
    not mortgaged and, for a street, carries no house. *)
Definition mortgageButtonEnabled (snap : GameState) (k : nat) : bool :=
  match players snap !! currentPlayer snap, boardCells !! k with
  | Some player, Some cell =>
      bool_decide (ownership snap !! k = Some (currentPlayer snap))
      && negb (isMortgagedIn (mortgaged snap) (cell_id cell))
      && negb (bool_decide (cell_type cell = property)
               && (0 <? houseCountIn (houses snap) (cell_id cell)))
  | _, _ => false
  end.

(** A click on the [Mortgage] button of entry [k]. *)
Definition clickMortgage (snap : GameState) (k : nat) (st : GameState)
    : GameState :=
  match boardCells !! k with
  | Some cell =>
      if mortgageButtonEnabled snap k
      then mortgageProperty snap (cell_id cell) (currentPlayer snap)
             (cell_mortgage cell) st
      else st
  | None => st
  end.

(** *** The trade dialog (TradeModal) *)

(** [toggle(list, id)] *)
Definition toggle (l : list nat) (id : nat) : list nat :=
  if decide (id ∈ l) then filter (fun x => x <> id) l else l ++ [id].

(** [isTradable(cell, ownerIndex)] *)
Definition isTradable (snap : GameState) (cell : Cell) (ownerIndex : nat)
    : bool :=
  bool_decide (ownership snap !! cell_id cell = Some ownerIndex)
  && negb (isMortgagedIn (mortgaged snap) (cell_id cell))
  && negb (bool_decide (cell_type cell = property)
           && (0 <? houseCountIn (houses snap) (cell_id cell))).

(** [myCells] and [theirCells] *)
Definition myCells (snap : GameState) : list Cell :=
  filter (fun cell => isTradable snap cell (currentPlayer snap) = true)
    boardCells.

Definition theirCells (snap : GameState) : list Cell :=
  match tradeWith snap with
  | None => []
  | Some w => filter (fun cell => isTradable snap cell w = true) boardCells
  end.

(** A click on a cell of the [You Give] column: [toggleGive(cell.id)]. *)
Definition clickGive (snap : GameState) (cell : Cell) (st : GameState)
    : GameState :=
  if decide (cell ∈ myCells snap) then
    let o := tradeOffer st in
    setTradeOffer
      (mkOffer (toggle (giveProperties o) (cell_id cell)) (giveMoney o)
         (takeProperties o) (takeMoney o)) st
  else st.

(** A click on a cell of the [You Get] column: [toggleTake(cell.id)]. *)
Definition clickTake (snap : GameState) (cell : Cell) (st : GameState)
    : GameState :=
  if decide (cell ∈ theirCells snap) then
    let o := tradeOffer st in
    setTradeOffer
      (mkOffer (giveProperties o) (giveMoney o)
         (toggle (takeProperties o) (cell_id cell)) (takeMoney o)) st
  else st.

(** [isValidTrade]: each side can afford its cash leg and the offer is not
    empty. *)
Definition isValidTrade (snap : GameState) : bool :=
  let o := tradeOffer snap in
  let myMoney :=
    match players snap !! currentPlayer snap with
    | Some p => money p | None => 0 end in
  let theirMoney :=
    match tradeWith snap with
    | Some w => match players snap !! w with Some p => money p | None => 0 end
    | None => 0
    end in
  let canGiveMoney := (giveMoney o =? 0) || (giveMoney o <=? myMoney) in
  let canTakeMoney := (takeMoney o =? 0) || (takeMoney o <=? theirMoney) in
  canGiveMoney && canTakeMoney
  && (negb (bool_decide (giveProperties o = []))
      || negb (bool_decide (takeProperties o = []))
      || (0 <? giveMoney o) || (0 <? takeMoney o)).

(** A click on [Propose Trade], rendered once a partner is chosen and
    disabled unless the offer is valid. *)
Definition clickPropose (snap : GameState) (st : GameState) : GameState :=
  match tradeWith snap with
  | Some _ => if isValidTrade snap then handleConfirmTrade snap st else st
  | None => st
  end.

End Board.

(** ** Concrete boards and states

    A 40-cell board on which the engine is run on concrete inputs: two
    streets of one colour, three of another, a tax, a railroad, a utility, a
    chance cell and the cell that sends to jail.  Cell [i] sits at index
    [i]. *)

Definition street (i : nat) (col : string) (p hc m : Z) (r : list Z) : Cell :=
  mkCell i property (Some col) p r 0 0 hc m 0 None None.

Definition plainCell (i : nat) (ty : CellType) : Cell :=
  mkCell i ty None 0 [] 0 0 0 0 0 None None.

Definition sampleCell (i : nat) : Cell :=
  match i with
  | 1%nat => street 1 "brown" 60 50 30 [2; 10; 30; 90; 160; 250]
  | 3%nat => street 3 "brown" 60 50 30 [4; 20; 60; 180; 320; 450]
  | 4%nat => mkCell 4 tax None 0 [] 0 0 0 0 200 None None
  | 5%nat => mkCell 5 railroad None 200 [25; 50; 100; 200] 0 0 0 100 0 None None
  | 6%nat => street 6 "lightblue" 100 50 50 [6; 30; 90; 270; 400; 550]
  | 7%nat => plainCell 7 chance
  | 8%nat => street 8 "lightblue" 100 50 50 [6; 30; 90; 270; 400; 550]
  | 9%nat => street 9 "lightblue" 120 50 60 [8; 40; 100; 300; 450; 600]
  | 12%nat => mkCell 12 utility None 150 [] 4 10 0 75 0 None None
  | 30%nat => plainCell 30 goto_jail
  | _ => plainCell i corner
  end.

Definition sampleBoard : list Cell := map sampleCell (seq 0 40).

Definition newPlayer (n : string) (ty : PlayerType) (cash : Z) (pos : Z) : Player :=
  mkPlayer n ty cash (Num pos) false 0 false.

(** A state right after a render: nothing rolled, nothing pending. *)
Definition freshState (ps : list Player) (cur : nat) (own : gmap nat nat)
    (mort : gmap nat bool) (hs : gmap nat Z) : GameState :=
  mkState ps cur own mort hs [] (1, 1) false false (map position ps)
    None None None emptyOffer 0 None false.

Definition twoPlayers (cash0 cash1 : Z) : list Player :=
  [newPlayer "Ann" human cash0 0; newPlayer "Bob" human cash1 0].

(** The cash of player [i], when there is such a player. *)
Definition cashOf (st : GameState) (i : nat) : option Z :=
  money <$> players st !! i.

(** Ann owns cell 1, which carries no house. *)
Definition stateNoHouse : GameState :=
  freshState (twoPlayers 500 500) 0 {[ 1%nat := 0%nat ]} ∅ ∅.

(** Ann, with 120 in cash, owns cells 1 (mortgaged) and 3 (two houses); Bob
    owns cell 5. *)
Definition stateBeforeBankruptcy : GameState :=
  freshState (twoPlayers 120 700) 0
    {[ 1%nat := 0%nat; 3%nat := 0%nat; 5%nat := 1%nat ]}
    {[ 1%nat := true ]} {[ 3%nat := 2 ]}.

(** Ann has 50 in cash and cell 5 is mortgaged; lifting the mortgage of 100
    costs 110. *)
Definition stateShortOfCash : GameState :=
  freshState (twoPlayers 50 700) 0 {[ 5%nat := 0%nat ]} {[ 5%nat := true ]} ∅.

(** Ann, with 100 in cash, has a pending offer to Bob: cell 1 and 300 in
    cash against cell 5.  Ann does not own cell 1 (the bank does) and cannot
    pay 300; Bob owns cell 5. *)
Definition staleTrade : Trade := mkTrade 0 1 (mkOffer [1%nat] 300 [5%nat] 0).

Definition stateStaleTrade : GameState :=
  setPendingTrade (Some staleTrade)
    (freshState (twoPlayers 100 500) 0 {[ 5%nat := 1%nat ]} ∅ ∅).

(** Ann, with 50 in cash, stands on the unowned cell 1 (price 60) and is
    asked whether to buy it. *)
Definition stateCannotAfford : GameState :=
  setActiveCell (Some (sampleCell 1))
    (setHasRolled true (freshState (twoPlayers 50 500) 0 ∅ ∅ ∅)).

(** Ann stands on cell 35 with 1500 in cash and is about to roll. *)
Definition stateAtCell35 : GameState :=
  freshState
    [newPlayer "Ann" human 1500 35; newPlayer "Bob" human 1500 0] 0 ∅ ∅ ∅.

(** Bob stands on cell 1, a street of Ann's with the rent table
    [2; 10; 30; 90; 160; 250] and no house; Ann also owns cell 3, the other
    street of that colour. *)
Definition stateOnAnnsStreet : GameState :=
  freshState
    [newPlayer "Ann" human 1500 0; newPlayer "Bob" human 1500 1] 1
    {[ 1%nat := 0%nat; 3%nat := 0%nat ]} ∅ ∅.

(** Ann stands on cell 4 and has drawn the card that sends her back two
    cells. *)
Definition goBackTwo : Card := mkCard "Go back 2 spaces." (EMove (-2)).

Definition stateDrewGoBack : GameState :=
  setChanceCard (Some goBackTwo)
    (setHasRolled true
       (freshState
          [newPlayer "Ann" human 1500 4; newPlayer "Bob" human 1500 0]
          0 ∅ ∅ ∅)).

(** Ann has rolled, Bob (next in the roster) is bankrupt, Cid is not, and an
    offer from Ann to Cid is still pending. *)
Definition offerToCid : Trade := mkTrade 0 2 (mkOffer [] 50 [] 0).

Definition stateEndOfTurn : GameState :=
  setPendingTrade (Some offerToCid)
    (setHasRolled true
       (setBankruptPlayers [1%nat]
          (freshState
             [newPlayer "Ann" human 900 12; newPlayer "Bob" human 0 0;
              newPlayer "Cid" human 800 24] 0 ∅ ∅ ∅))).

(** The automated player Bot, whose turn it is, owns cell 6 only, one of the
    three streets of its colour, and that cell is mortgaged. *)
Definition stateBotPartialSet : GameState :=
  freshState
    [newPlayer "Ann" human 1500 0; newPlayer "Bot" ai 1500 0] 1
    {[ 6%nat := 1%nat ]} {[ 6%nat := true ]} ∅.

(** Ann owns the three streets 6, 8 and 9 of one colour, with house counts
    1, 1 and 0. *)
Definition stateUnevenGroup : GameState :=
  freshState (twoPlayers 1500 1500) 0
    {[ 6%nat := 0%nat; 8%nat := 0%nat; 9%nat := 0%nat ]} ∅
    {[ 6%nat := 1; 8%nat := 1 ]}.

(** Every owner recorded in the ownership map is a player of the roster. *)
Definition ownersValid (s : GameState) : Prop :=
  map_Forall (fun (_ : nat) (o : nat) => (o < length (players s))%nat)
    (ownership s).

(** Ann owns both streets of a colour, cell 1 being mortgaged. *)
Definition stateMortgagedStreet : GameState :=
  freshState (twoPlayers 1500 1500) 0
    {[ 1%nat := 0%nat; 3%nat := 0%nat ]} {[ 1%nat := true ]} ∅.

(** ** Measures used to state the properties *)

(** The cash held by all players together. *)
Definition totalCash (st : GameState) : Z :=
  foldr (fun p acc => money p + acc) 0 (players st).

(** The house count of every cell lies between 0 and 5. *)
Definition housesInRange (st : GameState) : Prop :=
  forall c, 0 <= houseCountIn (houses st) c <= 5.

(** What an outcome left behind satisfies [R] against the state it started
    from, whether the handler ended or threw. *)
Definition leaves (R : GameState -> GameState -> Prop) (st : GameState)
    (o : outcome) : Prop :=
  match o with
  | Done st' => R st st'
  | TypeError st' => R st st'
  | OutOfFuel => True
  end.

(** The bank's books and the turn: what only commands on assets and the end
    of a turn may change. *)
Definition sameBooks (st st' : GameState) : Prop :=
  ownership st' = ownership st
  /\ mortgaged st' = mortgaged st
  /\ houses st' = houses st
  /\ bankruptPlayers st' = bankruptPlayers st
  /\ currentPlayer st' = currentPlayer st
  /\ length (players st') = length (players st).

(** The players other than the active one who are not bankrupt, among the
    roster indices [i, i + n). *)
Definition solventOthers (s : GameState) (i n : nat) : list nat :=
  filter (fun j => j <> currentPlayer s /\ j ∉ bankruptPlayers s) (seq i n).

(** Cards and states used to run the properties. *)
Definition collectCard : Card :=
  mkCard "You receive 20 Gold from each player." (ECollectFromAll 20).

Definition payCard : Card :=
  mkCard "You treat everyone. Pay 10 Gold to each player." (EPayAll 10).


(** Ann stands on cell 24, six cells before the cell that sends to jail. *)
Definition stateAtCell24 : GameState :=
  freshState
    [newPlayer "Ann" human 1500 24; newPlayer "Bob" human 1500 0] 0 ∅ ∅ ∅.

(** Ann stands on cell 10; Bob owns the utility (cell 12) and the railroad
    (cell 5); the dice of the previous roll show 6 and 6. *)
Definition stateBeforeUtility : GameState :=
  setDice (6, 6)
    (freshState
       [newPlayer "Ann" human 1500 10; newPlayer "Bob" human 1500 0] 0
       {[ 12%nat := 1%nat; 5%nat := 1%nat ]} ∅ ∅).

(** [n] landings of human players on a chance cell, each one on the render
    that follows the previous one. *)
Fixpoint drawsHuman (boardCells : list Cell) (n : nat) (cell : Cell)
    (s : GameState) : outcome :=
  match n with
  | O => Done s
  | S n' =>
      obind (drawsHuman boardCells n' cell s)
        (fun s' => handleCellAction boardCells 1 s' (Some cell) false ONull s')
  end.

(** The even-build rule on the colour group of [cell]: no street of the
    group carries more than one house above another. *)
Definition evenGroup (boardCells : list Cell) (st : GameState) (cell : Cell)
    : Prop :=
  forall c1 c2,
    c1 ∈ sameColorCells boardCells cell ->
    c2 ∈ sameColorCells boardCells cell ->
    houseCountIn (houses st) (cell_id c1)
    <= houseCountIn (houses st) (cell_id c2) + 1.

(** Ann owns the two streets of a colour, with one house on each. *)
Definition stateEvenGroup : GameState :=
  freshState (twoPlayers 1500 1500) 0
    {[ 1%nat := 0%nat; 3%nat := 0%nat ]} ∅ {[ 1%nat := 1; 3%nat := 1 ]}.

(** Ann owns the railroad (cell 5), unmortgaged, and holds 700. *)
Definition stateOwnsRailroad : GameState :=
  freshState (twoPlayers 700 700) 0 {[ 5%nat := 0%nat ]} ∅ ∅.

(** Ann and Cid are the two players left; it is Ann's turn. *)
Definition stateTwoLeft : GameState :=
  setBankruptPlayers [1%nat]
    (freshState
       [newPlayer "Ann" human (-40) 12; newPlayer "Bob" human 0 0;
        newPlayer "Cid" human 800 24] 0 {[ 1%nat := 0%nat ]} ∅ ∅).

(** The active player is the same. *)
Definition sameTurn (st st' : GameState) : Prop :=
  currentPlayer st' = currentPlayer st.

(** Ann has composed an offer to Bob in the trade dialog: cell 1 and 200
    against cell 5 and 50. *)
Definition stateComposedOffer : GameState :=
  setTradeOffer (mkOffer [1%nat] 200 [5%nat] 50)
    (setTradeWith (Some 1%nat)
       (freshState (twoPlayers 300 100) 0
          {[ 1%nat := 0%nat; 5%nat := 1%nat ]} ∅ ∅)).

(** Bot, an automated player in jail with one turn left and no card, starts
    its turn on cell 10. *)
Definition stateBotInJail : GameState :=
  freshState
    [newPlayer "Ann" human 1500 0;
     mkPlayer "Bot" ai 40 (Num 10) true 1 false] 1 ∅ ∅ ∅.

(** Ann, a human player in jail with one turn left, 40 in cash and a card. *)
Definition stateAnnInJail : GameState :=
  freshState
    [mkPlayer "Ann" human 40 (Num 10) true 1 true;
     newPlayer "Bob" human 1500 0] 0 ∅ ∅ ∅.

(** The states reached in the trade dialog from an empty selection with the
    partner [w] chosen: clicks on the cells shown in the two columns and
    edits of the two amounts, each on the render that follows the previous
    one. *)
Inductive composing (boardCells : list Cell) (w : nat) : GameState -> Prop :=
  | composing_start (s : GameState) :
      tradeWith s = Some w ->
      giveProperties (tradeOffer s) = [] ->
      takeProperties (tradeOffer s) = [] ->
      composing boardCells w s
  | composing_give (s : GameState) (cell : Cell) :
      composing boardCells w s ->
      composing boardCells w (clickGive boardCells s cell s)
  | composing_take (s : GameState) (cell : Cell) :
      composing boardCells w s ->
      composing boardCells w (clickTake boardCells s cell s)
  | composing_money (s : GameState) (g t : Z) :
      composing boardCells w s ->
      composing boardCells w
        (setTradeOffer
           (mkOffer (giveProperties (tradeOffer s)) g
              (takeProperties (tradeOffer s)) t) s).

(** Ann opens the trade dialog with Bob chosen and nothing selected. *)
Definition stateDialogOpen : GameState :=
  setTradeWith (Some 1%nat)
    (freshState (twoPlayers 300 100) 0
       {[ 1%nat := 0%nat; 5%nat := 1%nat ]} ∅ ∅).



(** What landing resolution takes from the active player on [cell]: the
    amount of a tax cell, the rent of a cell that another player holds
    unmortgaged when that rent is positive, nothing otherwise. *)
Definition landingCharge (boardCells : list Cell) (snap : GameState)
    (cell : Cell) : Z :=
  match cell_type cell with
  | tax => cell_amount cell
  | property | railroad | utility =>
      match ownership snap !! cell_id cell with
      | Some owner =>
          if isMortgagedIn (mortgaged snap) (cell_id cell) then 0
          else if decide (owner = currentPlayer snap) then 0
          else match rentOf boardCells snap cell owner with
               | Some rent => Z.max 0 rent
               | None => 0
               end
      | None => 0
      end
  | _ => 0
  end.

(** Bob stands on cell 1, a street of Ann's with the rent table
    [2; 10; 30; 90; 160; 250] that carries two houses. *)
Definition stateOnAnnsHouses : GameState :=
  freshState
    [newPlayer "Ann" human 1500 0; newPlayer "Bob" human 1500 1] 1
    {[ 1%nat := 0%nat; 3%nat := 0%nat ]} ∅ {[ 1%nat := 2; 3%nat := 2 ]}.

(** The automated player Bot starts its turn on cell 0 with 1500 in cash;
    the card under the cursor is the one that sends back two cells. *)
Definition stateBotAtStart : GameState :=
  setChanceIndex 5
    (freshState
       [newPlayer "Ann" human 1500 0; newPlayer "Bot" ai 1500 0] 1 ∅ ∅ ∅).

(** The sample board with a second chance cell, on cell 10. *)
Definition twoChanceBoard : list Cell :=
  map (fun i => if decide (i = 10%nat) then plainCell 10 chance
                else sampleCell i) (seq 0 40).

(** Bot starts its turn on cell 5; the card under the cursor advances three
    cells. *)
Definition stateBotAtCell5 : GameState :=
  freshState
    [newPlayer "Ann" human 1500 0; newPlayer "Bot" ai 1500 5] 1 ∅ ∅ ∅.

(** * Properties *)

(** ** Facts about the context provider *)

Lemma lookup_mapPlayer (who : nat) (f : Player -> Player) (l : list Player)
    (i : nat) :
  mapPlayer who f l !! i
  = (fun p => if decide (i = who) then f p else p) <$> l !! i.
Proof. unfold mapPlayer. by rewrite list_lookup_imap. Qed.

Lemma length_mapPlayer (who : nat) (f : Player -> Player) (l : list Player) :
  length (mapPlayer who f l) = length l.
Proof. unfold mapPlayer. by rewrite length_imap. Qed.

Lemma lookup_mapPlayer_eq (who : nat) (f : Player -> Player)
    (l : list Player) (p : Player) :
  l !! who = Some p -> mapPlayer who f l !! who = Some (f p).
Proof.
  intros H. rewrite lookup_mapPlayer, H. simpl.
  destruct (decide (who = who)); congruence.
Qed.

Lemma lookup_mapPlayer_ne (who i : nat) (f : Player -> Player)
    (l : list Player) :
  i <> who -> mapPlayer who f l !! i = l !! i.
Proof.
  intros H. rewrite lookup_mapPlayer.
  destruct (l !! i); simpl; [|done].
  destruct (decide (i = who)); congruence.
Qed.

Lemma cashOf_updateMoney_eq (st : GameState) (i : nat) (a c : Z) :
  cashOf st i = Some c -> cashOf (updateMoney i a st) i = Some (c + a).
Proof.
  unfold cashOf, updateMoney. simpl. intros H.
  destruct (players st !! i) as [p|] eqn:E; [|done].
  rewrite (lookup_mapPlayer_eq _ _ _ _ E). simpl in *. congruence.
Qed.

Lemma cashOf_updateMoney_ne (st : GameState) (i j : nat) (a : Z) :
  j <> i -> cashOf (updateMoney i a st) j = cashOf st j.
Proof.
  intros H. unfold cashOf, updateMoney. simpl.
  by rewrite lookup_mapPlayer_ne.
Qed.

(** *** Selling a house *)

(** C10. [sellHouse(cellId, playerId, refund)] called for a cell that
    [playerId] owns and that carries no house leaves the house map as it is
    and still credits [refund] to the player: the credit depends on ownership
    only, not on a house being removed. *)
Theorem sellHouse_without_house_still_credits
    (snap st : GameState) (cellId playerId : nat) (refund cash : Z) :
  ownership snap !! cellId = Some playerId ->
  houseCountIn (houses st) cellId = 0 ->
  cashOf st playerId = Some cash ->
  houses (sellHouse snap cellId playerId refund st) = houses st
  /\ cashOf (sellHouse snap cellId playerId refund st) playerId
     = Some (cash + refund)
  /\ sellHouse snap cellId playerId refund st = updateMoney playerId refund st.
Proof.
  intros Hown Hcount Hcash. unfold sellHouse.
  destruct (decide (ownership snap !! cellId = Some playerId)); [|done].
  rewrite Hcount. simpl.
  split; [done|]. split; [|done].
  by apply cashOf_updateMoney_eq.
Qed.

Lemma sellHouse_without_house_still_credits_witness :
  houses (sellHouse stateNoHouse 1 0 25 stateNoHouse) = houses stateNoHouse
  /\ cashOf (sellHouse stateNoHouse 1 0 25 stateNoHouse) 0 = Some (500 + 25)
  /\ sellHouse stateNoHouse 1 0 25 stateNoHouse
     = updateMoney 0 25 stateNoHouse.
Proof.
  apply (sellHouse_without_house_still_credits stateNoHouse stateNoHouse
           1 0 25 500); reflexivity.
Defined.

(** *** Selling through the two callers of [sellHouse] *)

(** The executor passes half the house cost, rounded down, and no guard. *)
Lemma executeAIAction_sell_passes_half_cost
    (boardCells : list Cell) (fuel : nat) (s : GameState) (cellId : nat)
    (cell : Cell) :
  boardCells !! cellId = Some cell ->
  executeAIAction boardCells fuel s (ASell cellId) s
  = Done (sellHouse s cellId (currentPlayer s) (cell_houseCost cell / 2) s).
Proof. intros H. unfold executeAIAction. by rewrite H. Qed.

(** The asset dialog's handler never reaches [sellHouse] for a cell without
    a house: [canSellHere] wants the cell at a positive group maximum. *)
Lemma onSellHouse_without_house
    (boardCells : list Cell) (s : GameState) (cellId : nat) (cell : Cell) :
  boardCells !! cellId = Some cell ->
  houseCountIn (houses s) (cell_id cell) = 0 ->
  onSellHouse boardCells s cellId s = Done s.
Proof.
  intros Hcell Hcount. unfold onSellHouse. rewrite Hcell.
  assert (Hcan : canSellHere boardCells s cell = false).
  { unfold canSellHere. rewrite Hcount.
    destruct (ownsFullColorSet boardCells s cell); cbn [negb]; [|done].
    destruct (list_max (groupCounts boardCells s cell)) as [m|]; [|done].
    apply andb_false_iff.
    destruct (decide (m = 0)) as [->|Hm]; [by right|].
    left. apply Z.eqb_neq. congruence. }
  by rewrite Hcan.
Qed.

(** *** Bankruptcy *)

Lemma declareBankruptcy_ownership (snap st : GameState) (p c : nat) :
  ownership (declareBankruptcy snap p st) !! c
  = (if decide (ownership st !! c = Some p) then None else ownership st !! c).
Proof.
  unfold declareBankruptcy. simpl.
  destruct (ownership st !! c) as [o|] eqn:E.
  - destruct (decide (Some o = Some p)) as [Heq|Hne].
    + apply map_lookup_filter_None. right. intros x Hx. simpl.
      rewrite E in Hx. congruence.
    + apply map_lookup_filter_Some. split; [done|]. simpl. congruence.
  - destruct (decide (None = Some p)); [done|].
    apply map_lookup_filter_None. by left.
Qed.

Lemma declareBankruptcy_mortgaged (snap st : GameState) (p c : nat) :
  mortgaged (declareBankruptcy snap p st) !! c
  = (if decide (ownership snap !! c = Some p) then None else mortgaged st !! c).
Proof.
  unfold declareBankruptcy. simpl.
  destruct (decide (ownership snap !! c = Some p)) as [Heq|Hne].
  - apply map_lookup_filter_None. right. intros x _. simpl. tauto.
  - destruct (mortgaged st !! c) as [b|] eqn:E.
    + apply map_lookup_filter_Some. by split.
    + apply map_lookup_filter_None. by left.
Qed.

Lemma declareBankruptcy_houses (snap st : GameState) (p c : nat) :
  houses (declareBankruptcy snap p st) !! c
  = (if decide (ownership snap !! c = Some p) then None else houses st !! c).
Proof.
  unfold declareBankruptcy. simpl.
  destruct (decide (ownership snap !! c = Some p)) as [Heq|Hne].
  - apply map_lookup_filter_None. right. intros x _. simpl. tauto.
  - destruct (houses st !! c) as [b|] eqn:E.
    + apply map_lookup_filter_Some. by split.
    + apply map_lookup_filter_None. by left.
Qed.

(** C3, as amended.  After [declareBankruptcy(p)] no cell maps to [p] in the
    ownership map, every cell [p] owned has left the mortgage map and the
    house map, the entries of the other cells are kept, and [p] is in the
    list of bankrupt players; the players' records, and so [p]'s cash, are
    left as they were. *)
Theorem declareBankruptcy_returns_assets (s : GameState) (p : nat) :
  let s' := declareBankruptcy s p s in
  (forall c, ownership s' !! c <> Some p)
  /\ (forall c, ownership s !! c = Some p ->
        mortgaged s' !! c = None /\ houses s' !! c = None)
  /\ (forall c, ownership s !! c <> Some p ->
        ownership s' !! c = ownership s !! c
        /\ mortgaged s' !! c = mortgaged s !! c
        /\ houses s' !! c = houses s !! c)
  /\ p ∈ bankruptPlayers s'
  /\ players s' = players s.
Proof.
  intros s'. subst s'. repeat split.
  - intros c. rewrite declareBankruptcy_ownership.
    destruct (decide (ownership s !! c = Some p)); congruence.
  - rewrite declareBankruptcy_mortgaged. by destruct (decide _).
  - rewrite declareBankruptcy_houses. by destruct (decide _).
  - rewrite declareBankruptcy_ownership. by destruct (decide _).
  - rewrite declareBankruptcy_mortgaged. by destruct (decide _).
  - rewrite declareBankruptcy_houses. by destruct (decide _).
  - unfold declareBankruptcy. simpl.
    destruct (decide (p ∈ bankruptPlayers s)); [done|].
    apply elem_of_app. right. by apply list_elem_of_singleton.
Qed.

(** The bankruptcy theorem on a concrete state: Ann's cells 1 and 3 return
    to the bank with their mortgage and houses, Bob's cell 5 stays his. *)
Lemma declareBankruptcy_returns_assets_witness :
  let s := stateBeforeBankruptcy in
  let s' := declareBankruptcy s 0 s in
  (forall c, ownership s' !! c <> Some 0%nat)
  /\ (forall c, ownership s !! c = Some 0%nat ->
        mortgaged s' !! c = None /\ houses s' !! c = None)
  /\ (forall c, ownership s !! c <> Some 0%nat ->
        ownership s' !! c = ownership s !! c
        /\ mortgaged s' !! c = mortgaged s !! c
        /\ houses s' !! c = houses s !! c)
  /\ 0%nat ∈ bankruptPlayers s'
  /\ players s' = players s.
Proof. exact (declareBankruptcy_returns_assets stateBeforeBankruptcy 0). Defined.

(** C3 as stated fails: Ann goes bankrupt with 120 in cash and still has 120
    afterwards, not 0. *)
Lemma declareBankruptcy_cash_counterexample :
  let s' := declareBankruptcy stateBeforeBankruptcy 0 stateBeforeBankruptcy in
  ~ ((forall c, ownership s' !! c <> Some 0%nat)
     /\ (forall c, ownership stateBeforeBankruptcy !! c = Some 0%nat ->
           mortgaged s' !! c = None /\ houses s' !! c = None)
     /\ cashOf s' 0 = Some 0
     /\ 0%nat ∈ bankruptPlayers s').
Proof.
  intros s' (_ & _ & Hcash & _).
  assert (Hrun : cashOf s' 0 = Some 120) by reflexivity.
  rewrite Hrun in Hcash. discriminate.
Qed.

(** *** Lifting a mortgage *)

Lemma unmortgageProperty_mortgaged (cellId playerId : nat) (cost : Z)
    (st : GameState) :
  mortgaged (unmortgageProperty cellId playerId cost st)
  = <[cellId := false]> (mortgaged st).
Proof. reflexivity. Qed.

Lemma unmortgageProperty_affordable (cellId playerId : nat) (cost cash : Z)
    (st : GameState) :
  cashOf st playerId = Some cash -> cost <= cash ->
  cashOf (unmortgageProperty cellId playerId cost st) playerId
  = Some (cash - cost).
Proof.
  unfold cashOf, unmortgageProperty. simpl. intros H Hle.
  rewrite list_lookup_imap.
  destruct (players st !! playerId) as [p|]; [|done]. simpl in *.
  rewrite bool_decide_eq_true_2 by done.
  assert ((cost <=? money p) = true) as -> by (apply Z.leb_le; congruence).
  simpl. congruence.
Qed.

(** C4 (the code departs from it).  When the player's cash is below the
    cost, [unmortgageProperty] debits nothing, yet it still sets the cell's
    mortgaged flag to [false]: the mortgage is lifted without payment. *)
Theorem unmortgageProperty_short_of_cash_still_clears
    (cellId playerId : nat) (cost cash : Z) (st : GameState) :
  cashOf st playerId = Some cash -> cash < cost ->
  players (unmortgageProperty cellId playerId cost st) = players st
  /\ mortgaged (unmortgageProperty cellId playerId cost st) !! cellId
     = Some false.
Proof.
  intros H Hlt. split.
  - unfold unmortgageProperty. simpl.
    apply list_eq. intros i. rewrite list_lookup_imap.
    destruct (players st !! i) as [p|] eqn:E; [|done]. simpl.
    destruct (bool_decide (i = playerId)) eqn:Ei; [|done].
    apply bool_decide_eq_true in Ei. subst i.
    unfold cashOf in H. rewrite E in H. simpl in H.
    assert ((cost <=? money p) = false) as -> by (apply Z.leb_gt; congruence).
    done.
  - rewrite unmortgageProperty_mortgaged. apply lookup_insert_eq.
Qed.

Lemma unmortgageProperty_short_of_cash_still_clears_witness :
  players (unmortgageProperty 5 0 110 stateShortOfCash)
  = players stateShortOfCash
  /\ mortgaged (unmortgageProperty 5 0 110 stateShortOfCash) !! 5%nat
     = Some false.
Proof.
  apply (unmortgageProperty_short_of_cash_still_clears 5 0 110 50
           stateShortOfCash); [reflexivity|lia].
Defined.

(** ** Facts about the game page *)

(** *** Trading *)

Lemma lookup_foldl_insert (l : list nat) (v : nat) (m : gmap nat nat)
    (c : nat) :
  foldl (fun acc k => <[k := v]> acc) m l !! c
  = (if decide (c ∈ l) then Some v else m !! c).
Proof.
  revert m. induction l as [|x l IH]; intros m; simpl.
  - destruct (decide (c ∈ [])) as [H|H]; [|done]. by apply elem_of_nil in H.
  - rewrite IH.
    destruct (decide (c ∈ l)) as [Hl|Hl].
    + rewrite decide_True; [done|]. by apply elem_of_cons; right.
    + destruct (decide (c = x)) as [->|Hne].
      * rewrite lookup_insert_eq. rewrite decide_True; [done|].
        apply elem_of_cons. by left.
      * rewrite lookup_insert_ne by done. rewrite decide_False; [done|].
        intros [?|?]%elem_of_cons; congruence.
Qed.

Lemma tradeOwnership_lookup (trade : Trade) (prev : gmap nat nat) (c : nat) :
  tradeOwnership trade prev !! c
  = (if decide (c ∈ takeProperties (offer trade)) then Some (from trade)
     else if decide (c ∈ giveProperties (offer trade)) then Some (to trade)
     else prev !! c).
Proof. unfold tradeOwnership. by rewrite !lookup_foldl_insert. Qed.

Lemma cashOf_transfer (st : GameState) (a b : nat) (amt ca cb : Z) :
  a <> b -> cashOf st a = Some ca -> cashOf st b = Some cb ->
  cashOf (updateMoney b amt (updateMoney a (- amt) st)) a = Some (ca - amt)
  /\ cashOf (updateMoney b amt (updateMoney a (- amt) st)) b = Some (cb + amt).
Proof.
  intros Hab Ha Hb. split.
  - rewrite cashOf_updateMoney_ne by done.
    by rewrite (cashOf_updateMoney_eq _ _ _ ca).
  - apply cashOf_updateMoney_eq. by rewrite cashOf_updateMoney_ne by done.
Qed.

Lemma cashOf_transfer_other (st : GameState) (a b i : nat) (amt : Z) :
  i <> a -> i <> b ->
  cashOf (updateMoney b amt (updateMoney a (- amt) st)) i = cashOf st i.
Proof. intros Ha Hb. by rewrite !cashOf_updateMoney_ne by done. Qed.

(** C1, as amended.  Accepting a pending trade applies both legs together
    and without any check: every cell of [takeProperties] goes to [from],
    every other cell of [giveProperties] goes to [to], no other cell changes
    owner, a positive [giveMoney] moves from [from] to [to] and a positive
    [takeMoney] from [to] to [from] whatever the players hold, third players
    keep their cash, and the pending offer is cleared. *)
Theorem applyTrade_applies_both_legs
    (trade : Trade) (st : GameState) (cf ct : Z) :
  from trade <> to trade ->
  cashOf st (from trade) = Some cf ->
  cashOf st (to trade) = Some ct ->
  let o := offer trade in
  let g := Z.max 0 (giveMoney o) in
  let t := Z.max 0 (takeMoney o) in
  let st' := applyTrade trade st in
  (forall c, c ∈ takeProperties o -> ownership st' !! c = Some (from trade))
  /\ (forall c, c ∈ giveProperties o -> c ∉ takeProperties o ->
        ownership st' !! c = Some (to trade))
  /\ (forall c, c ∉ giveProperties o -> c ∉ takeProperties o ->
        ownership st' !! c = ownership st !! c)
  /\ cashOf st' (from trade) = Some (cf - g + t)
  /\ cashOf st' (to trade) = Some (ct + g - t)
  /\ (forall i, i <> from trade -> i <> to trade -> cashOf st' i = cashOf st i)
  /\ pendingTrade st' = None.
Proof.
  intros Hne Hf Ht o g t st'.
  assert (Hown : forall c, ownership st' !! c
                  = tradeOwnership trade (ownership st) !! c).
  { intros c. subst st'. unfold applyTrade.
    destruct (0 <? giveMoney (offer trade)), (0 <? takeMoney (offer trade));
      reflexivity. }
  split; [|split; [|split]].
  - intros c Hc. rewrite Hown, tradeOwnership_lookup. by rewrite decide_True.
  - intros c Hg Hn. rewrite Hown, tradeOwnership_lookup.
    rewrite decide_False by done. by rewrite decide_True.
  - intros c Hg Hn. rewrite Hown, tradeOwnership_lookup.
    by rewrite !decide_False by done.
  - subst st'. unfold applyTrade. fold o.
    set (st1 := setOwnership _ st).
    assert (Hf1 : cashOf st1 (from trade) = Some cf) by exact Hf.
    assert (Ht1 : cashOf st1 (to trade) = Some ct) by exact Ht.
    assert (Ho1 : forall i, cashOf st1 i = cashOf st i) by reflexivity.
    clearbody st1.
    set (st2 := if 0 <? giveMoney o then _ else st1).
    assert (H2 : cashOf st2 (from trade) = Some (cf - g)
                 /\ cashOf st2 (to trade) = Some (ct + g)
                 /\ forall i, i <> from trade -> i <> to trade ->
                      cashOf st2 i = cashOf st i).
    { subst st2 g. destruct (0 <? giveMoney o) eqn:E.
      - apply Z.ltb_lt in E. rewrite Z.max_r by lia.
        destruct (cashOf_transfer st1 _ _ (giveMoney o) cf ct Hne Hf1 Ht1)
          as [-> ->].
        repeat split. intros i Hi1 Hi2.
        by rewrite cashOf_transfer_other, Ho1.
      - apply Z.ltb_ge in E. rewrite Z.max_l by lia.
        rewrite Hf1, Ht1. repeat split; [f_equal; lia..|].
        intros i _ _. apply Ho1. }
    destruct H2 as (Hf2 & Ht2 & Ho2). clearbody st2.
    set (st3 := if 0 <? takeMoney o then _ else st2).
    assert (H3 : cashOf st3 (from trade) = Some (cf - g + t)
                 /\ cashOf st3 (to trade) = Some (ct + g - t)
                 /\ forall i, i <> from trade -> i <> to trade ->
                      cashOf st3 i = cashOf st i).
    { subst st3 t. destruct (0 <? takeMoney o) eqn:E.
      - apply Z.ltb_lt in E. rewrite Z.max_r by lia.
        assert (Hne' : to trade <> from trade) by congruence.
        destruct (cashOf_transfer st2 _ _ (takeMoney o) _ _ Hne' Ht2 Hf2)
          as [-> ->].
        repeat split. intros i Hi1 Hi2.
        by rewrite cashOf_transfer_other, Ho2.
      - apply Z.ltb_ge in E. rewrite Z.max_l by lia.
        rewrite Hf2, Ht2. repeat split; [f_equal; lia..|]. exact Ho2. }
    destruct H3 as (Hf3 & Ht3 & Ho3).
    repeat split; assumption.
Qed.

Lemma applyTrade_applies_both_legs_witness :
  let st' := applyTrade staleTrade stateStaleTrade in
  (forall c, c ∈ [5%nat] -> ownership st' !! c = Some 0%nat)
  /\ (forall c, c ∈ [1%nat] -> c ∉ [5%nat] -> ownership st' !! c = Some 1%nat)
  /\ (forall c, c ∉ [1%nat] -> c ∉ [5%nat] ->
        ownership st' !! c = ownership stateStaleTrade !! c)
  /\ cashOf st' 0 = Some (100 - 300 + 0)
  /\ cashOf st' 1 = Some (500 + 300 - 0)
  /\ (forall i, i <> 0%nat -> i <> 1%nat ->
        cashOf st' i = cashOf stateStaleTrade i)
  /\ pendingTrade st' = None.
Proof.
  apply (applyTrade_applies_both_legs staleTrade stateStaleTrade 100 500);
    [discriminate|reflexivity|reflexivity].
Defined.

(** C1 as stated fails: the pending offer of [stateStaleTrade] is stale (Ann
    gives a cell she does not own) and unaffordable (she gives 300 out of
    100), and accepting it still changes ownership and cash. *)
Lemma acceptTrade_stale_counterexample :
  let s := stateStaleTrade in
  let s' := acceptTrade s s in
  ~ ((ownership s !! 1%nat <> Some 0%nat \/ cashOf s 0 = Some 100 /\ 100 < 300) ->
     ownership s' = ownership s
     /\ cashOf s' 0 = cashOf s 0 /\ cashOf s' 1 = cashOf s 1).
Proof.
  intros s s' H.
  destruct H as (_ & Hcash & _).
  - left. discriminate.
  - assert (Hrun : cashOf s' 0 = Some (-200)) by reflexivity.
    rewrite Hrun in Hcash. discriminate.
Qed.

(** *** Buying *)

(** C2, as amended.  [buyProperty()] has no affordability check: whenever a
    purchase decision is pending it gives the pending cell to the active
    player, debits its price whatever the player's cash, and closes the
    decision. *)
Theorem buyProperty_buys_unconditionally
    (s : GameState) (c : Cell) (cash : Z) :
  activeCell s = Some c ->
  cashOf s (currentPlayer s) = Some cash ->
  exists s',
    buyProperty s s = Done s'
    /\ ownership s' = <[cell_id c := currentPlayer s]> (ownership s)
    /\ cashOf s' (currentPlayer s) = Some (cash - cell_price c)
    /\ (forall i, i <> currentPlayer s -> cashOf s' i = cashOf s i)
    /\ activeCell s' = None.
Proof.
  intros Hc Hcash. unfold buyProperty, derefPlayer. rewrite Hc.
  destruct (players s !! currentPlayer s) as [p|] eqn:E.
  2:{ unfold cashOf in Hcash. by rewrite E in Hcash. }
  eexists. split; [reflexivity|]. simpl. repeat split.
  - change (cashOf (updateMoney (currentPlayer s) (- cell_price c) s)
              (currentPlayer s) = Some (cash - cell_price c)).
    by rewrite (cashOf_updateMoney_eq _ _ _ cash).
  - intros i Hi.
    change (cashOf (updateMoney (currentPlayer s) (- cell_price c) s) i
            = cashOf s i).
    by rewrite cashOf_updateMoney_ne.
Qed.

Lemma buyProperty_buys_unconditionally_witness :
  exists s',
    buyProperty stateCannotAfford stateCannotAfford = Done s'
    /\ ownership s' = <[1%nat := 0%nat]> (ownership stateCannotAfford)
    /\ cashOf s' 0 = Some (50 - 60)
    /\ (forall i, i <> 0%nat -> cashOf s' i = cashOf stateCannotAfford i)
    /\ activeCell s' = None.
Proof.
  apply (buyProperty_buys_unconditionally stateCannotAfford (sampleCell 1) 50);
    reflexivity.
Defined.

(** With no purchase decision pending, [buyProperty()] changes nothing. *)
Lemma buyProperty_nothing_pending (s : GameState) :
  activeCell s = None -> buyProperty s s = Done s.
Proof. intros H. unfold buyProperty. by rewrite H. Qed.

(** C2 as stated fails: with 50 in cash and a price of 60 the purchase is
    not rejected; the cell changes hands and the cash drops to -10. *)
Lemma buyProperty_unaffordable_counterexample :
  let s := stateCannotAfford in
  ~ (forall cash price,
       cashOf s (currentPlayer s) = Some cash ->
       cell_price <$> activeCell s = Some price ->
       cash <= price ->
       buyProperty s s = Done s).
Proof.
  intros s H.
  specialize (H 50 60 eq_refl eq_refl ltac:(lia)).
  assert (Hrun : exists s', buyProperty s s = Done s'
                            /\ cashOf s' 0 = Some (-10)).
  { eexists. split; reflexivity. }
  destruct Hrun as (s' & Hs' & Hcash).
  rewrite H in Hs'. injection Hs' as <-. discriminate Hcash.
Qed.

(** *** Dice and movement *)

Lemma mapPlayer_insert (who : nat) (f : Player -> Player) (l : list Player)
    (p : Player) :
  l !! who = Some p -> mapPlayer who f l = <[who := f p]> l.
Proof.
  intros H. apply list_eq. intros i.
  destruct (decide (i = who)) as [->|Hne].
  - rewrite (lookup_mapPlayer_eq _ _ _ _ H).
    symmetry. apply list_lookup_insert_eq. by eapply lookup_lt_Some.
  - rewrite lookup_mapPlayer_ne by done.
    by rewrite list_lookup_insert_ne.
Qed.

(** [n] runs of the interval callback from a cell of the board end on
    [(pos + n) mod 40], and cell 0 was visited exactly when the walk left
    the last cell of the board. *)
Lemma walk_spec (n who : nat) (pos : Z) (b : bool) (disp : list jsnum) :
  0 <= pos < 40 ->
  exists disp',
    walk n who (Num pos) b disp
    = (Num ((pos + Z.of_nat n) mod 40), b || (40 <=? pos + Z.of_nat n), disp').
Proof.
  revert pos b disp. induction n as [|n IH]; intros pos b disp Hpos.
  - exists disp. simpl. rewrite Z.add_0_r, Z.mod_small by lia.
    assert ((40 <=? pos) = false) as -> by (apply Z.leb_gt; lia).
    by rewrite orb_false_r.
  - cbn [walk jadd jrem jeqz].
    assert (Hrem : Z.rem (pos + 1) 40 = (pos + 1) mod 40)
      by (apply Z.rem_mod_nonneg; lia).
    rewrite Hrem.
    assert (Hp' : 0 <= (pos + 1) mod 40 < 40) by (apply Z.mod_pos_bound; lia).
    destruct (IH ((pos + 1) mod 40) (b || ((pos + 1) mod 40 =? 0))
                (js_set disp who (Num ((pos + 1) mod 40))) Hp')
      as (disp' & ->).
    exists disp'. f_equal. f_equal.
    + f_equal. rewrite Zplus_mod_idemp_l. f_equal. lia.
    + rewrite <- orb_assoc. f_equal.
      destruct (decide (pos = 39)) as [->|Hne].
      * change ((39 + 1) mod 40) with 0. simpl.
        symmetry. apply Z.leb_le. lia.
      * rewrite (Z.mod_small (pos + 1)) by lia.
        assert ((pos + 1 =? 0) = false) as -> by (apply Z.eqb_neq; lia).
        simpl. f_equal. lia.
Qed.

(** Landing resolution for a human player (not [silent]) returns after one
    round: it never calls [applyChance], and with every owner in the roster
    no log line reads a missing player. *)
Lemma handleCellAction_human_returns
    (boardCells : list Cell) (fuel : nat) (snap st : GameState) (cell : Cell)
    (opt : optnum) (p : Player) :
  players snap !! currentPlayer snap = Some p ->
  ownersValid snap ->
  exists st',
    handleCellAction boardCells (S fuel) snap (Some cell) false opt st
    = Done st'.
Proof.
  intros Hp Hvalid. cbn [handleCellAction]. unfold derefPlayer. rewrite Hp.
  destruct (cell_type cell); try (eexists; reflexivity).
  all: try (destruct (chanceCards !! chanceIndex snap);
            eexists; reflexivity).
  all: destruct (ownership snap !! cell_id cell) as [o|] eqn:Ho;
    [|eexists; reflexivity].
  all: destruct (isMortgagedIn (mortgaged snap) (cell_id cell));
    [eexists; reflexivity|].
  all: destruct (decide (o = currentPlayer snap)); [eexists; reflexivity|].
  all: destruct (rentOf boardCells snap cell o) as [r|];
    [|eexists; reflexivity].
  all: destruct (0 <? r); [|eexists; reflexivity].
  all: destruct (lookup_lt_is_Some_2 (players snap) o (Hvalid _ _ Ho))
    as [q ->].
  all: eexists; reflexivity.
Qed.

(** The active player's record after landing resolution that does not apply
    a card at once: the cell that sends to jail overwrites position and jail
    fields, any other cell takes [landingCharge] from the cash and leaves the
    rest of the record alone; flags other than the purchase decision and the
    card shown are untouched. *)
Lemma handleCellAction_settles
    (boardCells : list Cell) (fuel : nat) (snap st : GameState) (cell : Cell)
    (silent : bool) (opt : optnum) (p q : Player) :
  players snap !! currentPlayer snap = Some p ->
  players st !! currentPlayer snap = Some q ->
  ownersValid snap ->
  silent = false \/ cell_type cell <> chance ->
  exists st',
    handleCellAction boardCells (S fuel) snap (Some cell) silent opt st
    = Done st'
    /\ players st' !! currentPlayer snap
       = Some (if decide (cell_type cell = goto_jail)
               then mkPlayer (name q) (ptype q) (money q) (Num 10) true 3
                      (jailFreeCard q)
               else mkPlayer (name q) (ptype q)
                      (money q - landingCharge boardCells snap cell)
                      (position q) (inJail q) (jailTurnsLeft q)
                      (jailFreeCard q))
    /\ hasRolled st' = hasRolled st
    /\ rolling st' = rolling st
    /\ (silent = true -> activeCell st' = activeCell st).
Proof.
  intros Hp Hq Hvalid Hsilent.
  assert (Hsame : forall m, m = 0 ->
            Some q = Some (mkPlayer (name q) (ptype q) (money q - m)
                             (position q) (inJail q) (jailTurnsLeft q)
                             (jailFreeCard q))).
  { intros m ->. destruct q. simpl. by rewrite Z.sub_0_r. }
  assert (Hbuyable :
    cell_type cell <> goto_jail ->
    landingCharge boardCells snap cell
    = match ownership snap !! cell_id cell with
      | Some owner =>
          if isMortgagedIn (mortgaged snap) (cell_id cell) then 0
          else if decide (owner = currentPlayer snap) then 0
          else match rentOf boardCells snap cell owner with
               | Some rent => Z.max 0 rent
               | None => 0
               end
      | None => 0
      end ->
    exists st',
      match ownership snap !! cell_id cell with
      | Some owner =>
          if isMortgagedIn (mortgaged snap) (cell_id cell) then Done st
          else if decide (owner = currentPlayer snap) then Done st
          else match rentOf boardCells snap cell owner with
               | Some rent =>
                   if 0 <? rent
                   then
                     let st1 :=
                       updateMoney owner rent
                         (updateMoney (currentPlayer snap) (- rent) st) in
                     derefPlayer snap (currentPlayer snap) st1 (fun _ =>
                     derefPlayer snap owner st1 (fun _ => Done st1))
                   else Done st
               | None => Done st
               end
      | None => Done (if silent then st else setActiveCell (Some cell) st)
      end = Done st'
      /\ players st' !! currentPlayer snap
         = Some (if decide (cell_type cell = goto_jail)
                 then mkPlayer (name q) (ptype q) (money q) (Num 10) true 3
                        (jailFreeCard q)
                 else mkPlayer (name q) (ptype q)
                        (money q - landingCharge boardCells snap cell)
                        (position q) (inJail q) (jailTurnsLeft q)
                        (jailFreeCard q))
      /\ hasRolled st' = hasRolled st
      /\ rolling st' = rolling st
      /\ (silent = true -> activeCell st' = activeCell st)).
  { intros Hnj ->. rewrite decide_False by done.
    destruct (ownership snap !! cell_id cell) as [o|] eqn:Ho.
    2:{ eexists. split; [reflexivity|].
        destruct silent; simpl; rewrite Hq;
          repeat split; try (by apply Hsame); done. }
    destruct (isMortgagedIn (mortgaged snap) (cell_id cell)).
    { exists st. rewrite Hq. repeat split; by apply Hsame. }
    destruct (decide (o = currentPlayer snap)) as [|Hne].
    { exists st. rewrite Hq. repeat split; by apply Hsame. }
    destruct (rentOf boardCells snap cell o) as [r|].
    2:{ exists st. rewrite Hq. repeat split; by apply Hsame. }
    destruct (0 <? r) eqn:Er.
    2:{ exists st. rewrite Hq. apply Z.ltb_ge in Er.
        repeat split; apply Hsame; lia. }
    apply Z.ltb_lt in Er. unfold derefPlayer. cbn zeta. rewrite Hp.
    destruct (lookup_lt_is_Some_2 (players snap) o (Hvalid _ _ Ho))
      as [po ->].
    eexists. split; [reflexivity|]. split; [|done].
    unfold updateMoney at 1. cbn [players setPlayers].
    rewrite lookup_mapPlayer_ne by congruence.
    unfold updateMoney. cbn [players setPlayers].
    rewrite (lookup_mapPlayer_eq _ _ _ _ Hq).
    unfold withMoney. do 2 f_equal. lia. }
  cbn [handleCellAction].
  destruct (cell_type cell) eqn:Hty.
  - apply Hbuyable; [done|]. unfold landingCharge. by rewrite Hty.
  - apply Hbuyable; [done|]. unfold landingCharge. by rewrite Hty.
  - apply Hbuyable; [done|]. unfold landingCharge. by rewrite Hty.
  - unfold derefPlayer. rewrite Hp. eexists. split; [reflexivity|].
    split; [|done]. rewrite decide_False by done.
    unfold updateMoney. cbn [players setPlayers].
    rewrite (lookup_mapPlayer_eq _ _ _ _ Hq).
    unfold withMoney, landingCharge. by rewrite Hty.
  - destruct Hsilent as [-> |Hne]; [|done].
    rewrite decide_False by done.
    destruct (chanceCards !! chanceIndex snap); eexists;
      (split; [reflexivity|]); simpl; rewrite Hq;
      repeat split; try done; apply Hsame; unfold landingCharge;
      by rewrite Hty.
  - unfold derefPlayer. rewrite Hp. eexists. split; [reflexivity|].
    split; [|done]. rewrite decide_True by done.
    unfold sendToJail. cbn [players setPlayers].
    by rewrite (lookup_mapPlayer_eq _ _ _ _ Hq).
  - exists st. rewrite Hq, decide_False by done.
    repeat split; try done. apply Hsame. unfold landingCharge.
    by rewrite Hty.
Qed.

(** C5.  A human player's roll from a cell [pos] of the board (where the
    page's effect keeps the displayed token) with dice in [1..6] moves the
    player to [(pos + d1 + d2) mod 40] and adds 200 to the player's cash,
    once, exactly when the new position is smaller than the old one, which is
    exactly when the move went past the last cell.  Landing resolution then
    runs on the cell reached, from that moved state, and the roll returns
    with the rolled flag set: in the state returned the player stands on the
    cell reached with the cash of before, the 200 of a wrap, less what the
    landing takes in rent or tax; only the cell that sends to jail puts the
    player elsewhere, on cell 10. *)
Theorem rollDice_moves_and_credits_on_wrap
    (boardCells : list Cell) (fuel : nat) (s : GameState) (p : Player)
    (pos d1 d2 : Z) (cell : Cell) :
  isAITurn s = false -> rolling s = false -> hasRolled s = false ->
  players s !! currentPlayer s = Some p ->
  ptype p = human -> inJail p = false ->
  position p = Num pos ->
  displayPositions s !! currentPlayer s = Some (Num pos) ->
  0 <= pos < 40 -> 1 <= d1 <= 6 -> 1 <= d2 <= 6 ->
  ownersValid s ->
  js_index boardCells ((pos + d1 + d2) mod 40) = Some cell ->
  let newPosition := (pos + d1 + d2) mod 40 in
  let bonus := if newPosition <? pos then 200 else 0 in
  exists moved s',
    players moved
    = <[currentPlayer s :=
          mkPlayer (name p) human (money p + bonus) (Num newPosition) false
            (jailTurnsLeft p) (jailFreeCard p)]> (players s)
    /\ ownership moved = ownership s
    /\ mortgaged moved = mortgaged s
    /\ houses moved = houses s
    /\ currentPlayer moved = currentPlayer s
    /\ rollDice boardCells (S fuel) s d1 d2 s
       = omap (fun st => setHasRolled true (setRolling false st))
           (handleCellAction boardCells (S fuel) s (Some cell) false ONull
              moved)
    /\ rollDice boardCells (S fuel) s d1 d2 s = Done s'
    /\ players s' !! currentPlayer s
       = Some (if decide (cell_type cell = goto_jail)
               then mkPlayer (name p) human (money p + bonus) (Num 10) true 3
                      (jailFreeCard p)
               else mkPlayer (name p) human
                      (money p + bonus - landingCharge boardCells s cell)
                      (Num newPosition) false (jailTurnsLeft p)
                      (jailFreeCard p))
    /\ hasRolled s' = true
    /\ (newPosition < pos <-> 40 <= pos + d1 + d2).
Proof.
  intros Hai Hrolling Hrolled Hp Hhuman Hjail Hposition Hdisp Hpos Hd1 Hd2
    Hvalid Hcell newPosition bonus.
  assert (Hwrap : newPosition < pos <-> 40 <= pos + d1 + d2).
  { subst newPosition. split; intros H.
    - destruct (Z_lt_le_dec (pos + d1 + d2) 40) as [Hlt|]; [|done].
      rewrite Z.mod_small in H by lia. lia.
    - replace (pos + d1 + d2) with (pos + d1 + d2 - 40 + 1 * 40) by lia.
      rewrite Z.mod_add by lia. rewrite Z.mod_small by lia. lia. }
  destruct (walk_spec (ticks (d1 + d2)) (currentPlayer s) pos false
              (displayPositions (setDice (d1, d2) (setRolling true s))) Hpos)
    as (disp' & Hwalk).
  assert (Hticks : Z.of_nat (ticks (d1 + d2)) = d1 + d2)
    by (unfold ticks; lia).
  rewrite Hticks, Z.add_assoc in Hwalk. fold newPosition in Hwalk.
  simpl in Hwalk.
  assert (Hbonus : (40 <=? pos + d1 + d2) = (newPosition <? pos)).
  { destruct (newPosition <? pos) eqn:E.
    - apply Z.leb_le, Hwrap. by apply Z.ltb_lt.
    - apply Z.leb_gt. apply Z.ltb_ge in E.
      destruct (Z_lt_le_dec (pos + d1 + d2) 40) as [|Hge]; [done|].
      apply Hwrap in Hge. lia. }
  rewrite Hbonus in Hwalk.
  set (q := mkPlayer (name p) human (money p + bonus) (Num newPosition) false
              (jailTurnsLeft p) (jailFreeCard p)).
  set (moved :=
         setPlayers (<[currentPlayer s := q]> (players s))
           (setDisplayPositions disp'
              (setDice (d1, d2) (setRolling true s)))).
  assert (Hq : players moved !! currentPlayer s = Some q).
  { subst moved. cbn [players setPlayers].
    apply list_lookup_insert_eq. by eapply lookup_lt_Some. }
  assert (Hroll :
    rollDice boardCells (S fuel) s d1 d2 s
    = omap (fun st => setHasRolled true (setRolling false st))
        (handleCellAction boardCells (S fuel) s (Some cell) false ONull
           moved)).
  { subst moved q. unfold rollDice, derefPlayer.
    rewrite Hai, Hrolling, Hrolled, Hp. simpl.
    rewrite Hhuman, Hjail.
    rewrite bool_decide_eq_false_2 by discriminate.
    rewrite bool_decide_eq_false_2 by discriminate.
    rewrite bool_decide_eq_false_2
      by (apply lookup_lt_Some in Hp; lia).
    rewrite Hdisp. simpl. rewrite Hwalk.
    cbn [js_index_num]. fold newPosition in Hcell. rewrite Hcell.
    rewrite (mapPlayer_insert _ _ _ _ Hp).
    unfold withMove. by rewrite Hhuman, Hjail. }
  destruct (handleCellAction_settles boardCells fuel s moved cell false
              ONull p q Hp Hq Hvalid (or_introl eq_refl))
    as (landed & Hlanded & Hrecord & _).
  exists moved, (setHasRolled true (setRolling false landed)).
  repeat (split; [reflexivity|]).
  split; [exact Hroll|].
  split; [by rewrite Hroll, Hlanded|].
  split; [exact Hrecord|].
  split; [reflexivity|exact Hwrap].
Qed.

(** The example of the specification: from cell 35 a roll of 3 + 4 ends on
    cell 2 with 200 more in cash. *)
Lemma rollDice_moves_and_credits_on_wrap_witness :
  exists moved s',
    players moved
    = <[0%nat := mkPlayer "Ann" human (1500 + 200) (Num 2) false 0 false]>
        (players stateAtCell35)
    /\ ownership moved = ownership stateAtCell35
    /\ mortgaged moved = mortgaged stateAtCell35
    /\ houses moved = houses stateAtCell35
    /\ currentPlayer moved = currentPlayer stateAtCell35
    /\ rollDice sampleBoard 1 stateAtCell35 3 4 stateAtCell35
       = omap (fun st => setHasRolled true (setRolling false st))
           (handleCellAction sampleBoard 1 stateAtCell35
              (Some (sampleCell 2)) false ONull moved)
    /\ rollDice sampleBoard 1 stateAtCell35 3 4 stateAtCell35 = Done s'
    /\ players s' !! 0%nat
       = Some (mkPlayer "Ann" human (1500 + 200 - 0) (Num 2) false 0 false)
    /\ hasRolled s' = true
    /\ (2 < 35 <-> 40 <= 35 + 3 + 4).
Proof.
  apply (rollDice_moves_and_credits_on_wrap sampleBoard 0 stateAtCell35
           (newPlayer "Ann" human 1500 35) 35 3 4 (sampleCell 2));
    first [reflexivity | lia | apply map_Forall_empty].
Defined.

(** The same roll, run to its end: cell 2 has no landing effect. *)
Lemma rollDice_from_35_by_7 :
  exists s',
    rollDice sampleBoard 1 stateAtCell35 3 4 stateAtCell35 = Done s'
    /\ position <$> players s' !! 0%nat = Some (Num 2)
    /\ cashOf s' 0 = Some 1700
    /\ cashOf s' 1 = Some 1500
    /\ hasRolled s' = true.
Proof. eexists. repeat split; reflexivity. Qed.

(** *** Rent on a street *)

Lemma rentOf_street (boardCells : list Cell) (snap : GameState) (cell : Cell)
    (owner : nat) :
  cell_type cell = property ->
  length (cell_rent cell) = 6%nat ->
  rentOf boardCells snap cell owner
  = js_index (cell_rent cell)
      (Z.min (houseCountIn (houses snap) (cell_id cell)) 5).
Proof. intros Hty Hlen. unfold rentOf. by rewrite Hty, Hlen. Qed.

(** C6.  Landing on an unmortgaged street that another player owns debits
    the active player and credits the owner the entry [min(housesBuilt, 5)]
    of the street's six-entry rent table, [housesBuilt] being the street's
    entry in the house map (0 when it has none).  The amount reads that
    entry only: it is the same under every ownership map, so holding the
    whole colour group does not double it, and with no house it is entry 0.
    The handler reads the street's books from the render it belongs to and
    pays on the queued state, as when it is called at the end of a roll. *)
Theorem street_rent_is_table_entry
    (boardCells : list Cell) (fuel : nat) (s st : GameState) (cell : Cell)
    (owner : nat) (silent : bool) (opt : optnum) (rent cc co : Z) :
  let housesBuilt := default 0 (houses s !! cell_id cell) in
  cell_type cell = property ->
  ownership s !! cell_id cell = Some owner ->
  owner <> currentPlayer s ->
  isMortgagedIn (mortgaged s) (cell_id cell) = false ->
  length (cell_rent cell) = 6%nat ->
  js_index (cell_rent cell) (Z.min housesBuilt 5) = Some rent ->
  0 <= rent ->
  is_Some (players s !! currentPlayer s) ->
  is_Some (players s !! owner) ->
  cashOf st (currentPlayer s) = Some cc ->
  cashOf st owner = Some co ->
  exists st',
    handleCellAction boardCells (S fuel) s (Some cell) silent opt st
    = Done st'
    /\ cashOf st' (currentPlayer s) = Some (cc - rent)
    /\ cashOf st' owner = Some (co + rent)
    /\ (forall i, i <> currentPlayer s -> i <> owner ->
          cashOf st' i = cashOf st i)
    /\ ownership st' = ownership st
    /\ houses st' = houses st
    /\ (housesBuilt = 0 -> cell_rent cell !! 0%nat = Some rent)
    /\ (forall s2 owner2,
          houses s2 !! cell_id cell = houses s !! cell_id cell ->
          rentOf boardCells s2 cell owner2 = Some rent).
Proof.
  intros housesBuilt Hty Hown Hne Hmort Hlen Hrent Hnonneg [pc Hpc] [po Hpo]
    Hcc Hco.
  assert (Htable : forall s2 owner2,
            houses s2 !! cell_id cell = houses s !! cell_id cell ->
            rentOf boardCells s2 cell owner2 = Some rent).
  { intros s2 owner2 Hsame. rewrite rentOf_street by done.
    unfold houseCountIn. rewrite Hsame. exact Hrent. }
  assert (Hzero : housesBuilt = 0 -> cell_rent cell !! 0%nat = Some rent).
  { intros H0. rewrite H0 in Hrent. exact Hrent. }
  cbn [handleCellAction]. rewrite Hty, Hown, Hmort.
  destruct (decide (owner = currentPlayer s)) as [|_]; [done|].
  rewrite (Htable s owner eq_refl).
  destruct (0 <? rent) eqn:Epos.
  - unfold derefPlayer. rewrite Hpc, Hpo.
    eexists. split; [reflexivity|].
    assert (Hne' : currentPlayer s <> owner) by congruence.
    destruct (cashOf_transfer st _ _ rent cc co Hne' Hcc Hco) as [H1 H2].
    repeat split; try assumption.
    intros i Hi1 Hi2. by apply cashOf_transfer_other.
  - apply Z.ltb_ge in Epos. assert (rent = 0) as -> by lia.
    exists st. rewrite Z.sub_0_r, Z.add_0_r. repeat split; assumption.
Qed.

(** Bob lands on Ann's street with two houses: the rent is entry 2 of the
    table, 30. *)
Lemma street_rent_is_table_entry_witness :
  exists st',
    handleCellAction sampleBoard 1 stateOnAnnsHouses (Some (sampleCell 1))
      false ONull stateOnAnnsHouses = Done st'
    /\ cashOf st' 1 = Some (1500 - 30)
    /\ cashOf st' 0 = Some (1500 + 30)
    /\ (forall i, i <> 1%nat -> i <> 0%nat ->
          cashOf st' i = cashOf stateOnAnnsHouses i)
    /\ ownership st' = ownership stateOnAnnsHouses
    /\ houses st' = houses stateOnAnnsHouses
    /\ (default 0 (houses stateOnAnnsHouses !! 1%nat) = 0 ->
        cell_rent (sampleCell 1) !! 0%nat = Some 30)
    /\ (forall s2 owner2,
          houses s2 !! 1%nat = houses stateOnAnnsHouses !! 1%nat ->
          rentOf sampleBoard s2 (sampleCell 1) owner2 = Some 30).
Proof.
  apply (street_rent_is_table_entry sampleBoard 0 stateOnAnnsHouses
           stateOnAnnsHouses (sampleCell 1) 0 false ONull 30 1500 1500);
    first [reflexivity | discriminate | lia | by eexists].
Defined.

(** The example of the specification: no house on a street whose owner holds
    the whole colour group, and the rent is 2. *)
Lemma street_rent_full_group_no_house :
  ownership stateOnAnnsStreet !! 3%nat = Some 0%nat
  /\ exists st',
       handleCellAction sampleBoard 1 stateOnAnnsStreet (Some (sampleCell 1))
         false ONull stateOnAnnsStreet = Done st'
       /\ cashOf st' 1 = Some 1498
       /\ cashOf st' 0 = Some 1502.
Proof. split; [reflexivity|]. eexists. repeat split; reflexivity. Qed.

(** The rent taken at the end of a roll: Bob rolls 1 + 1 from cell 39 onto
    Ann's street with two houses, is paid 200 for the wrap and pays 30. *)
Lemma street_rent_after_roll :
  let s :=
    freshState
      [newPlayer "Ann" human 1500 0; newPlayer "Bob" human 1500 39] 1
      {[ 1%nat := 0%nat ]} ∅ {[ 1%nat := 2 ]} in
  exists s',
    rollDice sampleBoard 1 s 1 1 s = Done s'
    /\ position <$> players s' !! 1%nat = Some (Num 1)
    /\ cashOf s' 1 = Some (1500 + 200 - 30)
    /\ cashOf s' 0 = Some 1530.
Proof. eexists. repeat split; reflexivity. Qed.

(** *** Chance cards that move the player *)

(** A [move] card, from the call of [applyChance] to its return: the move
    starts from the base position passed, or else from the position of the
    render; the test for the 200 reads the position of the render. *)
Lemma applyChance_move_settles
    (boardCells : list Cell) (fuel : nat) (s st : GameState) (card : Card)
    (base : optnum) (steps pos from : Z) (p q : Player) (cell : Cell) :
  effect card = EMove steps ->
  players s !! currentPlayer s = Some p ->
  position p = Num pos ->
  players st !! currentPlayer s = Some q ->
  (base = ONull /\ from = pos) \/ base = ONum (Num from) ->
  0 <= from < 40 ->
  -40 <= steps ->
  ownersValid s ->
  let newPos := (from + steps + 40) mod 40 in
  let bonus := if newPos <? pos then 200 else 0 in
  js_index boardCells newPos = Some cell ->
  ptype p = human \/ cell_type cell <> chance ->
  exists s',
    applyChance boardCells (S fuel) s card base st = Done s'
    /\ players s' !! currentPlayer s
       = Some (if decide (cell_type cell = goto_jail)
               then mkPlayer (name q) (ptype q) (money q + bonus) (Num 10)
                      true 3 (jailFreeCard q)
               else mkPlayer (name q) (ptype q)
                      (money q + bonus - landingCharge boardCells s cell)
                      (Num newPos) (inJail q) (jailTurnsLeft q)
                      (jailFreeCard q))
    /\ chanceCard s' = None
    /\ hasRolled s' = hasRolled st
    /\ rolling s' = rolling st.
Proof.
  intros Heff Hp Hposition Hq Hbase Hfrom Hsteps Hvalid newPos bonus Hcell
    Hquiet.
  set (q' := mkPlayer (name q) (ptype q) (money q + bonus) (Num newPos)
               (inJail q) (jailTurnsLeft q) (jailFreeCard q)).
  set (moved :=
         setPlayers
           (mapPlayer (currentPlayer s)
              (fun r => withMove (Num newPos) (money r + bonus) r)
              (players st)) st).
  assert (Hq' : players moved !! currentPlayer s = Some q').
  { subst moved. cbn [players setPlayers].
    by rewrite (lookup_mapPlayer_eq _ _ _ _ Hq). }
  assert (Hsilent : bool_decide (ptype p = ai) = false
                    \/ cell_type cell <> chance).
  { destruct Hquiet as [Hhuman|Hne]; [left|by right].
    rewrite Hhuman. by apply bool_decide_eq_false_2. }
  destruct (handleCellAction_settles boardCells fuel s moved cell
              (bool_decide (ptype p = ai)) OUndefined p q' Hp Hq' Hvalid
              Hsilent)
    as (landed & Hlanded & Hrecord & Hrolled & Hrolling & _).
  assert (Hrun :
    applyChance boardCells (S fuel) s card base st
    = omap (setChanceCard None)
        (handleCellAction boardCells (S fuel) s (Some cell)
           (bool_decide (ptype p = ai)) OUndefined moved)).
  { subst moved.
    unfold applyChance, applyChance_with, movePlayerTo_with, derefPlayer.
    rewrite Hp, Heff, Hposition.
    assert (Hstart : match base with
                     | ONull | OUndefined => Num pos
                     | ONum n => n
                     end = Num from).
    { destruct Hbase as [[-> ->]| ->]; reflexivity. }
    rewrite Hstart.
    cbn [jadd jrem jlt andb js_index_num].
    rewrite Z.rem_mod_nonneg by lia. fold newPos. fold bonus.
    by rewrite Hcell. }
  exists (setChanceCard None landed).
  split; [by rewrite Hrun, Hlanded|].
  split; [exact Hrecord|]. split; [reflexivity|].
  split; [exact Hrolled|exact Hrolling].
Qed.





(** The automated roll of the counterexample, run to its end. *)
Lemma applyChance_move_automated_example :
  exists s',
    rollDiceFromBackend sampleBoard 2 stateBotAtStart 3 4 stateBotAtStart
    = Done s'
    /\ players s' !! 1%nat = Some (mkPlayer "Bot" ai 1500 (Num 5) false 0 false)
    /\ chanceCard s' = None
    /\ hasRolled s' = true.
Proof. eexists. repeat split; reflexivity. Qed.

(** Run to its end: Ann goes from cell 4 back to cell 2 and is paid 200. *)
Lemma applyChance_go_back_two_from_4 :
  exists s',
    applyChance sampleBoard 1 stateDrewGoBack goBackTwo ONull stateDrewGoBack
    = Done s'
    /\ position <$> players s' !! 0%nat = Some (Num 2)
    /\ cashOf s' 0 = Some 1700
    /\ chanceCard s' = None.
Proof. eexists. repeat split; reflexivity. Qed.

(** For an automated player the card is applied during the roll, on the
    render that started the turn: the target is computed from the cell just
    reached ([base]) while the bonus test still reads the position held
    before the roll. *)
Lemma applyChance_move_automated
    (boardCells : list Cell) (fuel : nat) (s st : GameState) (card : Card)
    (steps base : Z) (p : Player) :
  effect card = EMove steps ->
  players s !! currentPlayer s = Some p ->
  let newPos := jrem (Num (base + steps + 40)) 40 in
  applyChance boardCells fuel s card (ONum (Num base)) st
  = omap (setChanceCard None)
      (handleCellAction boardCells fuel s (js_index_num boardCells newPos)
         (bool_decide (ptype p = ai)) OUndefined
         (setPlayers
            (mapPlayer (currentPlayer s)
               (fun q => withMove newPos
                           (money q + (if jlt newPos (position p)
                                       then 200 else 0)) q)
               (players st)) st)).
Proof.
  intros Heff Hp newPos.
  unfold applyChance, applyChance_with, movePlayerTo_with, derefPlayer.
  rewrite Hp, Heff. reflexivity.
Qed.

(** *** Turn order *)

(** The search for the next player stops at the first roster index after
    [cur], in cyclic order, that is not bankrupt. *)
Lemma nextActive_first (n : nat) (bankrupt : list nat) (fuel cur k : nat) :
  (1 <= k <= fuel)%nat ->
  ((cur + k) mod n)%nat ∉ bankrupt ->
  exists k',
    (1 <= k' <= k)%nat
    /\ nextActive fuel n bankrupt cur = Some ((cur + k') mod n)%nat
    /\ (((cur + k') mod n)%nat ∉ bankrupt)
    /\ (forall j, (1 <= j < k')%nat -> ((cur + j) mod n)%nat ∈ bankrupt).
Proof.
  revert cur k. induction fuel as [|fuel IH]; intros cur k Hk Hfree; [lia|].
  cbn [nextActive].
  destruct (decide (((cur + 1) mod n)%nat ∈ bankrupt)) as [Hin|Hout].
  - assert (Hk2 : (2 <= k)%nat).
    { destruct (decide (k = 1%nat)) as [->|]; [done|lia]. }
    assert (Hshift : forall j, (((cur + 1) mod n + j) mod n
                                = (cur + S j) mod n)%nat).
    { intros j. rewrite Nat.Div0.add_mod_idemp_l. f_equal. lia. }
    destruct (IH ((cur + 1) mod n)%nat (k - 1)%nat) as (k' & Hk' & Hn & Hf & Hb).
    { lia. }
    { rewrite Hshift. by replace (S (k - 1)) with k by lia. }
    exists (S k'). rewrite Hshift in Hn, Hf. repeat split; try lia; try done.
    intros j Hj. destruct (decide (j = 1%nat)) as [->|Hj1]; [done|].
    specialize (Hb (j - 1)%nat ltac:(lia)). rewrite Hshift in Hb.
    by replace (S (j - 1)) with j in Hb by lia.
  - exists 1%nat. repeat split; try lia; try done.
Qed.

(** Some step of at most [n] reaches any given roster index. *)
Lemma cyclic_reach (n cur i : nat) :
  (cur < n)%nat -> (i < n)%nat ->
  exists k, (1 <= k <= n)%nat /\ ((cur + k) mod n)%nat = i.
Proof.
  intros Hc Hi. destruct (decide (cur < i)%nat) as [Hlt|Hge].
  - exists (i - cur)%nat. split; [lia|].
    replace (cur + (i - cur))%nat with i by lia. by apply Nat.mod_small.
  - exists (n + i - cur)%nat. split; [lia|].
    replace (cur + (n + i - cur))%nat with (i + 1 * n)%nat by lia.
    rewrite Nat.Div0.mod_add. by apply Nat.mod_small.
Qed.

(** C8, as amended.  [endTurn()] does nothing before the rolled flag is set
    (by a roll, a stay in jail or a jail card).  Once it is set, and while
    some player is not bankrupt, it returns, makes the next non-bankrupt
    player in cyclic roster order the active player and resets the flag; it
    changes nothing else, so a pending trade offer stays pending. *)
Theorem endTurn_advances_to_next_solvent
    (fuel : nat) (s : GameState) (i : nat) :
  (currentPlayer s < length (players s))%nat ->
  (i < length (players s))%nat ->
  i ∉ bankruptPlayers s ->
  (length (players s) <= fuel)%nat ->
  let n := length (players s) in
  let cur := currentPlayer s in
  (hasRolled s = false -> endTurn fuel s s = Done s)
  /\ (hasRolled s = true ->
      exists k,
        (1 <= k <= n)%nat
        /\ endTurn fuel s s
           = Done (setCurrentPlayer ((cur + k) mod n)%nat
                     (setHasRolled false s))
        /\ (((cur + k) mod n)%nat ∉ bankruptPlayers s)
        /\ (forall j, (1 <= j < k)%nat ->
              ((cur + j) mod n)%nat ∈ bankruptPlayers s)
        /\ pendingTrade
             (setCurrentPlayer ((cur + k) mod n)%nat (setHasRolled false s))
           = pendingTrade s).
Proof.
  intros Hcur Hi Hfree Hfuel n cur. split.
  - intros H. unfold endTurn. by rewrite H.
  - intros H. unfold endTurn, derefPlayer. rewrite H. simpl.
    destruct (lookup_lt_is_Some_2 _ _ Hcur) as [p ->].
    destruct (cyclic_reach n cur i Hcur Hi) as (k0 & Hk0 & Hreach).
    destruct (nextActive_first n (bankruptPlayers s) fuel cur k0)
      as (k & Hk & Hnext & Hout & Hin).
    { subst n. lia. }
    { by rewrite Hreach. }
    exists k. fold n cur. rewrite Hnext.
    repeat split; try done; lia.
Qed.

Lemma endTurn_advances_to_next_solvent_witness :
  (hasRolled stateEndOfTurn = false ->
   endTurn 3 stateEndOfTurn stateEndOfTurn = Done stateEndOfTurn)
  /\ (hasRolled stateEndOfTurn = true ->
      exists k,
        (1 <= k <= 3)%nat
        /\ endTurn 3 stateEndOfTurn stateEndOfTurn
           = Done (setCurrentPlayer ((0 + k) mod 3)%nat
                     (setHasRolled false stateEndOfTurn))
        /\ (((0 + k) mod 3)%nat ∉ bankruptPlayers stateEndOfTurn)
        /\ (forall j, (1 <= j < k)%nat ->
              ((0 + j) mod 3)%nat ∈ bankruptPlayers stateEndOfTurn)
        /\ pendingTrade
             (setCurrentPlayer ((0 + k) mod 3)%nat
                (setHasRolled false stateEndOfTurn))
           = pendingTrade stateEndOfTurn).
Proof.
  apply (endTurn_advances_to_next_solvent 3 stateEndOfTurn 2);
    [simpl; lia | simpl; lia | | simpl; lia].
  intros H. apply list_elem_of_singleton in H. discriminate.
Defined.

(** On that state the turn passes from Ann over bankrupt Bob to Cid. *)
Lemma endTurn_skips_bankrupt_player :
  exists s',
    endTurn 3 stateEndOfTurn stateEndOfTurn = Done s'
    /\ currentPlayer s' = 2%nat /\ hasRolled s' = false.
Proof. eexists. repeat split; reflexivity. Qed.

(** When every player is bankrupt the search never ends: no amount of fuel
    yields a next player. *)
Lemma nextActive_all_bankrupt (n : nat) (bankrupt : list nat)
    (fuel cur : nat) :
  (forall i, (i < n)%nat -> i ∈ bankrupt) -> (0 < n)%nat ->
  nextActive fuel n bankrupt cur = None.
Proof.
  intros Hall Hn. revert cur. induction fuel as [|fuel IH]; intros cur; [done|].
  cbn [nextActive]. rewrite decide_True; [apply IH|].
  apply Hall. apply Nat.mod_upper_bound. lia.
Qed.

(** C8 as stated fails: ending the turn leaves the pending offer in place. *)
Lemma endTurn_pending_trade_counterexample :
  ~ (forall s', endTurn 3 stateEndOfTurn stateEndOfTurn = Done s' ->
       currentPlayer s' = 2%nat /\ hasRolled s' = false
       /\ pendingTrade s' = None).
Proof.
  intros H.
  destruct (H _ eq_refl) as (_ & _ & Hpending). discriminate Hpending.
Qed.

(** The [Stay in Jail] button sets the rolled flag and then calls the
    [endTurn] of the render it belongs to, which still reads the flag as
    unset: the turn does not pass yet, and it can be ended afterwards. *)
Lemma stayInJail_sets_flag_only (fuel : nat) (s : GameState) :
  hasRolled s = false ->
  exists s',
    stayInJail fuel s s = Done s'
    /\ hasRolled s' = true
    /\ currentPlayer s' = currentPlayer s.
Proof.
  intros H. unfold stayInJail, endTurn. rewrite H. simpl.
  eexists. repeat split.
Qed.

(** *** Building houses *)

Lemma list_min_le (l : list Z) (m x : Z) :
  list_min l = Some m -> In x l -> m <= x.
Proof.
  destruct l as [|y l]; [done|]. simpl. intros [= <-].
  revert x. induction l as [|z l IH]; intros x; simpl.
  - intros [->|[]]. lia.
  - intros [->|[->|Hin]].
    + specialize (IH x (or_introl eq_refl)). lia.
    + lia.
    + specialize (IH x (or_intror Hin)). lia.
Qed.

Lemma ownsFullColorSet_owns (boardCells : list Cell) (s : GameState)
    (cell c : Cell) :
  ownsFullColorSet boardCells s cell = true ->
  c ∈ boardCells -> cell_type c = property ->
  cell_color c = cell_color cell ->
  ownership s !! cell_id c = Some (currentPlayer s).
Proof.
  unfold ownsFullColorSet. intros H Hin Hty Hcol.
  destruct (colorTruthy (cell_color cell)); [|done]. simpl in H.
  rewrite forallb_forall in H.
  specialize (H c). eapply bool_decide_eq_true_1. apply H.
  apply list_elem_of_In. unfold sameColorCells.
  apply list_elem_of_filter. by split.
Qed.

(** The human path to [buildHouse]: a click in the asset dialog changes the
    state only when the active player owns the whole colour group, the cell
    is not mortgaged, it carries fewer than 5 houses and no more than any
    cell of its group, and the player can pay; the change is then one more
    house and the cost debited. *)
Lemma clickBuild_checks_everything
    (boardCells : list Cell) (s s' : GameState) (k : nat) (cell : Cell)
    (p : Player) :
  boardCells !! k = Some cell -> cell_id cell = k ->
  players s !! currentPlayer s = Some p ->
  clickBuild boardCells s k s = Done s' -> s' <> s ->
  (forall c, c ∈ boardCells -> cell_type c = property ->
     cell_color c = cell_color cell ->
     ownership s !! cell_id c = Some (currentPlayer s)
     /\ houseCountIn (houses s) k <= houseCountIn (houses s) (cell_id c))
  /\ isMortgagedIn (mortgaged s) k = false
  /\ houseCountIn (houses s) k < 5
  /\ cell_houseCost cell <= money p
  /\ s' = updateMoney (currentPlayer s) (- cell_houseCost cell)
            (setHouses (<[k := houseCountIn (houses s) k + 1]> (houses s)) s).
Proof.
  intros Hk Hid Hp Hrun Hchg. unfold clickBuild in Hrun. rewrite Hk in Hrun.
  destruct (buildButtonEnabled boardCells s k) eqn:Hbtn;
    [|injection Hrun as <-; done].
  unfold buildButtonEnabled in Hbtn. rewrite Hp, Hk, Hid in Hbtn.
  apply andb_prop in Hbtn as [Hbtn Hpay].
  apply andb_prop in Hbtn as [Hbtn Hmort].
  apply negb_true_iff in Hmort, Hpay.
  apply orb_false_elim in Hpay as [Hcash Hcap].
  apply Z.ltb_ge in Hcash. apply Z.leb_gt in Hcap.
  unfold onBuildHouse in Hrun. rewrite Hid, Hk in Hrun.
  destruct (canBuildHere boardCells s cell) eqn:Hcan;
    [|injection Hrun as <-; done].
  simpl in Hrun. unfold canBuildHere in Hcan.
  destruct (ownsFullColorSet boardCells s cell) eqn:Hfull; [|done].
  simpl in Hcan.
  destruct (list_min (groupCounts boardCells s cell)) as [m|] eqn:Hmin;
    [|done].
  apply Z.eqb_eq in Hcan. rewrite Hid in Hcan.
  unfold buildHouse in Hrun. rewrite Hp in Hrun.
  assert ((5 <=? houseCountIn (houses s) k) = false) as Hcap'
    by (by apply Z.leb_gt).
  assert ((money p <? cell_houseCost cell) = false) as Hcash'
    by (by apply Z.ltb_ge).
  rewrite Hcap', Hcash' in Hrun. injection Hrun as <-.
  repeat split; try done.
  - by apply (ownsFullColorSet_owns boardCells s cell c).
  - rewrite Hcan. apply (list_min_le _ _ _ Hmin).
    unfold groupCounts. apply in_map_iff. exists c. split; [done|].
    apply list_elem_of_In. unfold sameColorCells.
    apply list_elem_of_filter. by split.
Qed.

(** The example of the specification on the human path: with counts 1, 1
    and 0 a click on a street with one house builds nothing; after a house
    on the third street the same click builds. *)
Lemma clickBuild_even_build_example :
  clickBuild sampleBoard stateUnevenGroup 6 stateUnevenGroup
  = Done stateUnevenGroup
  /\ exists s1 s2,
       clickBuild sampleBoard stateUnevenGroup 9 stateUnevenGroup = Done s1
       /\ houses s1 !! 9%nat = Some 1
       /\ cashOf s1 0 = Some 1450
       /\ clickBuild sampleBoard s1 6 s1 = Done s2
       /\ houses s2 !! 6%nat = Some 2
       /\ cashOf s2 0 = Some 1400.
Proof.
  split; [reflexivity|]. eexists _, _. repeat split; reflexivity.
Qed.

(** C7 (the code departs from it).  The executor of an automated player's
    actions hands a [build] action straight to [buildHouse]: with fewer than
    5 houses on the cell and the cost in hand the house is built and paid
    for, whoever owns the cell or the rest of its colour group, whether or
    not the cell is mortgaged and however the houses of the group are
    spread. *)
Theorem executeAIAction_build_skips_legality
    (boardCells : list Cell) (fuel : nat) (s : GameState) (cellId : nat)
    (cell : Cell) (cash : Z) :
  boardCells !! cellId = Some cell ->
  cashOf s (currentPlayer s) = Some cash ->
  houseCountIn (houses s) cellId < 5 ->
  cell_houseCost cell <= cash ->
  exists s',
    executeAIAction boardCells fuel s (ABuild cellId) s = Done s'
    /\ houses s' = <[cellId := houseCountIn (houses s) cellId + 1]> (houses s)
    /\ cashOf s' (currentPlayer s) = Some (cash - cell_houseCost cell)
    /\ ownership s' = ownership s
    /\ mortgaged s' = mortgaged s.
Proof.
  intros Hcell Hcash Hcap Hpay.
  unfold executeAIAction, buildHouse. rewrite Hcell.
  unfold cashOf in Hcash.
  destruct (players s !! currentPlayer s) as [p|] eqn:Hp; [|done].
  simpl in Hcash. injection Hcash as Hcash.
  assert ((5 <=? houseCountIn (houses s) cellId) = false) as ->
    by (by apply Z.leb_gt).
  assert ((money p <? cell_houseCost cell) = false) as ->
    by (apply Z.ltb_ge; lia).
  eexists. split; [reflexivity|]. repeat split.
  rewrite (cashOf_updateMoney_eq _ _ _ cash); [f_equal; lia|].
  unfold cashOf. simpl. rewrite Hp. simpl. by f_equal.
Qed.

(** Bot owns one street out of three of the colour, and it is mortgaged;
    the [build] action on it still builds. *)
Lemma executeAIAction_build_skips_legality_witness :
  exists s',
    executeAIAction sampleBoard 0 stateBotPartialSet (ABuild 6)
      stateBotPartialSet = Done s'
    /\ houses s'
       = <[6%nat := houseCountIn (houses stateBotPartialSet) 6 + 1]>
           (houses stateBotPartialSet)
    /\ cashOf s' 1 = Some (1500 - 50)
    /\ ownership s' = ownership stateBotPartialSet
    /\ mortgaged s' = mortgaged stateBotPartialSet.
Proof.
  apply (executeAIAction_build_skips_legality sampleBoard 0
           stateBotPartialSet 6 (sampleCell 6) 1500);
    first [reflexivity | simpl; lia].
Defined.

(** On that state none of the conditions on ownership and mortgage holds,
    and the same request made through the asset dialog builds nothing. *)
Lemma build_on_partial_set_paths_differ :
  ownsFullColorSet sampleBoard stateBotPartialSet (sampleCell 6) = false
  /\ isMortgagedIn (mortgaged stateBotPartialSet) 6 = true
  /\ clickBuild sampleBoard stateBotPartialSet 6 stateBotPartialSet
     = Done stateBotPartialSet
  /\ exists s',
       executeAIAction sampleBoard 0 stateBotPartialSet (ABuild 6)
         stateBotPartialSet = Done s'
       /\ houses s' !! 6%nat = Some 1
       /\ cashOf s' 1 = Some 1450.
Proof.
  repeat split. eexists. repeat split; reflexivity.
Qed.

(** The handler [onBuildHouse] does not read the mortgage map: the test
    sits in the dialog, which does not render the button for a mortgaged
    cell. *)
Lemma onBuildHouse_ignores_mortgage :
  isMortgagedIn (mortgaged stateMortgagedStreet) 1 = true
  /\ clickBuild sampleBoard stateMortgagedStreet 1 stateMortgagedStreet
     = Done stateMortgagedStreet
  /\ exists s',
       onBuildHouse sampleBoard stateMortgagedStreet 1 stateMortgagedStreet
       = Done s'
       /\ houses s' !! 1%nat = Some 1
       /\ cashOf s' 0 = Some 1450.
Proof.
  repeat split. eexists. repeat split; reflexivity.
Qed.

(** *** Lifting a mortgage through the asset dialog *)

(** The human path to [unmortgageProperty]: the button is disabled while the
    player's cash is below the cost, so the click changes nothing. *)
Lemma clickUnmortgage_short_of_cash
    (boardCells : list Cell) (s : GameState) (k : nat) (cell : Cell)
    (cash : Z) :
  boardCells !! k = Some cell ->
  cashOf s (currentPlayer s) = Some cash ->
  cash < unmortgageCost cell ->
  clickUnmortgage boardCells s k s = s.
Proof.
  intros Hk Hcash Hlt. unfold clickUnmortgage, unmortgageButtonEnabled.
  rewrite Hk. unfold cashOf in Hcash.
  destruct (players s !! currentPlayer s) as [p|]; [|done].
  simpl in Hcash. injection Hcash as <-.
  assert ((money p <? unmortgageCost cell) = true) as ->
    by (by apply Z.ltb_lt).
  simpl. by rewrite !andb_false_r.
Qed.

(** With the cost in hand the click debits [floor(mortgage * 1.1)] and
    clears the flag. *)
Lemma clickUnmortgage_affordable
    (boardCells : list Cell) (s : GameState) (k : nat) (cell : Cell)
    (cash : Z) :
  boardCells !! k = Some cell ->
  ownership s !! k = Some (currentPlayer s) ->
  isMortgagedIn (mortgaged s) (cell_id cell) = true ->
  cashOf s (currentPlayer s) = Some cash ->
  unmortgageCost cell <= cash ->
  cashOf (clickUnmortgage boardCells s k s) (currentPlayer s)
  = Some (cash - unmortgageCost cell)
  /\ mortgaged (clickUnmortgage boardCells s k s) !! cell_id cell = Some false.
Proof.
  intros Hk Hown Hmort Hcash Hle.
  assert (Hbtn : unmortgageButtonEnabled boardCells s k = true).
  { unfold unmortgageButtonEnabled. rewrite Hk, Hmort.
    unfold cashOf in Hcash.
    destruct (players s !! currentPlayer s) as [p|]; [|done].
    simpl in Hcash. injection Hcash as <-.
    rewrite bool_decide_eq_true_2 by done.
    assert ((money p <? unmortgageCost cell) = false) as ->
      by (by apply Z.ltb_ge).
    done. }
  unfold clickUnmortgage. rewrite Hk, Hbtn. split.
  - by apply unmortgageProperty_affordable.
  - rewrite unmortgageProperty_mortgaged. apply lookup_insert_eq.
Qed.

(** ** Cash in circulation *)

Lemma sum_money_insert (l : list Player) (i : nat) (p q : Player) :
  l !! i = Some p ->
  foldr (fun x acc => money x + acc) 0 (<[i := q]> l)
  = foldr (fun x acc => money x + acc) 0 l - money p + money q.
Proof.
  revert i. induction l as [|x l IH]; intros i H; [done|].
  destruct i as [|i]; simpl in *.
  - injection H as ->. lia.
  - rewrite (IH i H). lia.
Qed.

Lemma totalCash_updateMoney (st : GameState) (i : nat) (a : Z) :
  (i < length (players st))%nat ->
  totalCash (updateMoney i a st) = totalCash st + a.
Proof.
  intros Hi. destruct (lookup_lt_is_Some_2 _ _ Hi) as [p Hp].
  unfold totalCash, updateMoney. simpl.
  rewrite (mapPlayer_insert _ _ _ _ Hp), (sum_money_insert _ _ p) by done.
  simpl. lia.
Qed.

Lemma length_updateMoney (st : GameState) (i : nat) (a : Z) :
  length (players (updateMoney i a st)) = length (players st).
Proof. apply length_mapPlayer. Qed.

Lemma totalCash_transfer (st : GameState) (a b : nat) (amt : Z) :
  (a < length (players st))%nat -> (b < length (players st))%nat ->
  totalCash (updateMoney b amt (updateMoney a (- amt) st)) = totalCash st.
Proof.
  intros Ha Hb.
  rewrite totalCash_updateMoney by (by rewrite length_updateMoney).
  rewrite totalCash_updateMoney by done. lia.
Qed.

(** X1.  Accepting a trade between two players of the roster moves cash but
    creates and destroys none: the players' total cash is the same before and
    after, whatever the offer. *)
Theorem applyTrade_conserves_cash (trade : Trade) (st : GameState) :
  (from trade < length (players st))%nat ->
  (to trade < length (players st))%nat ->
  totalCash (applyTrade trade st) = totalCash st
  /\ length (players (applyTrade trade st)) = length (players st).
Proof.
  intros Hf Ht. unfold applyTrade.
  set (st1 := setOwnership _ st).
  assert (H1 : totalCash st1 = totalCash st
               /\ length (players st1) = length (players st)) by done.
  clearbody st1.
  set (st2 := if 0 <? giveMoney (offer trade) then _ else st1).
  assert (H2 : totalCash st2 = totalCash st
               /\ length (players st2) = length (players st)).
  { subst st2. destruct H1 as [H1 L1].
    destruct (0 <? giveMoney (offer trade)); [|done]. split.
    - rewrite totalCash_transfer by (by rewrite L1). done.
    - by rewrite !length_updateMoney. }
  clearbody st2.
  set (st3 := if 0 <? takeMoney (offer trade) then _ else st2).
  assert (H3 : totalCash st3 = totalCash st
               /\ length (players st3) = length (players st)).
  { subst st3. destruct H2 as [H2 L2].
    destruct (0 <? takeMoney (offer trade)); [|done]. split.
    - rewrite totalCash_transfer by (by rewrite L2). done.
    - by rewrite !length_updateMoney. }
  exact H3.
Qed.

Lemma applyTrade_conserves_cash_witness :
  totalCash (applyTrade staleTrade stateStaleTrade) = totalCash stateStaleTrade
  /\ length (players (applyTrade staleTrade stateStaleTrade))
     = length (players stateStaleTrade).
Proof.
  apply (applyTrade_conserves_cash staleTrade stateStaleTrade); simpl; lia.
Defined.

(** ** What landing and chance cards never touch *)

Lemma sameBooks_refl (st : GameState) : sameBooks st st.
Proof. by repeat split. Qed.

Lemma sameBooks_trans (a b c : GameState) :
  sameBooks a b -> sameBooks b c -> sameBooks a c.
Proof.
  intros (?&?&?&?&?&?) (?&?&?&?&?&?). repeat split; congruence.
Qed.

Lemma sameBooks_setPlayers (st : GameState) (l : list Player) :
  length l = length (players st) -> sameBooks st (setPlayers l st).
Proof. intros H. by repeat split. Qed.

Lemma sameBooks_mapPlayer (st : GameState) (who : nat)
    (f : Player -> Player) :
  sameBooks st (setPlayers (mapPlayer who f (players st)) st).
Proof. apply sameBooks_setPlayers, length_mapPlayer. Qed.

Lemma sameBooks_updateMoney (st : GameState) (i : nat) (a : Z) :
  sameBooks st (updateMoney i a st).
Proof. apply sameBooks_mapPlayer. Qed.

Lemma sameBooks_sendToJail (st : GameState) (i : nat) :
  sameBooks st (sendToJail i st).
Proof. apply sameBooks_mapPlayer. Qed.

Lemma sameBooks_setChanceCard (a b : GameState) (c : option Card) :
  sameBooks a b -> sameBooks a (setChanceCard c b).
Proof. intros (?&?&?&?&?&?). by repeat split. Qed.

Lemma sameBooks_setHasRolled (a b : GameState) (v : bool) :
  sameBooks a b -> sameBooks a (setHasRolled v b).
Proof. intros (?&?&?&?&?&?). by repeat split. Qed.

Lemma leaves_step (R : GameState -> GameState -> Prop) (a b : GameState)
    (o : outcome) :
  (forall x y z, R x y -> R y z -> R x z) ->
  R a b -> leaves R b o -> leaves R a o.
Proof. intros Htr Hab Ho. destruct o; simpl in *; eauto. Qed.

Lemma leaves_omap (R : GameState -> GameState -> Prop) (a : GameState)
    (o : outcome) (f : GameState -> GameState) :
  (forall x y z, R x y -> R y z -> R x z) ->
  (forall x, R x (f x)) ->
  leaves R a o -> leaves R a (omap f o).
Proof. intros Htr Hf Ho. destruct o; simpl in *; eauto. Qed.

Lemma leaves_derefPlayer (R : GameState -> GameState -> Prop)
    (snap a st : GameState) (i : nat) (k : Player -> outcome) :
  R a st -> (forall p, leaves R a (k p)) ->
  leaves R a (derefPlayer snap i st k).
Proof. intros H Hk. unfold derefPlayer. by destruct (players snap !! i). Qed.

Lemma sameBooks_transferAll (snap : GameState) (sign amount : Z) (n i : nat)
    (st : GameState) :
  sameBooks st (transferAll snap sign amount i n st).
Proof.
  revert i st. induction n as [|n IH]; intros i st; simpl.
  - apply sameBooks_refl.
  - eapply sameBooks_trans; [|apply IH].
    destruct (_ && _); [|apply sameBooks_refl].
    eapply sameBooks_trans; apply sameBooks_updateMoney.
Qed.

Lemma movePlayerTo_with_leaves_books (boardCells : list Cell) (hca : landing)
    (snap st : GameState) (target : jsnum) (award : bool) :
  (forall c b o x, leaves sameBooks x (hca c b o x)) ->
  leaves sameBooks st (movePlayerTo_with boardCells hca snap target award st).
Proof.
  intros Hh. unfold movePlayerTo_with.
  apply leaves_derefPlayer; [apply sameBooks_refl|]. intros p.
  eapply leaves_step; [apply sameBooks_trans| |apply Hh].
  apply sameBooks_mapPlayer.
Qed.

Lemma applyChance_with_leaves_books (boardCells : list Cell) (hca : landing)
    (snap st : GameState) (card : Card) (base : optnum) :
  (forall c b o x, leaves sameBooks x (hca c b o x)) ->
  leaves sameBooks st (applyChance_with boardCells hca snap card base st).
Proof.
  intros Hh. unfold applyChance_with.
  apply leaves_derefPlayer; [apply sameBooks_refl|]. intros p.
  assert (Hclear : forall x, sameBooks x (setChanceCard None x))
    by (intros x; apply sameBooks_setChanceCard, sameBooks_refl).
  destruct (effect card); simpl.
  - apply sameBooks_setChanceCard, sameBooks_updateMoney.
  - apply leaves_omap; [apply sameBooks_trans|done|].
    by apply movePlayerTo_with_leaves_books.
  - apply leaves_omap; [apply sameBooks_trans|done|].
    by apply movePlayerTo_with_leaves_books.
  - apply sameBooks_setHasRolled, sameBooks_setChanceCard,
      sameBooks_sendToJail.
  - apply sameBooks_setChanceCard, sameBooks_mapPlayer.
  - apply sameBooks_setChanceCard, sameBooks_transferAll.
  - apply sameBooks_setChanceCard, sameBooks_transferAll.
  - apply sameBooks_setChanceCard.
    destruct (0 <? _); [apply sameBooks_updateMoney|apply sameBooks_refl].
Qed.

(** Landing resolution leaves the books alone, by induction on the fuel. *)
Lemma handleCellAction_sameBooks
    (boardCells : list Cell) (fuel : nat) (snap : GameState)
    (cell : option Cell) (silent : bool) (opt : optnum) (st : GameState) :
  leaves sameBooks st
    (handleCellAction boardCells fuel snap cell silent opt st).
Proof.
  revert cell silent opt st.
  induction fuel as [|fuel IH]; intros cell silent opt st; [done|].
  cbn [handleCellAction]. destruct cell as [cell|]; [|apply sameBooks_refl].
  assert (Hrent : leaves sameBooks st
            match ownership snap !! cell_id cell with
            | Some owner =>
                if isMortgagedIn (mortgaged snap) (cell_id cell) then Done st
                else if decide (owner = currentPlayer snap) then Done st
                else match rentOf boardCells snap cell owner with
                     | Some rent =>
                         if 0 <? rent
                         then derefPlayer snap (currentPlayer snap)
                                (updateMoney owner rent
                                   (updateMoney (currentPlayer snap)
                                      (- rent) st))
                                (fun _ =>
                                   derefPlayer snap owner
                                     (updateMoney owner rent
                                        (updateMoney (currentPlayer snap)
                                           (- rent) st))
                                     (fun _ =>
                                        Done
                                          (updateMoney owner rent
                                             (updateMoney
                                                (currentPlayer snap)
                                                (- rent) st))))
                         else Done st
                     | None => Done st
                     end
            | None => Done (if silent then st
                            else setActiveCell (Some cell) st)
            end).
  { destruct (ownership snap !! cell_id cell) as [o|].
    - destruct (isMortgagedIn _ _); [apply sameBooks_refl|].
      destruct (decide _); [apply sameBooks_refl|].
      destruct (rentOf _ _ _ _) as [r|]; [|apply sameBooks_refl].
      destruct (0 <? r); [|apply sameBooks_refl].
      assert (Hpay : sameBooks st
                (updateMoney o r (updateMoney (currentPlayer snap) (- r) st))).
      { eapply sameBooks_trans; apply sameBooks_updateMoney. }
      apply leaves_derefPlayer; [done|]. intros _.
      apply leaves_derefPlayer; done.
    - destruct silent; simpl; [apply sameBooks_refl|by repeat split]. }
  destruct (cell_type cell); try exact Hrent.
  - apply leaves_derefPlayer; [apply sameBooks_updateMoney|].
    intros _. apply sameBooks_updateMoney.
  - destruct (chanceCards !! chanceIndex snap) as [card|].
    + destruct silent; [|by repeat split].
      eapply leaves_step; [apply sameBooks_trans| |].
      2:{ apply applyChance_with_leaves_books. intros. apply IH. }
      by repeat split.
    + destruct silent; simpl; by repeat split.
  - apply leaves_derefPlayer; [apply sameBooks_sendToJail|].
    intros _. apply sameBooks_sendToJail.
  - apply sameBooks_refl.
Qed.

(** X2.  Landing resolution and everything it triggers (rent, tax, jail, a
    chance card applied at once for an automated player, the moves and
    landings that card causes) never changes who owns what, what is
    mortgaged, the houses, the list of bankrupt players, whose turn it is or
    the number of players, whether the handler ends or throws. *)
Theorem handleCellAction_leaves_books
    (boardCells : list Cell) (fuel : nat) (snap : GameState)
    (cell : option Cell) (silent : bool) (opt : optnum) (st : GameState) :
  leaves sameBooks st
    (handleCellAction boardCells fuel snap cell silent opt st)
  /\ forall card,
       leaves sameBooks st (applyChance boardCells fuel snap card opt st).
Proof.
  split; [apply handleCellAction_sameBooks|].
  intros card. apply applyChance_with_leaves_books. intros.
  apply handleCellAction_sameBooks.
Qed.

(** ** Cash moved by landing and by the cards that involve every player *)

Lemma mapPlayer_out_of_range (who : nat) (f : Player -> Player)
    (l : list Player) :
  (length l <= who)%nat -> mapPlayer who f l = l.
Proof.
  intros H. apply list_eq. intros i. rewrite lookup_mapPlayer.
  destruct (l !! i) as [p|] eqn:E; [|done]. simpl.
  apply lookup_lt_Some in E. destruct (decide (i = who)); [lia|done].
Qed.

Lemma totalCash_mapPlayer_same_money (st : GameState) (who : nat)
    (f : Player -> Player) :
  (forall p, money (f p) = money p) ->
  totalCash (setPlayers (mapPlayer who f (players st)) st) = totalCash st.
Proof.
  intros Hf. unfold totalCash. simpl.
  destruct (decide (who < length (players st))%nat) as [Hlt|Hge].
  - destruct (lookup_lt_is_Some_2 _ _ Hlt) as [p Hp].
    rewrite (mapPlayer_insert _ _ _ _ Hp), (sum_money_insert _ _ p) by done.
    rewrite Hf. lia.
  - rewrite mapPlayer_out_of_range by lia. done.
Qed.

(** X3.  For a human player, with every owner in the roster, landing
    resolution returns, and the players' total cash changes on a tax cell
    only, by the cell's amount: rent moves cash between two players, jail and
    a drawn card (not yet accepted) move none. *)
Theorem landing_changes_total_cash_by_tax_only
    (boardCells : list Cell) (fuel : nat) (s : GameState) (cell : Cell)
    (opt : optnum) (p : Player) :
  players s !! currentPlayer s = Some p ->
  ownersValid s ->
  exists s',
    handleCellAction boardCells (S fuel) s (Some cell) false opt s = Done s'
    /\ totalCash s'
       = totalCash s
         - (if decide (cell_type cell = tax) then cell_amount cell else 0).
Proof.
  intros Hp Hvalid. cbn [handleCellAction]. unfold derefPlayer. rewrite Hp.
  assert (Hcur : (currentPlayer s < length (players s))%nat)
    by (by eapply lookup_lt_Some).
  destruct (cell_type cell) eqn:Hty;
    rewrite ?decide_False by discriminate; rewrite ?decide_True by done.
  1-3: destruct (ownership s !! cell_id cell) as [o|] eqn:Ho;
    [|eexists; split; [reflexivity|unfold totalCash; simpl; lia]].
  1-3: destruct (isMortgagedIn (mortgaged s) (cell_id cell));
    [eexists; split; [reflexivity|lia]|].
  1-3: destruct (decide (o = currentPlayer s));
    [eexists; split; [reflexivity|lia]|].
  1-3: destruct (rentOf boardCells s cell o) as [r|];
    [|eexists; split; [reflexivity|lia]].
  1-3: destruct (0 <? r); [|eexists; split; [reflexivity|lia]].
  1-3: pose proof (Hvalid _ _ Ho) as Hlt; simpl in Hlt.
  1-3: destruct (lookup_lt_is_Some_2 (players s) o Hlt) as [q ->].
  1-3: eexists; split; [reflexivity|].
  1-3: rewrite totalCash_transfer by done; lia.
  - eexists. split; [reflexivity|].
    rewrite totalCash_updateMoney by done. lia.
  - destruct (chanceCards !! chanceIndex s);
      eexists; (split; [reflexivity|]); simpl; unfold totalCash; simpl; lia.
  - eexists. split; [reflexivity|].
    unfold sendToJail. rewrite totalCash_mapPlayer_same_money by done. lia.
  - eexists. split; [reflexivity|]. lia.
Qed.

Lemma landing_changes_total_cash_by_tax_only_witness :
  exists s',
    handleCellAction sampleBoard 1 stateAtCell35 (Some (sampleCell 4)) false
      ONull stateAtCell35 = Done s'
    /\ totalCash s'
       = totalCash stateAtCell35
         - (if decide (cell_type (sampleCell 4) = tax)
            then cell_amount (sampleCell 4) else 0).
Proof.
  apply (landing_changes_total_cash_by_tax_only sampleBoard 0 stateAtCell35
           (sampleCell 4) ONull (newPlayer "Ann" human 1500 35));
    [reflexivity|apply map_Forall_empty].
Defined.

Lemma cashOf_updateMoney (st : GameState) (i j : nat) (a c : Z) :
  cashOf st j = Some c ->
  cashOf (updateMoney i a st) j = Some (if decide (j = i) then c + a else c).
Proof.
  intros H. destruct (decide (j = i)) as [->|Hne].
  - by apply cashOf_updateMoney_eq.
  - by rewrite cashOf_updateMoney_ne.
Qed.

Lemma transferAll_cash (snap : GameState) (sign amount : Z) (n i j : nat)
    (st : GameState) (c : Z) :
  cashOf st j = Some c ->
  cashOf (transferAll snap sign amount i n st) j
  = Some (if decide (j = currentPlayer snap)
          then c + sign * amount * Z.of_nat (length (solventOthers snap i n))
          else if decide (j ∈ solventOthers snap i n)
               then c - sign * amount else c).
Proof.
  revert i st c. induction n as [|n IH]; intros i st c Hc.
  - simpl. unfold solventOthers. rewrite Hc. f_equal.
    destruct (decide (j = currentPlayer snap)); [simpl; lia|done].
  - cbn [transferAll]. unfold solventOthers in *. cbn [seq].
    rewrite filter_cons.
    destruct (decide (i <> currentPlayer snap /\ i ∉ bankruptPlayers snap))
      as [[Hi1 Hi2]|Hno].
    + rewrite bool_decide_eq_true_2 by done.
      rewrite bool_decide_eq_true_2 by done. cbn [andb].
      erewrite IH.
      2:{ apply cashOf_updateMoney. by apply cashOf_updateMoney. }
      f_equal. cbn [length].
      repeat case_decide; try lia; exfalso.
      all: repeat match goal with
             | H : context [_ ∈ _ :: _] |- _ => rewrite elem_of_cons in H
             end.
      all: try match goal with
             | H : _ ∈ filter _ _ |- _ =>
                 pose proof H as Hf; apply list_elem_of_filter in Hf;
                 destruct Hf as [_ Hf]; apply elem_of_seq in Hf
             end.
      all: first [tauto | lia | intuition lia].
    + assert (Hb : bool_decide (i <> currentPlayer snap)
                   && bool_decide (i ∉ bankruptPlayers snap) = false).
      { apply andb_false_iff.
        destruct (decide (i <> currentPlayer snap)) as [H1|H1].
        - right. apply bool_decide_eq_false_2. tauto.
        - left. by apply bool_decide_eq_false_2. }
      rewrite Hb. by apply IH.
Qed.

Lemma totalCash_transferAll (snap : GameState) (sign amount : Z) (n i : nat)
    (st : GameState) :
  (currentPlayer snap < length (players st))%nat ->
  (i + n <= length (players st))%nat ->
  totalCash (transferAll snap sign amount i n st) = totalCash st.
Proof.
  revert i st. induction n as [|n IH]; intros i st Hcur Hin; [done|].
  cbn [transferAll]. destruct (_ && _).
  - rewrite IH; rewrite ?length_updateMoney; try lia.
    rewrite totalCash_updateMoney by (rewrite length_updateMoney; lia).
    rewrite totalCash_updateMoney by lia. lia.
  - apply IH; lia.
Qed.

(** X4.  The card that collects from every player credits the drawer the
    amount once for each other player who is not bankrupt and debits each of
    them the amount, whatever they hold; bankrupt players pay nothing, the
    total cash is unchanged and the card is cleared. *)
Theorem applyChance_collectFromAll
    (boardCells : list Cell) (fuel : nat) (s : GameState) (card : Card)
    (base : optnum) (amount : Z) (p : Player) :
  effect card = ECollectFromAll amount ->
  players s !! currentPlayer s = Some p ->
  let others := solventOthers s 0 (length (players s)) in
  exists s',
    applyChance boardCells fuel s card base s = Done s'
    /\ cashOf s' (currentPlayer s)
       = Some (money p + amount * Z.of_nat (length others))
    /\ (forall j q, j <> currentPlayer s -> players s !! j = Some q ->
          cashOf s' j
          = Some (if decide (j ∈ bankruptPlayers s) then money q
                  else money q - amount))
    /\ totalCash s' = totalCash s
    /\ chanceCard s' = None.
Proof.
  intros Heff Hp others.
  unfold applyChance, applyChance_with, derefPlayer. rewrite Hp, Heff.
  eexists. split; [reflexivity|]. repeat split.
  - change (cashOf (transferAll s 1 amount 0 (length (players s)) s)
              (currentPlayer s) = Some (money p + amount * Z.of_nat (length others))).
    erewrite transferAll_cash; [|unfold cashOf; by rewrite Hp].
    rewrite decide_True by done. f_equal. subst others. lia.
  - intros j q Hj Hq.
    change (cashOf (transferAll s 1 amount 0 (length (players s)) s) j
            = Some (if decide (j ∈ bankruptPlayers s) then money q
                    else money q - amount)).
    erewrite transferAll_cash; [|unfold cashOf; by rewrite Hq].
    rewrite decide_False by done. f_equal.
    destruct (decide (j ∈ bankruptPlayers s)) as [Hb|Hb].
    + rewrite decide_False; [done|].
      intros [[_ ?] _]%list_elem_of_filter. done.
    + rewrite decide_True; [lia|].
      apply list_elem_of_filter. split; [done|].
      apply elem_of_seq. apply lookup_lt_Some in Hq. lia.
  - change (totalCash (transferAll s 1 amount 0 (length (players s)) s)
            = totalCash s).
    apply totalCash_transferAll; [by eapply lookup_lt_Some|lia].
Qed.

(** X5.  The card that pays every player is the mirror image: each other
    player who is not bankrupt receives the amount and the drawer pays it
    once for each of them, even beyond the cash in hand. *)
Theorem applyChance_payAll
    (boardCells : list Cell) (fuel : nat) (s : GameState) (card : Card)
    (base : optnum) (amount : Z) (p : Player) :
  effect card = EPayAll amount ->
  players s !! currentPlayer s = Some p ->
  let others := solventOthers s 0 (length (players s)) in
  exists s',
    applyChance boardCells fuel s card base s = Done s'
    /\ cashOf s' (currentPlayer s)
       = Some (money p - amount * Z.of_nat (length others))
    /\ (forall j q, j <> currentPlayer s -> players s !! j = Some q ->
          cashOf s' j
          = Some (if decide (j ∈ bankruptPlayers s) then money q
                  else money q + amount))
    /\ totalCash s' = totalCash s
    /\ chanceCard s' = None.
Proof.
  intros Heff Hp others.
  unfold applyChance, applyChance_with, derefPlayer. rewrite Hp, Heff.
  eexists. split; [reflexivity|]. repeat split.
  - change (cashOf (transferAll s (-1) amount 0 (length (players s)) s)
              (currentPlayer s) = Some (money p - amount * Z.of_nat (length others))).
    erewrite transferAll_cash; [|unfold cashOf; by rewrite Hp].
    rewrite decide_True by done. f_equal. subst others. lia.
  - intros j q Hj Hq.
    change (cashOf (transferAll s (-1) amount 0 (length (players s)) s) j
            = Some (if decide (j ∈ bankruptPlayers s) then money q
                    else money q + amount)).
    erewrite transferAll_cash; [|unfold cashOf; by rewrite Hq].
    rewrite decide_False by done. f_equal.
    destruct (decide (j ∈ bankruptPlayers s)) as [Hb|Hb].
    + rewrite decide_False; [done|].
      intros [[_ ?] _]%list_elem_of_filter. done.
    + rewrite decide_True; [lia|].
      apply list_elem_of_filter. split; [done|].
      apply elem_of_seq. apply lookup_lt_Some in Hq. lia.
  - change (totalCash (transferAll s (-1) amount 0 (length (players s)) s)
            = totalCash s).
    apply totalCash_transferAll; [by eapply lookup_lt_Some|lia].
Qed.

Lemma applyChance_collectFromAll_witness :
  let others := solventOthers stateEndOfTurn 0 (length (players stateEndOfTurn)) in
  exists s',
    applyChance sampleBoard 0 stateEndOfTurn collectCard ONull stateEndOfTurn
    = Done s'
    /\ cashOf s' 0 = Some (900 + 20 * Z.of_nat (length others))
    /\ (forall j q, j <> 0%nat -> players stateEndOfTurn !! j = Some q ->
          cashOf s' j
          = Some (if decide (j ∈ bankruptPlayers stateEndOfTurn) then money q
                  else money q - 20))
    /\ totalCash s' = totalCash stateEndOfTurn
    /\ chanceCard s' = None.
Proof.
  apply (applyChance_collectFromAll sampleBoard 0 stateEndOfTurn collectCard
           ONull 20 (newPlayer "Ann" human 900 12)); reflexivity.
Defined.

Lemma applyChance_payAll_witness :
  let others := solventOthers stateEndOfTurn 0 (length (players stateEndOfTurn)) in
  exists s',
    applyChance sampleBoard 0 stateEndOfTurn payCard ONull stateEndOfTurn
    = Done s'
    /\ cashOf s' 0 = Some (900 - 10 * Z.of_nat (length others))
    /\ (forall j q, j <> 0%nat -> players stateEndOfTurn !! j = Some q ->
          cashOf s' j
          = Some (if decide (j ∈ bankruptPlayers stateEndOfTurn) then money q
                  else money q + 10))
    /\ totalCash s' = totalCash stateEndOfTurn
    /\ chanceCard s' = None.
Proof.
  apply (applyChance_payAll sampleBoard 0 stateEndOfTurn payCard
           ONull 10 (newPlayer "Ann" human 900 12)); reflexivity.
Defined.

(** ** The chance deck *)

Lemma drawsHuman_cursor (boardCells : list Cell) (n : nat) (cell : Cell)
    (s : GameState) :
  cell_type cell = chance ->
  (chanceIndex s < 15)%nat ->
  exists s',
    drawsHuman boardCells n cell s = Done s'
    /\ chanceIndex s' = ((chanceIndex s + n) mod 15)%nat
    /\ players s' = players s
    /\ (forall m, n = S m ->
          chanceCard s' = chanceCards !! ((chanceIndex s + m) mod 15)%nat).
Proof.
  intros Hty Hi. induction n as [|n IH].
  - exists s. split; [reflexivity|]. split; [|split; [done|done]].
    rewrite Nat.add_0_r. symmetry. by apply Nat.mod_small.
  - destruct IH as (s1 & Hrun & Hidx & Hpl & _).
    cbn [drawsHuman]. rewrite Hrun. cbn [obind handleCellAction].
    rewrite Hty.
    assert (Hlt : (chanceIndex s1 < length chanceCards)%nat).
    { rewrite Hidx. apply Nat.mod_upper_bound. done. }
    destruct (lookup_lt_is_Some_2 _ _ Hlt) as [card Hcard].
    rewrite Hcard. eexists. split; [reflexivity|].
    cbn [chanceIndex setChanceCard setChanceIndex players chanceCard].
    split; [|split; [done|]].
    + rewrite Hidx. change (length chanceCards) with 15%nat.
      rewrite Nat.Div0.add_mod_idemp_l. f_equal. lia.
    + intros m [= <-]. by rewrite <- Hidx.
Qed.

(** X6.  The deck is a fixed cycle of 15 cards: each landing of a human
    player on a chance cell shows the card under the cursor without applying
    it (the players are untouched until the card is accepted) and moves the
    cursor one step; after 15 landings the cursor is back where it started
    and the card shown is the one before it in the cycle, so nothing is ever
    shuffled. *)
Theorem chance_deck_is_a_fixed_cycle
    (boardCells : list Cell) (cell : Cell) (s : GameState) :
  cell_type cell = chance ->
  (chanceIndex s < 15)%nat ->
  (exists card s1,
      chanceCards !! chanceIndex s = Some card
      /\ drawsHuman boardCells 1 cell s = Done s1
      /\ chanceCard s1 = Some card
      /\ chanceIndex s1 = ((chanceIndex s + 1) mod 15)%nat
      /\ players s1 = players s)
  /\ (exists s15,
        drawsHuman boardCells 15 cell s = Done s15
        /\ chanceIndex s15 = chanceIndex s
        /\ chanceCard s15 = chanceCards !! ((chanceIndex s + 14) mod 15)%nat
        /\ players s15 = players s).
Proof.
  intros Hty Hi. split.
  - destruct (lookup_lt_is_Some_2 chanceCards (chanceIndex s) Hi)
      as [card Hcard].
    destruct (drawsHuman_cursor boardCells 1 cell s Hty Hi)
      as (s1 & Hrun & Hidx & Hpl & Hshown).
    exists card, s1. repeat split; try done.
    rewrite (Hshown 0%nat eq_refl), Nat.add_0_r, Nat.mod_small by done.
    done.
  - destruct (drawsHuman_cursor boardCells 15 cell s Hty Hi)
      as (s15 & Hrun & Hidx & Hpl & Hshown).
    exists s15. repeat split; try done.
    + rewrite Hidx.
      replace (chanceIndex s + 15)%nat with (chanceIndex s + 1 * 15)%nat
        by lia.
      rewrite Nat.Div0.mod_add. by apply Nat.mod_small.
    + by apply Hshown.
Qed.

Lemma chance_deck_is_a_fixed_cycle_witness :
  (exists card s1,
      chanceCards !! chanceIndex stateAtCell35 = Some card
      /\ drawsHuman sampleBoard 1 (sampleCell 7) stateAtCell35 = Done s1
      /\ chanceCard s1 = Some card
      /\ chanceIndex s1 = ((chanceIndex stateAtCell35 + 1) mod 15)%nat
      /\ players s1 = players stateAtCell35)
  /\ (exists s15,
        drawsHuman sampleBoard 15 (sampleCell 7) stateAtCell35 = Done s15
        /\ chanceIndex s15 = chanceIndex stateAtCell35
        /\ chanceCard s15
           = chanceCards !! ((chanceIndex stateAtCell35 + 14) mod 15)%nat
        /\ players s15 = players stateAtCell35).
Proof.
  apply (chance_deck_is_a_fixed_cycle sampleBoard (sampleCell 7)
           stateAtCell35); [reflexivity|simpl; lia].
Defined.



(** ** More on a human player's roll *)

Lemma wrap_test (pos d1 d2 : Z) :
  0 <= pos < 40 -> 1 <= d1 <= 6 -> 1 <= d2 <= 6 ->
  (40 <=? pos + d1 + d2) = ((pos + d1 + d2) mod 40 <? pos).
Proof.
  intros Hpos Hd1 Hd2.
  destruct (Z_lt_le_dec (pos + d1 + d2) 40) as [Hlt|Hge].
  - rewrite Z.mod_small by lia.
    transitivity false; [apply Z.leb_gt; lia|symmetry; apply Z.ltb_ge; lia].
  - replace (pos + d1 + d2) with (pos + d1 + d2 - 40 + 1 * 40) at 2 by lia.
    rewrite Z.mod_add by lia. rewrite Z.mod_small by lia.
    transitivity true; [apply Z.leb_le; lia|symmetry; apply Z.ltb_lt; lia].
Qed.

(** The roll of a human player, up to the call of landing resolution. *)
Lemma rollDice_human_steps
    (boardCells : list Cell) (fuel : nat) (s : GameState) (p : Player)
    (pos d1 d2 : Z) (cell : Cell) :
  isAITurn s = false -> rolling s = false -> hasRolled s = false ->
  players s !! currentPlayer s = Some p ->
  ptype p = human -> inJail p = false ->
  position p = Num pos ->
  displayPositions s !! currentPlayer s = Some (Num pos) ->
  0 <= pos < 40 -> 1 <= d1 <= 6 -> 1 <= d2 <= 6 ->
  js_index boardCells ((pos + d1 + d2) mod 40) = Some cell ->
  let newPosition := (pos + d1 + d2) mod 40 in
  let bonus := if newPosition <? pos then 200 else 0 in
  exists disp',
    rollDice boardCells fuel s d1 d2 s
    = omap (fun st => setHasRolled true (setRolling false st))
        (handleCellAction boardCells fuel s (Some cell) false ONull
           (setPlayers
              (<[currentPlayer s :=
                   withMove (Num newPosition) (money p + bonus) p]>
                 (players s))
              (setDisplayPositions disp'
                 (setDice (d1, d2) (setRolling true s))))).
Proof.
  intros Hai Hrolling Hrolled Hp Hhuman Hjail Hposition Hdisp Hpos Hd1 Hd2
    Hcell newPosition bonus.
  destruct (walk_spec (ticks (d1 + d2)) (currentPlayer s) pos false
              (displayPositions (setDice (d1, d2) (setRolling true s))) Hpos)
    as (disp' & Hwalk).
  assert (Hticks : Z.of_nat (ticks (d1 + d2)) = d1 + d2)
    by (unfold ticks; lia).
  rewrite Hticks, Z.add_assoc, wrap_test in Hwalk by done.
  fold newPosition in Hwalk. simpl in Hwalk.
  exists disp'. unfold rollDice, derefPlayer.
  rewrite Hai, Hrolling, Hrolled, Hp. simpl.
  rewrite Hhuman, Hjail.
  rewrite bool_decide_eq_false_2 by discriminate.
  rewrite bool_decide_eq_false_2 by discriminate.
  rewrite bool_decide_eq_false_2 by (apply lookup_lt_Some in Hp; lia).
  rewrite Hdisp. simpl. rewrite Hwalk.
  cbn [js_index_num]. fold newPosition in Hcell. rewrite Hcell.
  rewrite (mapPlayer_insert _ _ _ _ Hp). reflexivity.
Qed.

(** X8.  A roll that ends on the cell that sends to jail leaves the player
    on cell 10, in jail for 3 turns, with the cash of the move (the bonus of
    a wrap included) and the rolled flag set: the position reached by the
    dice is overwritten. *)
Theorem rollDice_onto_goto_jail
    (boardCells : list Cell) (fuel : nat) (s : GameState) (p : Player)
    (pos d1 d2 : Z) (cell : Cell) :
  isAITurn s = false -> rolling s = false -> hasRolled s = false ->
  players s !! currentPlayer s = Some p ->
  ptype p = human -> inJail p = false ->
  position p = Num pos ->
  displayPositions s !! currentPlayer s = Some (Num pos) ->
  0 <= pos < 40 -> 1 <= d1 <= 6 -> 1 <= d2 <= 6 ->
  js_index boardCells ((pos + d1 + d2) mod 40) = Some cell ->
  cell_type cell = goto_jail ->
  let newPosition := (pos + d1 + d2) mod 40 in
  let bonus := if newPosition <? pos then 200 else 0 in
  exists s',
    rollDice boardCells (S fuel) s d1 d2 s = Done s'
    /\ players s'
       = <[currentPlayer s :=
             mkPlayer (name p) human (money p + bonus) (Num 10) true 3
               (jailFreeCard p)]> (players s)
    /\ hasRolled s' = true
    /\ currentPlayer s' = currentPlayer s
    /\ activeCell s' = activeCell s.
Proof.
  intros Hai Hrolling Hrolled Hp Hhuman Hjail Hposition Hdisp Hpos Hd1 Hd2
    Hcell Hty newPosition bonus.
  destruct (rollDice_human_steps boardCells (S fuel) s p pos d1 d2 cell)
    as (disp' & ->); try done.
  cbn [handleCellAction]. rewrite Hty. unfold derefPlayer. rewrite Hp.
  eexists. split; [reflexivity|]. repeat split. simpl.
  assert (Hlt : (currentPlayer s < length (players s))%nat)
    by (by eapply lookup_lt_Some).
  erewrite mapPlayer_insert by (by apply list_lookup_insert_eq).
  rewrite list_insert_insert_eq. unfold withJail, withMove. simpl.
  by rewrite Hhuman.
Qed.

Lemma rollDice_onto_goto_jail_witness :
  exists s',
    rollDice sampleBoard 1 stateAtCell24 2 4 stateAtCell24 = Done s'
    /\ players s'
       = <[0%nat :=
             mkPlayer "Ann" human
               (1500 + (if (24 + 2 + 4) mod 40 <? 24 then 200 else 0))
               (Num 10) true 3 false]> (players stateAtCell24)
    /\ hasRolled s' = true
    /\ currentPlayer s' = currentPlayer stateAtCell24
    /\ activeCell s' = activeCell stateAtCell24.
Proof.
  apply (rollDice_onto_goto_jail sampleBoard 0 stateAtCell24
           (newPlayer "Ann" human 1500 24) 24 2 4 (sampleCell 30));
    first [reflexivity | lia].
Defined.

(** X9.  Rent on a utility reached by a human player's roll is computed
    from the dice that were showing before the roll, not from the dice just
    rolled: the landing handler reads the dice of the render in which the
    roll started, and the new dice only show afterwards. *)
Theorem rollDice_utility_rent_reads_previous_dice
    (boardCells : list Cell) (fuel : nat) (s : GameState) (p q : Player)
    (pos d1 d2 : Z) (cell : Cell) (o : nat) :
  isAITurn s = false -> rolling s = false -> hasRolled s = false ->
  players s !! currentPlayer s = Some p ->
  ptype p = human -> inJail p = false ->
  position p = Num pos ->
  displayPositions s !! currentPlayer s = Some (Num pos) ->
  0 <= pos < 40 -> 1 <= d1 <= 6 -> 1 <= d2 <= 6 ->
  js_index boardCells ((pos + d1 + d2) mod 40) = Some cell ->
  cell_type cell = utility ->
  ownership s !! cell_id cell = Some o ->
  o <> currentPlayer s ->
  players s !! o = Some q ->
  isMortgagedIn (mortgaged s) (cell_id cell) = false ->
  let newPosition := (pos + d1 + d2) mod 40 in
  let bonus := if newPosition <? pos then 200 else 0 in
  let shown := (dice s).1 + (dice s).2 in
  let multiplier :=
    if (countOwned boardCells s o utility =? 2)%nat
    then cell_mult_two cell else cell_mult_one cell in
  0 < shown * multiplier ->
  exists s',
    rollDice boardCells (S fuel) s d1 d2 s = Done s'
    /\ cashOf s' (currentPlayer s)
       = Some (money p + bonus - shown * multiplier)
    /\ cashOf s' o = Some (money q + shown * multiplier)
    /\ dice s' = (d1, d2).
Proof.
  intros Hai Hrolling Hrolled Hp Hhuman Hjail Hposition Hdisp Hpos Hd1 Hd2
    Hcell Hty Hown Hne Hq Hmort newPosition bonus shown multiplier Hrent.
  destruct (rollDice_human_steps boardCells (S fuel) s p pos d1 d2 cell)
    as (disp' & ->); try done.
  cbn [handleCellAction]. rewrite Hty, Hown, Hmort.
  destruct (decide (o = currentPlayer s)); [done|].
  unfold rentOf. rewrite Hty. fold shown. fold multiplier.
  assert ((0 <? shown * multiplier) = true) as -> by (by apply Z.ltb_lt).
  unfold derefPlayer. rewrite Hp, Hq.
  eexists. split; [reflexivity|].
  fold newPosition. fold bonus.
  set (moved := setPlayers _ _).
  assert (Hlt : (currentPlayer s < length (players s))%nat)
    by (by eapply lookup_lt_Some).
  assert (Hc : cashOf moved (currentPlayer s) = Some (money p + bonus)).
  { subst moved. unfold cashOf. simpl.
    by rewrite list_lookup_insert_eq. }
  assert (Ho : cashOf moved o = Some (money q)).
  { subst moved. unfold cashOf. simpl.
    rewrite list_lookup_insert_ne by done. by rewrite Hq. }
  assert (Hne' : currentPlayer s <> o) by congruence.
  destruct (cashOf_transfer moved _ _ (shown * multiplier) _ _ Hne' Hc Ho)
    as [H1 H2].
  repeat split; assumption.
Qed.

(** Bob's utility is reached with 1 + 1 while the dice still show 6 + 6:
    the rent is 12 times the multiplier. *)
Lemma rollDice_utility_rent_reads_previous_dice_witness :
  exists s',
    rollDice sampleBoard 1 stateBeforeUtility 1 1 stateBeforeUtility = Done s'
    /\ cashOf s' 0 = Some (1500 + 0 - (6 + 6) * 4)
    /\ cashOf s' 1 = Some (1500 + (6 + 6) * 4)
    /\ dice s' = (1, 1).
Proof.
  apply (rollDice_utility_rent_reads_previous_dice sampleBoard 0
           stateBeforeUtility (newPlayer "Ann" human 1500 10)
           (newPlayer "Bob" human 1500 0) 10 1 1 (sampleCell 12) 1);
    first [reflexivity | discriminate | lia].
Defined.

Lemma rollDice_after_roll (boardCells : list Cell) (fuel : nat)
    (s st : GameState) (d1 d2 : Z) :
  hasRolled s = true -> rollDice boardCells fuel s d1 d2 st = Done st.
Proof.
  intros H. unfold rollDice. rewrite H, orb_true_r. simpl.
  destruct (isAITurn s); [done|].
  destruct (bool_decide _); [done|].
  by destruct (bool_decide _).
Qed.

(** X10.  One roll per turn: once a human player's roll has returned, any
    further roll on the resulting state changes nothing, whatever its
    dice. *)
Theorem rollDice_once_per_turn
    (boardCells : list Cell) (fuel : nat) (s : GameState) (p : Player)
    (pos d1 d2 : Z) (cell : Cell) :
  isAITurn s = false -> rolling s = false -> hasRolled s = false ->
  players s !! currentPlayer s = Some p ->
  ptype p = human -> inJail p = false ->
  position p = Num pos ->
  displayPositions s !! currentPlayer s = Some (Num pos) ->
  0 <= pos < 40 -> 1 <= d1 <= 6 -> 1 <= d2 <= 6 ->
  ownersValid s ->
  js_index boardCells ((pos + d1 + d2) mod 40) = Some cell ->
  exists s1,
    rollDice boardCells (S fuel) s d1 d2 s = Done s1
    /\ hasRolled s1 = true
    /\ forall fuel' e1 e2, rollDice boardCells fuel' s1 e1 e2 s1 = Done s1.
Proof.
  intros Hai Hrolling Hrolled Hp Hhuman Hjail Hposition Hdisp Hpos Hd1 Hd2
    Hvalid Hcell.
  destruct (rollDice_human_steps boardCells (S fuel) s p pos d1 d2 cell)
    as (disp' & ->); try done.
  match goal with
  | |- context [handleCellAction _ _ _ _ _ _ ?m] =>
      destruct (handleCellAction_human_returns boardCells fuel s m cell
                  ONull p Hp Hvalid) as (landed & ->)
  end.
  eexists. split; [reflexivity|]. split; [done|].
  intros. by apply rollDice_after_roll.
Qed.

Lemma rollDice_once_per_turn_witness :
  exists s1,
    rollDice sampleBoard 1 stateAtCell35 3 4 stateAtCell35 = Done s1
    /\ hasRolled s1 = true
    /\ forall fuel' e1 e2, rollDice sampleBoard fuel' s1 e1 e2 s1 = Done s1.
Proof.
  apply (rollDice_once_per_turn sampleBoard 0 stateAtCell35
           (newPlayer "Ann" human 1500 35) 35 3 4 (sampleCell 2));
    first [reflexivity | lia | apply map_Forall_empty].
Defined.

(** ** Rent on a railroad *)



(** ** Houses *)

Lemma houseCountIn_insert (h : gmap nat Z) (k c : nat) (v : Z) :
  houseCountIn (<[k := v]> h) c
  = (if decide (c = k) then v else houseCountIn h c).
Proof.
  unfold houseCountIn. destruct (decide (c = k)) as [->|Hne].
  - by rewrite lookup_insert_eq.
  - by rewrite lookup_insert_ne.
Qed.

Lemma buildHouse_cases (snap st : GameState) (k p : nat) (cost : Z) :
  buildHouse snap k p cost st = st
  \/ (houseCountIn (houses st) k < 5
      /\ buildHouse snap k p cost st
         = updateMoney p (- cost)
             (setHouses (<[k := houseCountIn (houses st) k + 1]> (houses st))
                st)).
Proof.
  unfold buildHouse. destruct (5 <=? houseCountIn (houses st) k) eqn:E;
    [by left|]. apply Z.leb_gt in E.
  destruct (_ <? cost); [by left|by right].
Qed.

Lemma sellHouse_cases (snap st : GameState) (k p : nat) (refund : Z) :
  houses (sellHouse snap k p refund st) = houses st
  \/ (0 < houseCountIn (houses st) k
      /\ houses (sellHouse snap k p refund st)
         = <[k := houseCountIn (houses st) k - 1]> (houses st)).
Proof.
  unfold sellHouse. destruct (decide _); [|by left].
  destruct (houseCountIn (houses st) k <=? 0) eqn:E; [by left|].
  apply Z.leb_gt in E. by right.
Qed.

(** X12.  The house counts stay between 0 and 5: when every count is in
    that range, it still is after any call of [buildHouse] and any call of
    [sellHouse], whoever calls them and whatever the arguments. *)
Theorem houses_stay_in_range
    (snap st : GameState) (k p : nat) (amount : Z) :
  housesInRange st ->
  housesInRange (buildHouse snap k p amount st)
  /\ housesInRange (sellHouse snap k p amount st).
Proof.
  intros Hr. split; intros c.
  - destruct (buildHouse_cases snap st k p amount) as [->|[Hlt ->]];
      [apply Hr|].
    simpl. rewrite houseCountIn_insert.
    destruct (decide (c = k)); [|apply Hr].
    specialize (Hr k). lia.
  - destruct (sellHouse_cases snap st k p amount) as [->|[Hlt ->]];
      [apply Hr|].
    rewrite houseCountIn_insert.
    destruct (decide (c = k)); [|apply Hr].
    specialize (Hr k). lia.
Qed.

Lemma houses_stay_in_range_witness :
  housesInRange (buildHouse stateUnevenGroup 6 0 50 stateUnevenGroup)
  /\ housesInRange (sellHouse stateUnevenGroup 6 0 50 stateUnevenGroup).
Proof.
  apply (houses_stay_in_range stateUnevenGroup stateUnevenGroup 6 0 50).
  intros c. unfold houseCountIn.
  change (houses stateUnevenGroup)
    with ({[ 6%nat := 1; 8%nat := 1 ]} : gmap nat Z).
  destruct (decide (c = 6%nat)) as [->|H6]; [by rewrite lookup_insert_eq|].
  rewrite lookup_insert_ne by done.
  destruct (decide (c = 8%nat)) as [->|H8];
    [by rewrite lookup_singleton_eq|].
  by rewrite lookup_singleton_ne.
Defined.

(** X13.  Building a house and selling it back, each on its own render,
    restores every house count and costs the owner the house price less the
    refund: with the refund [floor(cost / 2)] of both callers the round trip
    loses [cost - floor(cost / 2)]. *)
Theorem build_then_sell_round_trip
    (s : GameState) (k p : nat) (cost cash : Z) :
  ownership s !! k = Some p ->
  cashOf s p = Some cash ->
  houseCountIn (houses s) k < 5 ->
  0 <= houseCountIn (houses s) k ->
  cost <= cash ->
  let s1 := buildHouse s k p cost s in
  let s2 := sellHouse s1 k p (cost / 2) s1 in
  houseCountIn (houses s1) k = houseCountIn (houses s) k + 1
  /\ cashOf s1 p = Some (cash - cost)
  /\ (forall c, houseCountIn (houses s2) c = houseCountIn (houses s) c)
  /\ cashOf s2 p = Some (cash - cost + cost / 2).
Proof.
  intros Hown Hcash Hcap Hlow Hpay s1 s2.
  assert (Hp : exists q, players s !! p = Some q /\ money q = cash).
  { unfold cashOf in Hcash. destruct (players s !! p) as [q|]; [|done].
    exists q. split; [done|]. simpl in Hcash. congruence. }
  destruct Hp as (q & Hq & Hmoney).
  assert (Hs1 : s1 = updateMoney p (- cost)
                  (setHouses (<[k := houseCountIn (houses s) k + 1]>
                                (houses s)) s)).
  { subst s1. unfold buildHouse. rewrite Hq.
    assert ((5 <=? houseCountIn (houses s) k) = false) as ->
      by (by apply Z.leb_gt).
    assert ((money q <? cost) = false) as -> by (apply Z.ltb_ge; lia).
    done. }
  assert (Hcount1 : houseCountIn (houses s1) k = houseCountIn (houses s) k + 1).
  { rewrite Hs1. simpl. rewrite houseCountIn_insert.
    by rewrite decide_True. }
  assert (Hcash1 : cashOf s1 p = Some (cash - cost)).
  { rewrite Hs1. rewrite (cashOf_updateMoney_eq _ _ _ cash); [f_equal; lia|].
    exact Hcash. }
  split; [done|]. split; [done|].
  assert (Hown1 : ownership s1 !! k = Some p) by (by rewrite Hs1).
  subst s2. unfold sellHouse. rewrite decide_True by done.
  rewrite Hcount1.
  assert ((houseCountIn (houses s) k + 1 <=? 0) = false) as ->
    by (apply Z.leb_gt; lia).
  split.
  - intros c. simpl. rewrite houseCountIn_insert.
    destruct (decide (c = k)) as [->|Hne]; [lia|].
    rewrite Hs1. simpl. rewrite houseCountIn_insert.
    by rewrite decide_False.
  - by rewrite (cashOf_updateMoney_eq _ _ _ (cash - cost)).
Qed.

Lemma build_then_sell_round_trip_witness :
  let s1 := buildHouse stateNoHouse 1 0 50 stateNoHouse in
  let s2 := sellHouse s1 1 0 (50 / 2) s1 in
  houseCountIn (houses s1) 1 = houseCountIn (houses stateNoHouse) 1 + 1
  /\ cashOf s1 0 = Some (500 - 50)
  /\ (forall c, houseCountIn (houses s2) c
                = houseCountIn (houses stateNoHouse) c)
  /\ cashOf s2 0 = Some (500 - 50 + 50 / 2).
Proof.
  apply (build_then_sell_round_trip stateNoHouse 1 0 50 500);
    first [reflexivity | vm_compute; discriminate | lia].
Defined.

(** ** Bankruptcy, once more *)

Lemma state_ext (s t : GameState) :
  players s = players t -> currentPlayer s = currentPlayer t ->
  ownership s = ownership t -> mortgaged s = mortgaged t ->
  houses s = houses t -> bankruptPlayers s = bankruptPlayers t ->
  dice s = dice t -> rolling s = rolling t -> hasRolled s = hasRolled t ->
  displayPositions s = displayPositions t -> activeCell s = activeCell t ->
  pendingTrade s = pendingTrade t -> tradeWith s = tradeWith t ->
  tradeOffer s = tradeOffer t -> chanceIndex s = chanceIndex t ->
  chanceCard s = chanceCard t -> isAITurn s = isAITurn t ->
  s = t.
Proof. destruct s, t. simpl. intros. by subst. Qed.

(** X14.  Declaring the same player bankrupt a second time, on the render
    that follows the first, changes nothing: the assets are already gone and
    the player is not listed twice; a duplicate-free list of bankrupt players
    stays duplicate-free. *)
Theorem declareBankruptcy_idempotent (s : GameState) (p : nat) :
  let s1 := declareBankruptcy s p s in
  declareBankruptcy s1 p s1 = s1
  /\ (NoDup (bankruptPlayers s) -> NoDup (bankruptPlayers s1)).
Proof.
  intros s1. split.
  - apply state_ext; try reflexivity.
    + apply map_eq. intros c. rewrite declareBankruptcy_ownership.
      destruct (decide (ownership s1 !! c = Some p)) as [H|]; [|done].
      subst s1. rewrite declareBankruptcy_ownership in H.
      by destruct (decide (ownership s !! c = Some p)).
    + apply map_eq. intros c. rewrite declareBankruptcy_mortgaged.
      destruct (decide (ownership s1 !! c = Some p)) as [H|]; [|done].
      subst s1. rewrite declareBankruptcy_ownership in H.
      by destruct (decide (ownership s !! c = Some p)).
    + apply map_eq. intros c. rewrite declareBankruptcy_houses.
      destruct (decide (ownership s1 !! c = Some p)) as [H|]; [|done].
      subst s1. rewrite declareBankruptcy_ownership in H.
      by destruct (decide (ownership s !! c = Some p)).
    + assert (Hin : p ∈ bankruptPlayers s1).
      { subst s1. unfold declareBankruptcy. simpl.
        destruct (decide (p ∈ bankruptPlayers s)); [done|].
        apply elem_of_app. right. by apply list_elem_of_singleton. }
      unfold declareBankruptcy at 1. simpl.
      change (bankruptPlayers
                (setHouses _ (setMortgaged _ (setOwnership _ s1))))
        with (bankruptPlayers s1).
      by rewrite decide_True.
  - intros Hnd. subst s1. unfold declareBankruptcy. simpl.
    destruct (decide (p ∈ bankruptPlayers s)); [done|].
    apply NoDup_app. split; [done|]. split.
    + intros x Hx Hx'. apply list_elem_of_singleton in Hx'. by subst.
    + apply NoDup_singleton.
Qed.

(** ** The even-build rule *)

Lemma list_max_ge (l : list Z) (m x : Z) :
  list_max l = Some m -> In x l -> x <= m.
Proof.
  destruct l as [|y l]; [done|]. simpl. intros [= <-].
  revert x. induction l as [|z l IH]; intros x; simpl.
  - intros [->|[]]. lia.
  - intros [->|[->|Hin]].
    + specialize (IH x (or_introl eq_refl)). lia.
    + lia.
    + specialize (IH x (or_intror Hin)). lia.
Qed.

Lemma groupCounts_In (boardCells : list Cell) (s : GameState) (cell c : Cell) :
  c ∈ sameColorCells boardCells cell ->
  In (houseCountIn (houses s) (cell_id c)) (groupCounts boardCells s cell).
Proof.
  intros Hc. unfold groupCounts. apply in_map_iff. exists c.
  split; [done|]. by apply list_elem_of_In.
Qed.

Lemma canBuildHere_at_minimum (boardCells : list Cell) (s : GameState)
    (cell c : Cell) :
  canBuildHere boardCells s cell = true ->
  c ∈ sameColorCells boardCells cell ->
  houseCountIn (houses s) (cell_id cell)
  <= houseCountIn (houses s) (cell_id c).
Proof.
  unfold canBuildHere. intros H Hc.
  destruct (ownsFullColorSet boardCells s cell); [|done]. simpl in H.
  destruct (list_min (groupCounts boardCells s cell)) as [m|] eqn:Hmin;
    [|done].
  apply Z.eqb_eq in H. rewrite H.
  apply (list_min_le _ _ _ Hmin). by apply groupCounts_In.
Qed.

Lemma canSellHere_at_maximum (boardCells : list Cell) (s : GameState)
    (cell c : Cell) :
  canSellHere boardCells s cell = true ->
  c ∈ sameColorCells boardCells cell ->
  houseCountIn (houses s) (cell_id c)
  <= houseCountIn (houses s) (cell_id cell)
  /\ 0 < houseCountIn (houses s) (cell_id cell).
Proof.
  unfold canSellHere. intros H Hc.
  destruct (ownsFullColorSet boardCells s cell); [|done]. simpl in H.
  destruct (list_max (groupCounts boardCells s cell)) as [m|] eqn:Hmax;
    [|done].
  apply andb_prop in H as [H1 H2].
  apply Z.eqb_eq in H1. apply Z.ltb_lt in H2. rewrite H1. split; [|done].
  apply (list_max_ge _ _ _ Hmax). by apply groupCounts_In.
Qed.

(** X15.  The two handlers of the asset dialog keep the even-build rule: if
    no street of the colour group carries more than one house above
    another, this still holds after [onBuildHouse], which only builds on a
    street at the group's minimum, and after [onSellHouse], which only sells
    from a street at the group's maximum. *)
Theorem dialog_handlers_keep_even_build
    (boardCells : list Cell) (s : GameState) (k : nat) (cell : Cell) :
  boardCells !! k = Some cell ->
  cell_id cell = k ->
  evenGroup boardCells s cell ->
  (exists s', onBuildHouse boardCells s k s = Done s'
              /\ evenGroup boardCells s' cell)
  /\ (exists s', onSellHouse boardCells s k s = Done s'
                 /\ evenGroup boardCells s' cell).
Proof.
  intros Hk Hid Heven. split.
  - unfold onBuildHouse. rewrite Hk.
    destruct (canBuildHere boardCells s cell) eqn:Hcan; [|by exists s].
    eexists. split; [reflexivity|]. simpl.
    destruct (buildHouse_cases s s k (currentPlayer s) (cell_houseCost cell))
      as [->|[_ ->]]; [done|].
    intros c1 c2 H1 H2. simpl. rewrite !houseCountIn_insert.
    pose proof (canBuildHere_at_minimum _ _ _ _ Hcan H1) as M1.
    pose proof (canBuildHere_at_minimum _ _ _ _ Hcan H2) as M2.
    pose proof (Heven c1 c2 H1 H2) as E. rewrite Hid in M1, M2.
    destruct (decide (cell_id c1 = k)) as [e1|];
      destruct (decide (cell_id c2 = k)) as [e2|];
      try rewrite e1 in E; try rewrite e2 in E; lia.
  - unfold onSellHouse. rewrite Hk.
    destruct (canSellHere boardCells s cell) eqn:Hcan; [|by exists s].
    eexists. split; [reflexivity|]. simpl.
    intros c1 c2 H1 H2.
    destruct (sellHouse_cases s s k (currentPlayer s)
                (cell_houseCost cell / 2)) as [->|[_ ->]];
      [by apply Heven|].
    rewrite !houseCountIn_insert.
    destruct (canSellHere_at_maximum _ _ _ _ Hcan H1) as [M1 _].
    destruct (canSellHere_at_maximum _ _ _ _ Hcan H2) as [M2 _].
    pose proof (Heven c1 c2 H1 H2) as E. rewrite Hid in M1, M2.
    destruct (decide (cell_id c1 = k)) as [e1|];
      destruct (decide (cell_id c2 = k)) as [e2|];
      try rewrite e1 in E; try rewrite e2 in E; lia.
Qed.

Lemma dialog_handlers_keep_even_build_witness :
  (exists s', onBuildHouse sampleBoard stateEvenGroup 1 stateEvenGroup = Done s'
              /\ evenGroup sampleBoard s' (sampleCell 1))
  /\ (exists s', onSellHouse sampleBoard stateEvenGroup 1 stateEvenGroup
                 = Done s'
                 /\ evenGroup sampleBoard s' (sampleCell 1)).
Proof.
  apply (dialog_handlers_keep_even_build sampleBoard stateEvenGroup 1
           (sampleCell 1)); [reflexivity|reflexivity|].
  intros c1 c2.
  assert (Hgroup : sameColorCells sampleBoard (sampleCell 1)
                   = [sampleCell 1; sampleCell 3]) by reflexivity.
  rewrite Hgroup.
  intros [->|[->|[]%elem_of_nil]%elem_of_cons]%elem_of_cons
         [->|[->|[]%elem_of_nil]%elem_of_cons]%elem_of_cons;
    vm_compute; discriminate.
Defined.

(** ** Mortgages through the asset dialog *)

Lemma unmortgageCost_split (cell : Cell) :
  unmortgageCost cell = cell_mortgage cell + cell_mortgage cell / 10.
Proof.
  unfold unmortgageCost.
  replace (11 * cell_mortgage cell)
    with (cell_mortgage cell + cell_mortgage cell * 10) by lia.
  rewrite Z.div_add by lia. lia.
Qed.

(** X16.  Mortgaging a cell in the asset dialog and lifting the mortgage in
    the next render is a round trip on the mortgage flag that costs the owner
    exactly [floor(mortgage / 10)]: the value is credited, then
    [floor(mortgage * 1.1)] is debited. *)
Theorem mortgage_then_unmortgage_round_trip
    (boardCells : list Cell) (s : GameState) (k : nat) (cell : Cell)
    (cash : Z) :
  boardCells !! k = Some cell ->
  ownership s !! k = Some (currentPlayer s) ->
  isMortgagedIn (mortgaged s) (cell_id cell) = false ->
  houseCountIn (houses s) (cell_id cell) = 0 ->
  cashOf s (currentPlayer s) = Some cash ->
  cell_mortgage cell / 10 <= cash ->
  let s1 := clickMortgage boardCells s k s in
  let s2 := clickUnmortgage boardCells s1 k s1 in
  isMortgagedIn (mortgaged s1) (cell_id cell) = true
  /\ cashOf s1 (currentPlayer s) = Some (cash + cell_mortgage cell)
  /\ isMortgagedIn (mortgaged s2) (cell_id cell) = false
  /\ cashOf s2 (currentPlayer s) = Some (cash - cell_mortgage cell / 10).
Proof.
  intros Hk Hown Hmort Hcount Hcash Hpay s1 s2.
  assert (Hp : exists q, players s !! currentPlayer s = Some q
                         /\ money q = cash).
  { unfold cashOf in Hcash.
    destruct (players s !! currentPlayer s) as [q|]; [|done].
    exists q. split; [done|]. simpl in Hcash. congruence. }
  destruct Hp as (q & Hq & Hmoney).
  assert (Hs1 : s1 = updateMoney (currentPlayer s) (cell_mortgage cell)
                  (setMortgaged (<[cell_id cell := true]> (mortgaged s)) s)).
  { subst s1. unfold clickMortgage, mortgageButtonEnabled, mortgageProperty.
    rewrite Hk, Hq, Hmort, Hcount.
    rewrite bool_decide_eq_true_2 by done. simpl.
    by rewrite andb_false_r. }
  assert (Hm1 : isMortgagedIn (mortgaged s1) (cell_id cell) = true).
  { rewrite Hs1. unfold isMortgagedIn. simpl. by rewrite lookup_insert_eq. }
  assert (Hc1 : cashOf s1 (currentPlayer s)
                = Some (cash + cell_mortgage cell)).
  { rewrite Hs1. by apply cashOf_updateMoney_eq. }
  split; [done|]. split; [done|].
  assert (Hcur1 : currentPlayer s1 = currentPlayer s) by (by rewrite Hs1).
  assert (Hown1 : ownership s1 !! k = Some (currentPlayer s1))
    by (by rewrite Hs1).
  destruct (clickUnmortgage_affordable boardCells s1 k cell
              (cash + cell_mortgage cell)) as [Hc2 Hm2]; try done.
  { by rewrite Hcur1. }
  { rewrite unmortgageCost_split. lia. }
  fold s2 in Hc2, Hm2. split.
  - unfold isMortgagedIn. by rewrite Hm2.
  - rewrite Hcur1 in Hc2. rewrite Hc2. f_equal.
    rewrite unmortgageCost_split. lia.
Qed.

Lemma mortgage_then_unmortgage_round_trip_witness :
  let s1 := clickMortgage sampleBoard stateOwnsRailroad 5 stateOwnsRailroad in
  let s2 := clickUnmortgage sampleBoard s1 5 s1 in
  isMortgagedIn (mortgaged s1) 5 = true
  /\ cashOf s1 0 = Some (700 + 100)
  /\ isMortgagedIn (mortgaged s2) 5 = false
  /\ cashOf s2 0 = Some (700 - 100 / 10).
Proof.
  apply (mortgage_then_unmortgage_round_trip sampleBoard stateOwnsRailroad 5
           (sampleCell 5) 700);
    first [reflexivity | vm_compute; discriminate].
Defined.

(** ** Buying once *)

(** X17.  A purchase decision is used up by the first answer: after
    [buyProperty()] the cell is the player's and a second [buyProperty()] on
    the next render changes nothing, and the same holds after
    [skipProperty()], which leaves ownership and cash as they were. *)
Theorem purchase_decision_is_used_once
    (s : GameState) (c : Cell) (cash : Z) :
  activeCell s = Some c ->
  cashOf s (currentPlayer s) = Some cash ->
  (exists s1,
      buyProperty s s = Done s1
      /\ ownership s1 !! cell_id c = Some (currentPlayer s)
      /\ cashOf s1 (currentPlayer s) = Some (cash - cell_price c)
      /\ buyProperty s1 s1 = Done s1)
  /\ buyProperty (skipProperty s) (skipProperty s) = Done (skipProperty s)
  /\ ownership (skipProperty s) = ownership s
  /\ players (skipProperty s) = players s.
Proof.
  intros Hc Hcash. split; [|by repeat split].
  unfold buyProperty at 1. unfold derefPlayer. rewrite Hc.
  destruct (players s !! currentPlayer s) as [p|] eqn:E.
  2:{ unfold cashOf in Hcash. by rewrite E in Hcash. }
  eexists. split; [reflexivity|]. repeat split.
  - simpl. apply lookup_insert_eq.
  - change (cashOf (updateMoney (currentPlayer s) (- cell_price c) s)
              (currentPlayer s) = Some (cash - cell_price c)).
    by rewrite (cashOf_updateMoney_eq _ _ _ cash).
Qed.

Lemma purchase_decision_is_used_once_witness :
  (exists s1,
      buyProperty stateCannotAfford stateCannotAfford = Done s1
      /\ ownership s1 !! 1%nat = Some 0%nat
      /\ cashOf s1 0 = Some (50 - 60)
      /\ buyProperty s1 s1 = Done s1)
  /\ buyProperty (skipProperty stateCannotAfford)
       (skipProperty stateCannotAfford)
     = Done (skipProperty stateCannotAfford)
  /\ ownership (skipProperty stateCannotAfford) = ownership stateCannotAfford
  /\ players (skipProperty stateCannotAfford) = players stateCannotAfford.
Proof.
  apply (purchase_decision_is_used_once stateCannotAfford (sampleCell 1) 50);
    reflexivity.
Defined.

(** ** The winner *)

Lemma elem_of_activePlayerIndexes (s : GameState) (j : nat) :
  j ∈ activePlayerIndexes s
  <-> (j < length (players s))%nat /\ (j ∉ bankruptPlayers s).
Proof.
  unfold activePlayerIndexes. rewrite list_elem_of_filter, elem_of_seq.
  split; intros [? ?]; split; try done; lia.
Qed.

Lemma NoDup_activePlayerIndexes (s : GameState) :
  NoDup (activePlayerIndexes s).
Proof. apply NoDup_filter, NoDup_seq. Qed.

Lemma NoDup_only_element (l : list nat) (i : nat) :
  NoDup l -> (forall j, j ∈ l <-> j = i) -> l = [i].
Proof.
  intros Hnd Hall. destruct l as [|x l].
  - assert (H : i ∈ []) by (by apply Hall). by apply elem_of_nil in H.
  - assert (x = i) as -> by (apply Hall; by left).
    f_equal. destruct l as [|y l]; [done|].
    assert (y = i) as -> by (apply Hall; right; by left).
    apply NoDup_cons in Hnd as [Hnot _]. exfalso. apply Hnot. by left.
Qed.

Lemma activePlayerIndexes_only (s : GameState) (i : nat) :
  activePlayerIndexes s = [i]
  <-> (i < length (players s))%nat /\ (i ∉ bankruptPlayers s)
      /\ forall j, (j < length (players s))%nat ->
                   j ∉ bankruptPlayers s -> j = i.
Proof.
  split.
  - intros H.
    assert (Hi : i ∈ activePlayerIndexes s) by (rewrite H; by left).
    apply elem_of_activePlayerIndexes in Hi as [? ?].
    repeat split; try done. intros j Hj Hb.
    assert (Hin : j ∈ activePlayerIndexes s)
      by (by apply elem_of_activePlayerIndexes).
    rewrite H in Hin. by apply list_elem_of_singleton in Hin.
  - intros (Hi & Hb & Hall).
    apply NoDup_only_element; [apply NoDup_activePlayerIndexes|].
    intros j. rewrite elem_of_activePlayerIndexes. split.
    + intros [? ?]. by apply Hall.
    + intros ->. done.
Qed.

(** X18.  The page names a winner exactly when one single player of the
    roster is not bankrupt, and the winner is that player. *)
Theorem winner_iff_single_solvent_player (s : GameState) (p : Player) :
  winner s = Some p
  <-> exists i,
        players s !! i = Some p
        /\ (i ∉ bankruptPlayers s)
        /\ forall j, (j < length (players s))%nat ->
                     j ∉ bankruptPlayers s -> j = i.
Proof.
  unfold winner. split.
  - destruct (activePlayerIndexes s) as [|i [|? ?]] eqn:E; try done.
    intros Hp. exists i.
    apply activePlayerIndexes_only in E as (_ & Hb & Hall). by repeat split.
  - intros (i & Hp & Hb & Hall).
    assert (E : activePlayerIndexes s = [i]).
    { apply activePlayerIndexes_only. repeat split; try done.
      by eapply lookup_lt_Some. }
    by rewrite E.
Qed.

(** X19.  When two players are left, the bankruptcy of one makes the other
    the winner. *)
Theorem bankruptcy_of_one_of_two_names_the_winner
    (s : GameState) (p i : nat) :
  i <> p ->
  (i < length (players s))%nat ->
  i ∉ bankruptPlayers s ->
  (forall j, (j < length (players s))%nat -> j ∉ bankruptPlayers s ->
             j = i \/ j = p) ->
  winner (declareBankruptcy s p s) = players s !! i.
Proof.
  intros Hne Hi Hb Hall.
  set (s' := declareBankruptcy s p s).
  assert (Hpl : players s' = players s) by reflexivity.
  assert (Hbk : forall j, j ∈ bankruptPlayers s'
                          <-> j ∈ bankruptPlayers s \/ j = p).
  { intros j. subst s'. unfold declareBankruptcy. simpl.
    destruct (decide (p ∈ bankruptPlayers s)) as [Hin|Hout].
    - split; [by left|]. intros [?| ->]; done.
    - rewrite elem_of_app, list_elem_of_singleton. done. }
  assert (E : activePlayerIndexes s' = [i]).
  { apply activePlayerIndexes_only. rewrite Hpl. repeat split; try done.
    - rewrite Hbk. intros [?|?]; done.
    - intros j Hj Hnb. rewrite Hbk in Hnb.
      destruct (Hall j Hj) as [?| ->]; [tauto|done|tauto]. }
  unfold winner. by rewrite E, Hpl.
Qed.

Lemma bankruptcy_of_one_of_two_names_the_winner_witness :
  winner (declareBankruptcy stateTwoLeft 0 stateTwoLeft)
  = players stateTwoLeft !! 2%nat.
Proof.
  apply (bankruptcy_of_one_of_two_names_the_winner stateTwoLeft 0 2);
    [discriminate | simpl; lia | | ].
  - intros H. apply list_elem_of_singleton in H. discriminate.
  - intros j Hj Hb. simpl in Hj.
    destruct j as [|[|[|j]]]; [by right| |by left|lia].
    exfalso. apply Hb. by apply list_elem_of_singleton.
Defined.

(** ** The turn after a bankruptcy *)

Lemma cyclic_reach_other (n cur i : nat) :
  (cur < n)%nat -> (i < n)%nat -> i <> cur ->
  exists k, (1 <= k < n)%nat /\ ((cur + k) mod n)%nat = i.
Proof.
  intros Hc Hi Hne. destruct (decide (cur < i)%nat) as [Hlt|Hge].
  - exists (i - cur)%nat. split; [lia|].
    replace (cur + (i - cur))%nat with i by lia. by apply Nat.mod_small.
  - exists (n + i - cur)%nat. split; [lia|].
    replace (cur + (n + i - cur))%nat with (i + 1 * n)%nat by lia.
    rewrite Nat.Div0.mod_add. by apply Nat.mod_small.
Qed.

Lemma cyclic_step_moves (n cur k : nat) :
  (cur < n)%nat -> (1 <= k < n)%nat -> ((cur + k) mod n)%nat <> cur.
Proof.
  intros Hc Hk. destruct (decide (cur + k < n)%nat) as [Hlt|Hge].
  - rewrite Nat.mod_small by done. lia.
  - replace (cur + k)%nat with (cur + k - n + 1 * n)%nat by lia.
    rewrite Nat.Div0.mod_add, Nat.mod_small by lia. lia.
Qed.

(** X20.  Confirming one's bankruptcy while another player is still solvent
    returns, lists the player as bankrupt, resets the rolled flag and passes
    the turn to the next solvent player in cyclic roster order: the new
    active player is another player and is not bankrupt in the new state. *)
Theorem confirmBankruptcy_passes_the_turn
    (fuel : nat) (s : GameState) (i : nat) :
  (currentPlayer s < length (players s))%nat ->
  (i < length (players s))%nat ->
  i <> currentPlayer s ->
  i ∉ bankruptPlayers s ->
  (length (players s) <= fuel)%nat ->
  exists s',
    confirmBankruptcy fuel s s = Done s'
    /\ currentPlayer s' <> currentPlayer s
    /\ (currentPlayer s' < length (players s'))%nat
    /\ (currentPlayer s' ∉ bankruptPlayers s')
    /\ currentPlayer s ∈ bankruptPlayers s'
    /\ hasRolled s' = false
    /\ (forall c, ownership s' !! c <> Some (currentPlayer s)).
Proof.
  intros Hcur Hi Hne Hfree Hfuel.
  destruct (cyclic_reach_other _ _ _ Hcur Hi Hne) as (k0 & Hk0 & Hreach).
  destruct (nextActive_first (length (players s)) (bankruptPlayers s) fuel
              (currentPlayer s) k0) as (k & Hk & Hnext & Hout & _).
  { lia. }
  { by rewrite Hreach. }
  unfold confirmBankruptcy. rewrite Hnext.
  eexists. split; [reflexivity|].
  assert (Hmoves : ((currentPlayer s + k) mod length (players s))%nat
                   <> currentPlayer s)
    by (apply cyclic_step_moves; lia).
  simpl. repeat split.
  - done.
  - apply Nat.mod_upper_bound. lia.
  - destruct (decide (currentPlayer s ∈ bankruptPlayers s)); [done|].
    rewrite elem_of_app, list_elem_of_singleton. intros [?|?]; done.
  - destruct (decide (currentPlayer s ∈ bankruptPlayers s)); [done|].
    apply elem_of_app. right. by apply list_elem_of_singleton.
  - intros c H.
    apply map_lookup_filter_Some in H as [_ H]. by simpl in H.
Qed.

Lemma confirmBankruptcy_passes_the_turn_witness :
  exists s',
    confirmBankruptcy 3 stateTwoLeft stateTwoLeft = Done s'
    /\ currentPlayer s' <> currentPlayer stateTwoLeft
    /\ (currentPlayer s' < length (players s'))%nat
    /\ (currentPlayer s' ∉ bankruptPlayers s')
    /\ currentPlayer stateTwoLeft ∈ bankruptPlayers s'
    /\ hasRolled s' = false
    /\ (forall c, ownership s' !! c <> Some (currentPlayer stateTwoLeft)).
Proof.
  apply (confirmBankruptcy_passes_the_turn 3 stateTwoLeft 2);
    [simpl; lia | simpl; lia | discriminate | | simpl; lia].
  intros H. apply list_elem_of_singleton in H. discriminate.
Defined.

(** ** The trade dialog *)

Lemma filter_keeps_all (P : nat -> Prop) `{forall x, Decision (P x)}
    (l : list nat) :
  (forall x, x ∈ l -> P x) -> filter P l = l.
Proof.
  induction l as [|x l IH]; intros Hall; [done|].
  rewrite filter_cons_True by (apply Hall; by left).
  f_equal. apply IH. intros y Hy. apply Hall. by right.
Qed.

(** X21.  Selecting in the trade dialog flips the selection of one cell and
    of no other: [toggle] adds the id when it is absent and removes it when
    present, it keeps a duplicate-free list duplicate-free, and two toggles
    of an unselected cell give back the list itself. *)
Theorem toggle_flips_one_selection (l : list nat) (id : nat) :
  (forall x, x ∈ toggle l id
             <-> (x = id /\ id ∉ l) \/ (x <> id /\ x ∈ l))
  /\ (NoDup l -> NoDup (toggle l id))
  /\ (id ∉ l -> toggle (toggle l id) id = l).
Proof.
  unfold toggle at 1 2. destruct (decide (id ∈ l)) as [Hin|Hout].
  - split; [|split; [|done]].
    + intros x. rewrite list_elem_of_filter. split.
      * intros [? ?]. by right.
      * intros [[_ ?]|[? ?]]; done.
    + apply NoDup_filter.
  - split; [|split].
    + intros x. rewrite elem_of_app, list_elem_of_singleton. split.
      * intros [Hx| ->]; [right|left]; split; try done.
        intros ->. done.
      * intros [[-> _]|[_ ?]]; [by right|by left].
    + intros Hnd. apply NoDup_app. split; [done|]. split.
      * intros x Hx Hx'. apply list_elem_of_singleton in Hx'. by subst.
      * apply NoDup_singleton.
    + intros _. unfold toggle.
      rewrite (decide_False (P := id ∈ l)) by done.
      rewrite decide_True
        by (apply elem_of_app; right; by apply list_elem_of_singleton).
      rewrite filter_app, filter_cons_False, filter_nil by tauto.
      rewrite app_nil_r. apply filter_keeps_all.
      intros x Hx ->. done.
Qed.

Lemma applyTrade_cash (trade : Trade) (st : GameState) (cf ct : Z) :
  from trade <> to trade ->
  cashOf st (from trade) = Some cf ->
  cashOf st (to trade) = Some ct ->
  cashOf (applyTrade trade st) (from trade)
  = Some (cf - Z.max 0 (giveMoney (offer trade))
          + Z.max 0 (takeMoney (offer trade)))
  /\ cashOf (applyTrade trade st) (to trade)
     = Some (ct + Z.max 0 (giveMoney (offer trade))
             - Z.max 0 (takeMoney (offer trade))).
Proof.
  intros Hne Hf Ht. unfold applyTrade.
  set (g := giveMoney (offer trade)). set (t := takeMoney (offer trade)).
  set (st1 := setOwnership _ st).
  assert (Hf1 : cashOf st1 (from trade) = Some cf) by exact Hf.
  assert (Ht1 : cashOf st1 (to trade) = Some ct) by exact Ht.
  clearbody st1.
  set (st2 := if 0 <? g then _ else st1).
  assert (H2 : cashOf st2 (from trade) = Some (cf - Z.max 0 g)
               /\ cashOf st2 (to trade) = Some (ct + Z.max 0 g)).
  { subst st2. destruct (0 <? g) eqn:E.
    - apply Z.ltb_lt in E. rewrite Z.max_r by lia.
      by apply cashOf_transfer.
    - apply Z.ltb_ge in E. rewrite Z.max_l by lia.
      rewrite Hf1, Ht1. split; f_equal; lia. }
  destruct H2 as [Hf2 Ht2]. clearbody st2.
  set (st3 := if 0 <? t then _ else st2).
  assert (H3 : cashOf st3 (from trade)
               = Some (cf - Z.max 0 g + Z.max 0 t)
               /\ cashOf st3 (to trade)
                  = Some (ct + Z.max 0 g - Z.max 0 t)).
  { subst st3. destruct (0 <? t) eqn:E.
    - apply Z.ltb_lt in E. rewrite (Z.max_r 0 t) by lia.
      assert (Hne' : to trade <> from trade) by congruence.
      destruct (cashOf_transfer st2 _ _ t _ _ Hne' Ht2 Hf2) as [-> ->].
      done.
    - apply Z.ltb_ge in E. rewrite (Z.max_l 0 t) by lia.
      rewrite Hf2, Ht2. split; f_equal; lia. }
  exact H3.
Qed.

(** X22.  An offer that passes the validation of the trade dialog and is
    accepted on the render that follows leaves neither player with negative
    cash, provided neither had negative cash: the dialog lets an offer
    through only when each side can pay its cash leg, and the offer accepted
    is the one that was composed. *)
Theorem validated_offer_keeps_cash_nonnegative
    (s : GameState) (w : nat) (p q : Player) :
  tradeWith s = Some w ->
  w <> currentPlayer s ->
  players s !! currentPlayer s = Some p ->
  players s !! w = Some q ->
  0 <= money p -> 0 <= money q ->
  isValidTrade s = true ->
  let s1 := clickPropose s s in
  let s2 := acceptTrade s1 s1 in
  pendingTrade s1 = Some (mkTrade (currentPlayer s) w (tradeOffer s))
  /\ exists cf ct,
       cashOf s2 (currentPlayer s) = Some cf
       /\ cashOf s2 w = Some ct
       /\ 0 <= cf /\ 0 <= ct
       /\ cf + ct = money p + money q
       /\ pendingTrade s2 = None.
Proof.
  intros Hw Hne Hp Hq Hp0 Hq0 Hvalid s1 s2.
  assert (Hs1 : s1 = setPendingTrade
                       (Some (mkTrade (currentPlayer s) w (tradeOffer s))) s).
  { subst s1. unfold clickPropose, handleConfirmTrade.
    by rewrite Hw, Hvalid. }
  split; [by rewrite Hs1|].
  unfold isValidTrade in Hvalid. rewrite Hp, Hw, Hq in Hvalid.
  apply andb_prop in Hvalid as [Hvalid _].
  apply andb_prop in Hvalid as [Hg Ht].
  apply orb_prop in Hg. apply orb_prop in Ht.
  rewrite Z.eqb_eq, Z.leb_le in Hg, Ht.
  subst s2. unfold acceptTrade. rewrite Hs1. cbn [pendingTrade setPendingTrade].
  set (trade := mkTrade (currentPlayer s) w (tradeOffer s)).
  set (st := setPendingTrade (Some trade) s).
  destruct (applyTrade_cash trade st (money p) (money q)) as [Hcf Hct].
  { simpl. congruence. }
  { unfold cashOf. simpl. by rewrite Hp. }
  { unfold cashOf. simpl. by rewrite Hq. }
  simpl in Hcf, Hct. eexists _, _.
  split; [exact Hcf|]. split; [exact Hct|].
  repeat split; lia.
Qed.

Lemma validated_offer_keeps_cash_nonnegative_witness :
  let s1 := clickPropose stateComposedOffer stateComposedOffer in
  let s2 := acceptTrade s1 s1 in
  pendingTrade s1
  = Some (mkTrade 0 1 (tradeOffer stateComposedOffer))
  /\ exists cf ct,
       cashOf s2 0 = Some cf
       /\ cashOf s2 1 = Some ct
       /\ 0 <= cf /\ 0 <= ct
       /\ cf + ct = 300 + 100
       /\ pendingTrade s2 = None.
Proof.
  apply (validated_offer_keeps_cash_nonnegative stateComposedOffer 1
           (newPlayer "Ann" human 300 0) (newPlayer "Bob" human 100 0));
    first [reflexivity | discriminate | simpl; lia].
Defined.

(** ** The automated player *)

(** X23.  The roll of an automated player has no guard: whether or not the
    player is in jail or has rolled, with dice in [1..6] and every recorded
    owner in the roster it moves the player from [pos] to
    [(pos + d1 + d2) mod 40], credits 200 on a wrap and resolves the landing
    silently from that state, whatever the cell.  On a cell other than a
    chance cell (where the card under the cursor is applied at once) the
    roll returns with the rolled flag set and no purchase decision opened,
    even on an unowned cell: the player stands on the cell reached with the
    cash of before, the 200 of a wrap, less the rent or tax of the landing,
    or on cell 10 in jail after the cell that sends there. *)
Theorem rollDiceFromBackend_moves_without_guard
    (boardCells : list Cell) (fuel : nat) (s : GameState) (p : Player)
    (pos d1 d2 : Z) (cell : Cell) :
  players s !! currentPlayer s = Some p ->
  position p = Num pos ->
  0 <= pos < 40 -> 1 <= d1 <= 6 -> 1 <= d2 <= 6 ->
  ownersValid s ->
  js_index boardCells ((pos + d1 + d2) mod 40) = Some cell ->
  let newPosition := (pos + d1 + d2) mod 40 in
  let bonus := if newPosition <? pos then 200 else 0 in
  exists moved,
    players moved
    = <[currentPlayer s :=
          mkPlayer (name p) (ptype p) (money p + bonus) (Num newPosition)
            (inJail p) (jailTurnsLeft p) (jailFreeCard p)]> (players s)
    /\ rollDiceFromBackend boardCells (S fuel) s d1 d2 s
       = omap (fun st => setHasRolled true (setRolling false st))
           (handleCellAction boardCells (S fuel) s (Some cell) true
              (ONum (Num newPosition)) moved)
    /\ (cell_type cell <> chance ->
        exists s',
          rollDiceFromBackend boardCells (S fuel) s d1 d2 s = Done s'
          /\ players s' !! currentPlayer s
             = Some (if decide (cell_type cell = goto_jail)
                     then mkPlayer (name p) (ptype p) (money p + bonus)
                            (Num 10) true 3 (jailFreeCard p)
                     else mkPlayer (name p) (ptype p)
                            (money p + bonus
                             - landingCharge boardCells s cell)
                            (Num newPosition) (inJail p) (jailTurnsLeft p)
                            (jailFreeCard p))
          /\ activeCell s' = activeCell s
          /\ hasRolled s' = true
          /\ sameBooks s s').
Proof.
  intros Hp Hposition Hpos Hd1 Hd2 Hvalid Hcell newPosition bonus.
  destruct (walk_spec (ticks (d1 + d2)) (currentPlayer s) pos false
              (displayPositions (setDice (d1, d2) (setRolling true s))) Hpos)
    as (disp' & Hwalk).
  assert (Hticks : Z.of_nat (ticks (d1 + d2)) = d1 + d2)
    by (unfold ticks; lia).
  rewrite Hticks, Z.add_assoc, wrap_test in Hwalk by done.
  fold newPosition in Hwalk. simpl in Hwalk.
  set (q := mkPlayer (name p) (ptype p) (money p + bonus) (Num newPosition)
              (inJail p) (jailTurnsLeft p) (jailFreeCard p)).
  set (moved :=
         setPlayers (<[currentPlayer s := q]> (players s))
           (setDisplayPositions disp'
              (setDice (d1, d2) (setRolling true s)))).
  assert (Hq : players moved !! currentPlayer s = Some q).
  { subst moved. cbn [players setPlayers].
    apply list_lookup_insert_eq. by eapply lookup_lt_Some. }
  assert (Hroll :
    rollDiceFromBackend boardCells (S fuel) s d1 d2 s
    = omap (fun st => setHasRolled true (setRolling false st))
        (handleCellAction boardCells (S fuel) s (Some cell) true
           (ONum (Num newPosition)) moved)).
  { subst moved q. unfold rollDiceFromBackend, derefPlayer.
    rewrite Hp, Hposition. simpl. rewrite Hwalk.
    cbn [js_index_num]. fold newPosition in Hcell. rewrite Hcell.
    by rewrite (mapPlayer_insert _ _ _ _ Hp). }
  exists moved. split; [reflexivity|]. split; [exact Hroll|].
  intros Hty.
  destruct (handleCellAction_settles boardCells fuel s moved cell true
              (ONum (Num newPosition)) p q Hp Hq Hvalid (or_intror Hty))
    as (landed & Hlanded & Hrecord & _ & _ & Hactive).
  exists (setHasRolled true (setRolling false landed)).
  split; [by rewrite Hroll, Hlanded|].
  split; [exact Hrecord|].
  split; [exact (Hactive eq_refl)|]. split; [reflexivity|].
  pose proof (handleCellAction_sameBooks boardCells (S fuel) s
                (Some cell) true (ONum (Num newPosition)) moved) as Hb.
  rewrite Hlanded in Hb. simpl in Hb.
  eapply sameBooks_trans; [|exact Hb].
  subst moved. repeat split. simpl. rewrite length_insert. done.
Qed.

(** Bot rolls from jail, after a roll already made, onto the unowned
    utility: it leaves cell 10 for cell 12 and is asked nothing. *)
Lemma rollDiceFromBackend_moves_without_guard_witness :
  let s := setHasRolled true stateBotInJail in
  exists s',
    rollDiceFromBackend sampleBoard 1 s 1 1 s = Done s'
    /\ players s' !! 1%nat
       = Some (mkPlayer "Bot" ai (40 + 0 - 0) (Num 12) true 1 false)
    /\ activeCell s' = None
    /\ hasRolled s' = true.
Proof.
  intros s.
  destruct (rollDiceFromBackend_moves_without_guard sampleBoard 0 s
              (mkPlayer "Bot" ai 40 (Num 10) true 1 false) 10 1 1
              (sampleCell 12) eq_refl eq_refl ltac:(lia) ltac:(lia)
              ltac:(lia) ltac:(apply map_Forall_empty) eq_refl)
    as (moved & _ & _ & Hrest).
  destruct (Hrest ltac:(discriminate)) as (s' & Hrun & Hrec & Hact & Hrolled
                                           & _).
  exists s'. repeat split; assumption.
Defined.

(** The roll of an automated player, up to the call of landing
    resolution. *)
Lemma rollDiceFromBackend_steps
    (boardCells : list Cell) (fuel : nat) (s : GameState) (p : Player)
    (pos d1 d2 : Z) (cell : Cell) :
  players s !! currentPlayer s = Some p ->
  position p = Num pos ->
  0 <= pos < 40 -> 1 <= d1 <= 6 -> 1 <= d2 <= 6 ->
  js_index boardCells ((pos + d1 + d2) mod 40) = Some cell ->
  let newPosition := (pos + d1 + d2) mod 40 in
  let bonus := if newPosition <? pos then 200 else 0 in
  exists disp',
    rollDiceFromBackend boardCells fuel s d1 d2 s
    = omap (fun st => setHasRolled true (setRolling false st))
        (handleCellAction boardCells fuel s (Some cell) true
           (ONum (Num newPosition))
           (setPlayers
              (<[currentPlayer s :=
                   mkPlayer (name p) (ptype p) (money p + bonus)
                     (Num newPosition) (inJail p) (jailTurnsLeft p)
                     (jailFreeCard p)]> (players s))
              (setDisplayPositions disp'
                 (setDice (d1, d2) (setRolling true s))))).
Proof.
  intros Hp Hposition Hpos Hd1 Hd2 Hcell newPosition bonus.
  destruct (walk_spec (ticks (d1 + d2)) (currentPlayer s) pos false
              (displayPositions (setDice (d1, d2) (setRolling true s))) Hpos)
    as (disp' & Hwalk).
  assert (Hticks : Z.of_nat (ticks (d1 + d2)) = d1 + d2)
    by (unfold ticks; lia).
  rewrite Hticks, Z.add_assoc, wrap_test in Hwalk by done.
  fold newPosition in Hwalk. simpl in Hwalk.
  exists disp'. unfold rollDiceFromBackend, derefPlayer.
  rewrite Hp, Hposition. simpl. rewrite Hwalk.
  cbn [js_index_num]. fold newPosition in Hcell. rewrite Hcell.
  by rewrite (mapPlayer_insert _ _ _ _ Hp).
Qed.

(** Silent landing on a chance cell applies the card under the cursor of
    the render at once. *)
Lemma handleCellAction_chance_silent
    (boardCells : list Cell) (fuel : nat) (snap st : GameState) (cell : Cell)
    (card : Card) (opt : optnum) :
  cell_type cell = chance ->
  chanceCards !! chanceIndex snap = Some card ->
  handleCellAction boardCells (S fuel) snap (Some cell) true opt st
  = applyChance boardCells fuel snap card opt
      (setChanceIndex ((chanceIndex st + 1) mod length chanceCards)%nat st).
Proof.
  intros Hty Hcard. cbn [handleCellAction]. by rewrite Hty, Hcard.
Qed.

(** A [move] card drawn by an automated player's roll, from the roll to its
    return: the player is moved from the chance cell reached, while the 200
    of the card is decided against the cell the roll started from.  The 200
    of a wrap by the dice are a separate credit. *)
Lemma rollDiceFromBackend_onto_move_card
    (boardCells : list Cell) (fuel : nat) (s : GameState) (p : Player)
    (pos d1 d2 steps : Z) (chanceCell cell : Cell) (card : Card) :
  players s !! currentPlayer s = Some p ->
  position p = Num pos ->
  0 <= pos < 40 -> 1 <= d1 <= 6 -> 1 <= d2 <= 6 ->
  ownersValid s ->
  let reached := (pos + d1 + d2) mod 40 in
  js_index boardCells reached = Some chanceCell ->
  cell_type chanceCell = chance ->
  chanceCards !! chanceIndex s = Some card ->
  effect card = EMove steps ->
  -40 <= steps ->
  let newPos := (reached + steps + 40) mod 40 in
  js_index boardCells newPos = Some cell ->
  cell_type cell <> chance ->
  let wrap := if reached <? pos then 200 else 0 in
  let bonus := if newPos <? pos then 200 else 0 in
  exists s',
    rollDiceFromBackend boardCells (S (S fuel)) s d1 d2 s = Done s'
    /\ players s' !! currentPlayer s
       = Some (if decide (cell_type cell = goto_jail)
               then mkPlayer (name p) (ptype p) (money p + wrap + bonus)
                      (Num 10) true 3 (jailFreeCard p)
               else mkPlayer (name p) (ptype p)
                      (money p + wrap + bonus
                       - landingCharge boardCells s cell)
                      (Num newPos) (inJail p) (jailTurnsLeft p)
                      (jailFreeCard p))
    /\ chanceCard s' = None
    /\ hasRolled s' = true.
Proof.
  intros Hp Hposition Hpos Hd1 Hd2 Hvalid reached Hreached Hchance Hcard Heff
    Hsteps newPos Hcell Hty wrap bonus.
  destruct (rollDiceFromBackend_steps boardCells (S (S fuel)) s p pos d1 d2
              chanceCell Hp Hposition Hpos Hd1 Hd2 Hreached)
    as (disp' & Hroll).
  fold reached in Hroll. fold wrap in Hroll.
  set (q := mkPlayer (name p) (ptype p) (money p + wrap) (Num reached)
              (inJail p) (jailTurnsLeft p) (jailFreeCard p)) in *.
  set (moved :=
         setPlayers (<[currentPlayer s := q]> (players s))
           (setDisplayPositions disp'
              (setDice (d1, d2) (setRolling true s)))) in *.
  rewrite (handleCellAction_chance_silent boardCells (S fuel) s moved
             chanceCell card _ Hchance Hcard) in Hroll.
  set (drawn :=
         setChanceIndex
           ((chanceIndex moved + 1) mod length chanceCards)%nat moved) in *.
  assert (Hq : players drawn !! currentPlayer s = Some q).
  { subst drawn moved. cbn [players setPlayers setChanceIndex].
    apply list_lookup_insert_eq. by eapply lookup_lt_Some. }
  assert (Hreached' : 0 <= reached < 40)
    by (apply Z.mod_pos_bound; lia).
  destruct (applyChance_move_settles boardCells fuel s drawn card
              (ONum (Num reached)) steps pos reached p q cell Heff Hp
              Hposition Hq (or_intror eq_refl) Hreached' Hsteps Hvalid
              Hcell (or_intror Hty))
    as (s' & Hrun & Hrecord & Hcleared & _).
  exists (setHasRolled true (setRolling false s')).
  split; [by rewrite Hroll, Hrun|].
  split; [exact Hrecord|split; [exact Hcleared|reflexivity]].
Qed.

(** Two chance cells in a row for an automated player.  Bot rolls 1 + 1
    from cell 5 onto the chance cell 7 and the card that advances three
    cells takes it to cell 10, a chance cell of this board.  Landing there
    reads the same card again, the cursor of the render being unchanged, and
    applies it without a base position, so from the position of the render,
    cell 5: Bot ends on cell 8, and the cursor has moved twice. *)
Lemma automated_nested_chance_example :
  exists s',
    rollDiceFromBackend twoChanceBoard 3 stateBotAtCell5 1 1 stateBotAtCell5
    = Done s'
    /\ players s' !! 1%nat
       = Some (mkPlayer "Bot" ai 1500 (Num 8) false 0 false)
    /\ chanceIndex s' = 2%nat
    /\ chanceCard s' = None
    /\ hasRolled s' = true.
Proof. eexists. repeat split; reflexivity. Qed.

Lemma leaves_obind (R : GameState -> GameState -> Prop) (a : GameState)
    (o : outcome) (k : GameState -> outcome) :
  (forall x y z, R x y -> R y z -> R x z) ->
  leaves R a o -> (forall x, leaves R x (k x)) ->
  leaves R a (obind o k).
Proof.
  intros Htr Ho Hk. destruct o as [st'| |]; simpl in *; try done.
  specialize (Hk st'). destruct (k st'); simpl in *; eauto.
Qed.

Lemma sameTurn_trans (a b c : GameState) :
  sameTurn a b -> sameTurn b c -> sameTurn a c.
Proof. unfold sameTurn. congruence. Qed.

Lemma leaves_sameBooks_sameTurn (st : GameState) (o : outcome) :
  leaves sameBooks st o -> leaves sameTurn st o.
Proof.
  destruct o; simpl; try done; by intros (_ & _ & _ & _ & ? & _).
Qed.

Lemma executeAIAction_sameTurn (boardCells : list Cell) (fuel : nat)
    (snap st : GameState) (action : Action) :
  hasRolled snap = false ->
  leaves sameTurn st (executeAIAction boardCells fuel snap action st).
Proof.
  intros Hflag. unfold executeAIAction, sameTurn.
  destruct action; simpl; try done.
  - destruct (boardCells !! cellId); simpl; [|done].
    unfold buildHouse. destruct (5 <=? _); [done|].
    by destruct (_ <? _).
  - destruct (boardCells !! cellId); simpl; [|done].
    unfold sellHouse. destruct (decide _); [|done].
    by destruct (_ <=? 0).
  - destruct (boardCells !! cellId); simpl; [|done].
    unfold mortgageProperty. by destruct (0 <? _).
  - destruct (boardCells !! cellId) as [cell|]; simpl; [|done].
    by destruct (cell_unmortgageCost cell).
  - by destruct (boardCells !! cellId).
  - unfold endTurn. by rewrite Hflag.
Qed.

Lemma runActions_sameTurn (boardCells : list Cell) (fuel : nat)
    (snap : GameState) (actions : list Action) (st : GameState) :
  hasRolled snap = false ->
  leaves sameTurn st (runActions boardCells fuel snap actions st).
Proof.
  intros Hflag. revert st. induction actions as [|a l IH]; intros st.
  - done.
  - cbn [runActions]. apply leaves_obind; [apply sameTurn_trans| |done].
    by apply executeAIAction_sameTurn.
Qed.

Lemma rollDiceFromBackend_sameTurn (boardCells : list Cell) (fuel : nat)
    (snap st : GameState) (d1 d2 : Z) :
  leaves sameTurn st (rollDiceFromBackend boardCells fuel snap d1 d2 st).
Proof.
  unfold rollDiceFromBackend.
  apply leaves_derefPlayer; [done|]. intros p.
  destruct (walk _ _ _ _ _) as [[currentPos passedStart] disp].
  destruct (js_index_num boardCells currentPos) as [cell|]; [|done].
  apply leaves_omap; [apply sameTurn_trans|done|].
  apply leaves_sameBooks_sameTurn.
  eapply leaves_step; [apply sameBooks_trans| |apply handleCellAction_sameBooks].
  repeat split. simpl. apply length_mapPlayer.
Qed.

(** X24.  An automated turn started on a render where the rolled flag is
    unset never passes the turn: whatever the service answers, [endTurn]
    actions included, the active player is the same when [runAITurn] comes
    back, or when it stops on a throw.  The executor calls the [endTurn] of
    the render that started the turn, which still reads the flag as
    unset. *)
Theorem runAITurn_never_passes_the_turn
    (boardCells : list Cell) (fuel : nat) (s st : GameState)
    (resp : AIResponse) :
  hasRolled s = false ->
  leaves sameTurn st (runAITurn boardCells fuel s resp st).
Proof.
  intros Hflag. unfold runAITurn. destruct (isAITurn s); [done|].
  assert (Hend : forall a o, leaves sameTurn a o ->
                             leaves sameTurn a (endAITurn o)).
  { intros a o Ho. by destruct o. }
  pose proof (runActions_sameTurn boardCells fuel s (preRollActions resp)
                (setIsAITurn true st) Hflag) as Hpre.
  destruct (runActions boardCells fuel s (preRollActions resp)
              (setIsAITurn true st)) as [st1|st1|]; simpl in Hpre;
    [| exact Hpre | done].
  assert (Hpost : forall x, sameTurn st x ->
            leaves sameTurn st
              (endAITurn (runActions boardCells fuel s
                            (postRollActions resp) x))).
  { intros x Hx. apply Hend.
    eapply leaves_step; [apply sameTurn_trans|exact Hx|].
    by apply runActions_sameTurn. }
  destruct (roll resp) as [[d1 d2]|]; [|by apply Hpost].
  pose proof (rollDiceFromBackend_sameTurn boardCells fuel s st1 d1 d2)
    as Hroll.
  destruct (rollDiceFromBackend boardCells fuel s d1 d2 st1)
    as [st2|st2|]; simpl in Hroll.
  - assert (Hx : sameTurn st st2) by (eapply sameTurn_trans; eauto).
    destruct (players s !! currentPlayer s); by apply Hpost.
  - assert (Hx : sameTurn st st2) by (eapply sameTurn_trans; eauto).
    by destruct (players s !! currentPlayer s).
  - by destruct (players s !! currentPlayer s).
Qed.

(** A whole turn of Bot: a build, a roll and an [endTurn]; the turn is
    still Bot's. *)
Lemma runAITurn_never_passes_the_turn_witness :
  leaves sameTurn stateBotPartialSet
    (runAITurn sampleBoard 3 stateBotPartialSet
       (mkResponse [ABuild 6] (Some (2, 3)) [AEndTurn]) stateBotPartialSet).
Proof.
  apply (runAITurn_never_passes_the_turn sampleBoard 3 stateBotPartialSet
           stateBotPartialSet (mkResponse [ABuild 6] (Some (2, 3)) [AEndTurn])).
  reflexivity.
Defined.

(** The same turn, run: it comes back with the rolled flag set and Bot
    still the active player. *)
Lemma runAITurn_example :
  exists s',
    runAITurn sampleBoard 3 stateBotPartialSet
      (mkResponse [ABuild 6] (Some (2, 3)) [AEndTurn]) stateBotPartialSet
    = Done s'
    /\ currentPlayer s' = 1%nat
    /\ hasRolled s' = true
    /\ isAITurn s' = false
    /\ position <$> players s' !! 1%nat = Some (Num 5).
Proof. eexists. repeat split; reflexivity. Qed.

(** A turn whose roll meets two chance cells in a row (the card of the
    first leads onto the second): the roll ends on cell 8, the turn comes
    back and Bot is still the active player. *)
Lemma runAITurn_nested_chance_example :
  exists s',
    runAITurn twoChanceBoard 3 stateBotAtCell5
      (mkResponse [] (Some (1, 1)) [AEndTurn]) stateBotAtCell5
    = Done s'
    /\ currentPlayer s' = 1%nat
    /\ hasRolled s' = true
    /\ isAITurn s' = false
    /\ players s' !! 1%nat
       = Some (mkPlayer "Bot" ai 1500 (Num 8) false 0 false).
Proof. eexists. repeat split; reflexivity. Qed.

(** ** Jail *)

Lemma iter_decrementJailTurn (who : nat) (k : nat) (st : GameState)
    (p : Player) :
  players st !! who = Some p ->
  players (Nat.iter k (decrementJailTurn who) st) !! who
  = Some (withJail (position p) (inJail p) (jailTurnsLeft p - Z.of_nat k) p)
  /\ forall i, i <> who ->
       players (Nat.iter k (decrementJailTurn who) st) !! i = players st !! i.
Proof.
  intros Hp. induction k as [|k [IH1 IH2]].
  - simpl. split; [|done]. rewrite Hp. f_equal. destruct p. simpl.
    unfold withJail. simpl. f_equal. lia.
  - rewrite Nat.iter_succ.
    set (st' := Nat.iter k (decrementJailTurn who) st) in *.
    unfold decrementJailTurn. cbn [players setPlayers]. split.
    + rewrite (lookup_mapPlayer_eq _ _ _ _ IH1). f_equal.
      unfold withJail. simpl. f_equal. lia.
    + intros i Hi. rewrite lookup_mapPlayer_ne by done. by apply IH2.
Qed.

(** X25.  The stay in jail of an automated player only counts down: after
    any number of [jailStay] actions the player is still in jail, with the
    counter lowered by that number, below zero if need be, and the cash
    untouched; nothing on this path ever releases the player. *)
Theorem automated_jail_stay_never_releases
    (boardCells : list Cell) (fuel : nat) (snap st : GameState) (k : nat)
    (p : Player) :
  players st !! currentPlayer snap = Some p ->
  executeAIAction boardCells fuel snap AJailStay st
  = Done (decrementJailTurn (currentPlayer snap) st)
  /\ players (Nat.iter k (decrementJailTurn (currentPlayer snap)) st)
       !! currentPlayer snap
     = Some (mkPlayer (name p) (ptype p) (money p) (position p) (inJail p)
               (jailTurnsLeft p - Z.of_nat k) (jailFreeCard p)).
Proof.
  intros Hp. split; [reflexivity|].
  by destruct (iter_decrementJailTurn (currentPlayer snap) k st p Hp) as [-> _].
Qed.

Lemma automated_jail_stay_never_releases_witness :
  executeAIAction sampleBoard 0 stateBotInJail AJailStay stateBotInJail
  = Done (decrementJailTurn 1 stateBotInJail)
  /\ players (Nat.iter 3 (decrementJailTurn 1) stateBotInJail) !! 1%nat
     = Some (mkPlayer "Bot" ai 40 (Num 10) true (1 - Z.of_nat 3) false).
Proof.
  apply (automated_jail_stay_never_releases sampleBoard 0 stateBotInJail
           stateBotInJail 3 (mkPlayer "Bot" ai 40 (Num 10) true 1 false)).
  reflexivity.
Defined.

(** X26.  The jail-free card is needed and used up on the human path only:
    the button of the jail panel does nothing without a card and otherwise
    releases the player and takes the card, while the executor's
    [jailUseCard] action releases the player whether or not a card is held
    and leaves the card flag as it was. *)
Theorem jail_free_card_on_both_paths
    (boardCells : list Cell) (fuel : nat) (s : GameState) (p : Player) :
  players s !! currentPlayer s = Some p ->
  inJail p = true ->
  (ptype p = human ->
   players (useJailFreeCard s s)
   = if jailFreeCard p
     then <[currentPlayer s :=
              mkPlayer (name p) (ptype p) (money p) (position p) false 0
                false]> (players s)
     else players s)
  /\ exists s',
       executeAIAction boardCells fuel s AJailUseCard s = Done s'
       /\ players s'
          = <[currentPlayer s :=
                mkPlayer (name p) (ptype p) (money p) (position p) false 0
                  (jailFreeCard p)]> (players s).
Proof.
  intros Hp Hjail. split.
  - intros Hhuman. unfold useJailFreeCard, jailPanelShown.
    rewrite Hp, Hjail, Hhuman.
    rewrite bool_decide_eq_false_2 by discriminate. simpl.
    destruct (jailFreeCard p); [|done]. simpl.
    rewrite (mapPlayer_insert _ _ _ _ Hp).
    erewrite mapPlayer_insert
      by (apply list_lookup_insert_eq; by eapply lookup_lt_Some).
    rewrite list_insert_insert_eq.
    unfold withJailFreeCard, withJail. simpl. by rewrite Hhuman.
  - eexists. split; [reflexivity|]. simpl.
    by rewrite (mapPlayer_insert _ _ _ _ Hp).
Qed.

Lemma jail_free_card_on_both_paths_witness :
  (human = human ->
   players (useJailFreeCard stateAnnInJail stateAnnInJail)
   = if true
     then <[0%nat := mkPlayer "Ann" human 40 (Num 10) false 0 false]>
            (players stateAnnInJail)
     else players stateAnnInJail)
  /\ exists s',
       executeAIAction sampleBoard 0 stateAnnInJail AJailUseCard
         stateAnnInJail = Done s'
       /\ players s'
          = <[0%nat := mkPlayer "Ann" human 40 (Num 10) false 0 true]>
              (players stateAnnInJail).
Proof.
  apply (jail_free_card_on_both_paths sampleBoard 0 stateAnnInJail
           (mkPlayer "Ann" human 40 (Num 10) true 1 true)); reflexivity.
Defined.

(** X27.  A human player's stay in jail lowers the counter by one and
    releases the player exactly when the counter reaches zero or less,
    without touching the cash; pressed before any roll, it sets the rolled
    flag but does not pass the turn, which is ended afterwards. *)
Theorem stayInJail_counts_down_and_releases
    (fuel : nat) (s : GameState) (p : Player) :
  players s !! currentPlayer s = Some p ->
  hasRolled s = false ->
  exists s',
    stayInJail fuel s s = Done s'
    /\ players s'
       = <[currentPlayer s :=
             mkPlayer (name p) (ptype p) (money p) (position p)
               (0 <? jailTurnsLeft p - 1) (jailTurnsLeft p - 1)
               (jailFreeCard p)]> (players s)
    /\ hasRolled s' = true
    /\ currentPlayer s' = currentPlayer s
    /\ (jailTurnsLeft p <= 1 -> inJail <$> players s' !! currentPlayer s
                                = Some false).
Proof.
  intros Hp Hflag. unfold stayInJail, endTurn. rewrite Hflag. simpl.
  eexists. split; [reflexivity|]. simpl.
  rewrite (mapPlayer_insert _ _ _ _ Hp).
  repeat split. intros Hle.
  rewrite list_lookup_insert_eq by (by eapply lookup_lt_Some). simpl.
  f_equal. apply Z.ltb_ge. lia.
Qed.

Lemma stayInJail_counts_down_and_releases_witness :
  exists s',
    stayInJail 2 stateAnnInJail stateAnnInJail = Done s'
    /\ players s'
       = <[0%nat := mkPlayer "Ann" human 40 (Num 10) (0 <? 1 - 1) (1 - 1)
                      true]> (players stateAnnInJail)
    /\ hasRolled s' = true
    /\ currentPlayer s' = currentPlayer stateAnnInJail
    /\ (1 <= 1 -> inJail <$> players s' !! 0%nat = Some false).
Proof.
  apply (stayInJail_counts_down_and_releases 2 stateAnnInJail
           (mkPlayer "Ann" human 40 (Num 10) true 1 true)); reflexivity.
Defined.

(** X28.  Bail is 100 and is only taken from a jailed human player who
    holds it: the button then debits exactly 100 and releases the player on
    the spot, the position kept and the counter reset; below 100 it changes
    nothing.  The executor's [jailPay] action debits 100 and releases without
    looking at the cash. *)
Theorem bail_on_both_paths
    (boardCells : list Cell) (fuel : nat) (s : GameState) (p : Player) :
  players s !! currentPlayer s = Some p ->
  inJail p = true ->
  (ptype p = human ->
   players (payBail s s)
   = if 100 <=? money p
     then <[currentPlayer s :=
              mkPlayer (name p) (ptype p) (money p - 100) (position p) false 0
                (jailFreeCard p)]> (players s)
     else players s)
  /\ exists s',
       executeAIAction boardCells fuel s AJailPay s = Done s'
       /\ players s'
          = <[currentPlayer s :=
                mkPlayer (name p) (ptype p) (money p - 100) (position p)
                  false 0 (jailFreeCard p)]> (players s).
Proof.
  intros Hp Hjail.
  assert (Hpaid : players (releaseFromJail (currentPlayer s)
                             (updateMoney (currentPlayer s) (-100) s))
                  = <[currentPlayer s :=
                        mkPlayer (name p) (ptype p) (money p - 100)
                          (position p) false 0 (jailFreeCard p)]>
                      (players s)).
  { simpl. rewrite (mapPlayer_insert _ _ _ _ Hp).
    erewrite mapPlayer_insert
      by (apply list_lookup_insert_eq; by eapply lookup_lt_Some).
    rewrite list_insert_insert_eq. unfold withJail, withMoney. simpl.
    do 2 f_equal. }
  split.
  - intros Hhuman. unfold payBail, jailPanelShown.
    rewrite Hp, Hjail, Hhuman.
    rewrite bool_decide_eq_false_2 by discriminate. simpl.
    destruct (100 <=? money p); [|done].
    rewrite Hpaid. by rewrite Hhuman.
  - eexists. split; [reflexivity|]. exact Hpaid.
Qed.

Lemma bail_on_both_paths_witness :
  (human = human ->
   players (payBail stateAnnInJail stateAnnInJail)
   = if 100 <=? 40
     then <[0%nat := mkPlayer "Ann" human (40 - 100) (Num 10) false 0 true]>
            (players stateAnnInJail)
     else players stateAnnInJail)
  /\ exists s',
       executeAIAction sampleBoard 0 stateAnnInJail AJailPay stateAnnInJail
       = Done s'
       /\ players s'
          = <[0%nat := mkPlayer "Ann" human (40 - 100) (Num 10) false 0 true]>
              (players stateAnnInJail).
Proof.
  apply (bail_on_both_paths sampleBoard 0 stateAnnInJail
           (mkPlayer "Ann" human 40 (Num 10) true 1 true)); reflexivity.
Defined.

(** ** Offers composed in the trade dialog *)

Lemma composing_selection (boardCells : list Cell) (w : nat) (s : GameState) :
  composing boardCells w s ->
  tradeWith s = Some w
  /\ (forall id, id ∈ giveProperties (tradeOffer s) ->
        exists cell, cell_id cell = id
                     /\ isTradable s cell (currentPlayer s) = true)
  /\ (forall id, id ∈ takeProperties (tradeOffer s) ->
        exists cell, cell_id cell = id /\ isTradable s cell w = true).
Proof.
  induction 1 as [s Hw Hg Ht|s cell _ (Hw & Hg & Ht)|s cell _ (Hw & Hg & Ht)
                 |s g t _ (Hw & Hg & Ht)].
  - split; [done|]. rewrite Hg, Ht.
    split; intros id Hin; by apply elem_of_nil in Hin.
  - unfold clickGive. destruct (decide (cell ∈ myCells boardCells s))
      as [Hin|]; [|done].
    split; [done|]. split; [|exact Ht]. simpl. intros id Hid.
    unfold toggle in Hid.
    destruct (decide (cell_id cell ∈ giveProperties (tradeOffer s))).
    + apply list_elem_of_filter in Hid as [_ Hid]. by apply Hg.
    + apply elem_of_app in Hid as [Hid|Hid]; [by apply Hg|].
      apply list_elem_of_singleton in Hid. subst id. exists cell.
      split; [done|].
      unfold myCells in Hin. by apply list_elem_of_filter in Hin as [? _].
  - unfold clickTake. destruct (decide (cell ∈ theirCells boardCells s))
      as [Hin|]; [|done].
    split; [done|]. split; [exact Hg|]. simpl. intros id Hid.
    unfold toggle in Hid.
    destruct (decide (cell_id cell ∈ takeProperties (tradeOffer s))).
    + apply list_elem_of_filter in Hid as [_ Hid]. by apply Ht.
    + apply elem_of_app in Hid as [Hid|Hid]; [by apply Ht|].
      apply list_elem_of_singleton in Hid. subst id. exists cell.
      split; [done|].
      unfold theirCells in Hin. rewrite Hw in Hin.
      by apply list_elem_of_filter in Hin as [? _].
  - by repeat split.
Qed.

Lemma isTradable_owner (s : GameState) (cell : Cell) (o : nat) :
  isTradable s cell o = true ->
  ownership s !! cell_id cell = Some o
  /\ isMortgagedIn (mortgaged s) (cell_id cell) = false.
Proof.
  unfold isTradable. intros H.
  apply andb_prop in H as [H _]. apply andb_prop in H as [H1 H2].
  apply bool_decide_eq_true in H1. by apply negb_true_iff in H2.
Qed.

(** X29.  An offer composed in the trade dialog from an empty selection,
    with the partner fixed, only moves cells between their owners: once
    proposed and accepted on the following renders, every cell given was the
    proposer's, unmortgaged, and is now the partner's, every cell taken was
    the partner's, unmortgaged, and is now the proposer's, and no other cell
    changes owner. *)
Theorem composed_offer_moves_owned_cells_only
    (boardCells : list Cell) (w : nat) (s : GameState) :
  composing boardCells w s ->
  w <> currentPlayer s ->
  isValidTrade s = true ->
  let s1 := clickPropose s s in
  let s2 := acceptTrade s1 s1 in
  (forall id, id ∈ giveProperties (tradeOffer s) ->
     ownership s !! id = Some (currentPlayer s)
     /\ isMortgagedIn (mortgaged s) id = false
     /\ ownership s2 !! id = Some w)
  /\ (forall id, id ∈ takeProperties (tradeOffer s) ->
        ownership s !! id = Some w
        /\ isMortgagedIn (mortgaged s) id = false
        /\ ownership s2 !! id = Some (currentPlayer s))
  /\ (forall id, id ∉ giveProperties (tradeOffer s) ->
        id ∉ takeProperties (tradeOffer s) ->
        ownership s2 !! id = ownership s !! id).
Proof.
  intros Hcomp Hne Hvalid s1 s2.
  destruct (composing_selection _ _ _ Hcomp) as (Hw & Hg & Ht).
  assert (Hown2 : forall id,
            ownership s2 !! id
            = tradeOwnership (mkTrade (currentPlayer s) w (tradeOffer s))
                (ownership s) !! id).
  { intros id. subst s2 s1.
    unfold clickPropose, handleConfirmTrade, acceptTrade.
    rewrite Hw, Hvalid. cbn [pendingTrade setPendingTrade].
    unfold applyTrade. simpl.
    destruct (0 <? giveMoney (tradeOffer s)),
             (0 <? takeMoney (tradeOffer s)); reflexivity. }
  split; [|split].
  - intros id Hid. destruct (Hg id Hid) as (cell & <- & Htr).
    destruct (isTradable_owner _ _ _ Htr) as [Ho Hm].
    split; [done|]. split; [done|].
    rewrite Hown2, tradeOwnership_lookup. simpl.
    rewrite decide_False.
    + by rewrite decide_True.
    + intros Hin. destruct (Ht _ Hin) as (cell' & Hid' & Htr').
      destruct (isTradable_owner _ _ _ Htr') as [Ho' _].
      rewrite Hid' in Ho'. congruence.
  - intros id Hid. destruct (Ht id Hid) as (cell & <- & Htr).
    destruct (isTradable_owner _ _ _ Htr) as [Ho Hm].
    split; [done|]. split; [done|].
    rewrite Hown2, tradeOwnership_lookup. simpl.
    by rewrite decide_True.
  - intros id Hg' Ht'. rewrite Hown2, tradeOwnership_lookup. simpl.
    by rewrite !decide_False.
Qed.

(** Ann selects her cell 1 and Bob's cell 5, enters 200 against 50, and the
    offer goes through. *)
Lemma composed_offer_moves_owned_cells_only_witness :
  let s :=
    setTradeOffer (mkOffer [1%nat] 200 [5%nat] 50)
      (clickTake sampleBoard
         (clickGive sampleBoard stateDialogOpen (sampleCell 1)
            stateDialogOpen)
         (sampleCell 5)
         (clickGive sampleBoard stateDialogOpen (sampleCell 1)
            stateDialogOpen)) in
  let s1 := clickPropose s s in
  let s2 := acceptTrade s1 s1 in
  (forall id, id ∈ giveProperties (tradeOffer s) ->
     ownership s !! id = Some (currentPlayer s)
     /\ isMortgagedIn (mortgaged s) id = false
     /\ ownership s2 !! id = Some 1%nat)
  /\ (forall id, id ∈ takeProperties (tradeOffer s) ->
        ownership s !! id = Some 1%nat
        /\ isMortgagedIn (mortgaged s) id = false
        /\ ownership s2 !! id = Some (currentPlayer s))
  /\ (forall id, id ∉ giveProperties (tradeOffer s) ->
        id ∉ takeProperties (tradeOffer s) ->
        ownership s2 !! id = ownership s !! id).
Proof.
  apply (composed_offer_moves_owned_cells_only sampleBoard 1);
    [|discriminate|reflexivity].
  apply (composing_money sampleBoard 1
           (clickTake sampleBoard
              (clickGive sampleBoard stateDialogOpen (sampleCell 1)
                 stateDialogOpen)
              (sampleCell 5)
              (clickGive sampleBoard stateDialogOpen (sampleCell 1)
                 stateDialogOpen)) 200 50).
  apply composing_take, composing_give, composing_start; reflexivity.
Defined.

(** ** The repairs card *)


